(** * A shallow embedding of [autoclean/cleaner.py]

    The cleaning engine is a five-stage pipeline over a pandas dataframe:
    text normalisation, temporal parsing, email normalisation,
    deduplication and imputation, each stage also writing to a shared audit
    dictionary.  The dataframe is modelled column-wise, as pandas stores it:
    a list of columns, each with a name, a dtype and one cell per row.  The
    audit dictionary is a record whose [column_changes] field is a finite
    map from column names to finite maps from change keys to values.

    What pandas and Python do, and the source only calls, is modelled here
    as follows.
    - Text is a [string] of bytes; [str.lower], [str.strip] and the [in]
      test act on the ASCII range.
    - A float is a double: finite, given by its exact rational value, or
      one of the two infinities.  The NaNs are the null of a float column.
      Additions and divisions round their exact result to a double.
    - A null ([None], [NaN], [pd.NA], [NaT]) is the one cell [NA].
    - [pd.to_datetime], the rounding of a rational to a double, the [repr]
      of a float that is not a small integer, and the [str] of a timestamp
      are parameters of the development. *)

From Stdlib Require Import Ascii QArith Qcanon.
From stdpp Require Import gmap strings list pretty sorting numbers.

Local Open Scope string_scope.
Local Open Scope Z_scope.

(** ** Python strings *)

Module PyStr.

Definition code (c : ascii) : nat := nat_of_ascii c.

(** The ASCII characters for which [str.isspace] holds: tab, line feed,
    vertical tab, form feed, carriage return, the four separators
    0x1c-0x1f and the space. *)
Definition is_space (c : ascii) : bool :=
  let n := code c in
  ((9 <=? n)%nat && (n <=? 13)%nat) || ((28 <=? n)%nat && (n <=? 32)%nat).

Definition is_upper (c : ascii) : bool :=
  let n := code c in (65 <=? n)%nat && (n <=? 90)%nat.

Definition is_lower (c : ascii) : bool :=
  let n := code c in (97 <=? n)%nat && (n <=? 122)%nat.

Definition is_digit (c : ascii) : bool :=
  let n := code c in (48 <=? n)%nat && (n <=? 57)%nat.

Definition lower_char (c : ascii) : ascii :=
  if is_upper c then ascii_of_nat (code c + 32) else c.

(** [s.lower()] *)
Fixpoint lower (s : string) : string :=
  match s with
  | EmptyString => EmptyString
  | String c s' => String (lower_char c) (lower s')
  end.

Fixpoint lstrip (s : string) : string :=
  match s with
  | EmptyString => EmptyString
  | String c s' => if is_space c then lstrip s' else s
  end.

Fixpoint rstrip (s : string) : string :=
  match s with
  | EmptyString => EmptyString
  | String c s' =>
      match rstrip s' with
      | EmptyString => if is_space c then EmptyString else String c EmptyString
      | r => String c r
      end
  end.

(** [s.strip()] *)
Definition strip (s : string) : string := rstrip (lstrip s).

Fixpoint starts_with (p s : string) : bool :=
  match p, s with
  | EmptyString, _ => true
  | String a p', String b s' => bool_decide (a = b) && starts_with p' s'
  | String _ _, EmptyString => false
  end.

(** [p in s] *)
Fixpoint contains (p s : string) : bool :=
  starts_with p s ||
  match s with
  | EmptyString => false
  | String _ s' => contains p s'
  end.

End PyStr.

(** ** Regular expressions, as far as [EMAIL_RE] needs them *)

Module Re.

Inductive regex : Type :=
| Never                                (* matches nothing *)
| Empty                                (* matches the empty string *)
| Class (p : ascii -> bool)            (* one character of a class *)
| Seq (r1 r2 : regex)
| Or (r1 r2 : regex)
| Star (r : regex).

(** [r+] and [r{2,}] *)
Definition Plus (r : regex) : regex := Seq r (Star r).
Definition AtLeast2 (r : regex) : regex := Seq r (Seq r (Star r)).

(** What it means for a string to be in the language of a regex. *)
Inductive Matches : regex -> string -> Prop :=
| MEmpty : Matches Empty EmptyString
| MClass p c : p c = true -> Matches (Class p) (String c EmptyString)
| MSeq r1 r2 s1 s2 :
    Matches r1 s1 -> Matches r2 s2 -> Matches (Seq r1 r2) (s1 +:+ s2)
| MOrL r1 r2 s : Matches r1 s -> Matches (Or r1 r2) s
| MOrR r1 r2 s : Matches r2 s -> Matches (Or r1 r2) s
| MStar0 r : Matches (Star r) EmptyString
| MStarS r s1 s2 :
    Matches r s1 -> Matches (Star r) s2 -> Matches (Star r) (s1 +:+ s2).

Fixpoint nullable (r : regex) : bool :=
  match r with
  | Never => false
  | Empty => true
  | Class _ => false
  | Seq r1 r2 => nullable r1 && nullable r2
  | Or r1 r2 => nullable r1 || nullable r2
  | Star _ => true
  end.

(** The derivative of [r] by the character [c]. *)
Fixpoint deriv (c : ascii) (r : regex) : regex :=
  match r with
  | Never => Never
  | Empty => Never
  | Class p => if p c then Empty else Never
  | Seq r1 r2 =>
      if nullable r1
      then Or (Seq (deriv c r1) r2) (deriv c r2)
      else Seq (deriv c r1) r2
  | Or r1 r2 => Or (deriv c r1) (deriv c r2)
  | Star r1 => Seq (deriv c r1) (Star r1)
  end.

(** The executable matcher: the whole of [s] is in the language of [r]. *)
Fixpoint fullmatch (r : regex) (s : string) : bool :=
  match s with
  | EmptyString => nullable r
  | String c s' => fullmatch (deriv c r) s'
  end.

End Re.

(** ** EMAIL_RE *)

Definition local_char (c : ascii) : bool :=
  PyStr.is_upper c || PyStr.is_lower c || PyStr.is_digit c ||
  bool_decide (c = "."%char) || bool_decide (c = "_"%char) ||
  bool_decide (c = "%"%char) || bool_decide (c = "+"%char) ||
  bool_decide (c = "-"%char).

Definition domain_char (c : ascii) : bool :=
  PyStr.is_upper c || PyStr.is_lower c || PyStr.is_digit c ||
  bool_decide (c = "."%char) || bool_decide (c = "-"%char).

Definition letter (c : ascii) : bool := PyStr.is_upper c || PyStr.is_lower c.

Definition is_char (a c : ascii) : bool := bool_decide (c = a).

(** [$] without [re.MULTILINE]: the end of the string, or just before a
    line feed that ends the string. *)
Definition Dollar : Re.regex := Re.Or Re.Empty (Re.Class (is_char "010"%char)).

(** [^[A-Za-z0-9._%+-]+@[A-Za-z0-9.-]+\.[A-Za-z]{2,}$] *)
Definition EMAIL_RE : Re.regex :=
  Re.Seq (Re.Plus (Re.Class local_char))
 (Re.Seq (Re.Class (is_char "@"%char))
 (Re.Seq (Re.Plus (Re.Class domain_char))
 (Re.Seq (Re.Class (is_char "."%char))
 (Re.Seq (Re.AtLeast2 (Re.Class letter))
         Dollar)))).

(** [bool(EMAIL_RE.match(s))]: the pattern is anchored at both ends, so
    [match] succeeds exactly when the whole string is in its language. *)
Definition EMAIL_RE_match (s : string) : bool := Re.fullmatch EMAIL_RE s.

(** ** Cells, columns and dataframes *)

(** A double that is a number: a finite one, given by its exact value, or
    an infinity.  The other doubles are the NaNs, which pandas reads as
    nulls. *)
Inductive double : Type :=
| Finite (q : Qc)
| Infinity (negative : bool).

Global Instance double_eq_dec : EqDecision double.
Proof. solve_decision. Defined.

(** A cell holds what a pandas cell can hold: a null, a [str], a Python
    [int], a float or a timestamp (nanoseconds since the epoch, UTC). *)
Inductive cell : Type :=
| NA
| Str (s : string)
| Int (z : Z)
| Float (x : double)
| Ts (t : Z).

Global Instance cell_eq_dec : EqDecision cell.
Proof. solve_decision. Defined.

Inductive dtype : Type := object | int64 | float64 | datetime64.

Global Instance dtype_eq_dec : EqDecision dtype.
Proof. solve_decision. Defined.

Record column : Type := Column {
  name : string;
  col_dtype : dtype;
  values : list cell
}.

Global Instance column_eq_dec : EqDecision column.
Proof. solve_decision. Defined.

(** [df[col] = vals], the dtype being kept *)
Definition set_values (c : column) (vals : list cell) : column :=
  {| name := name c; col_dtype := col_dtype c; values := vals |}.

(** A dataframe is the list of its columns, in column order.  Its number of
    rows is the length of its columns; a frame without columns has none. *)
Abbreviation dataframe := (list column).

Definition len (df : dataframe) : nat :=
  match df with
  | [] => 0%nat
  | c :: _ => length (values c)
  end.

(** The cells a column of each dtype can hold: anything in an object
    column, integers in an [int64] column, floats and [NaN] in a [float64]
    column, timestamps and [NaT] in a [datetime64] column. *)
Definition fits (d : dtype) (x : cell) : Prop :=
  match d, x with
  | object, _ => True
  | int64, Int _ => True
  | float64, (Float _ | NA) => True
  | datetime64, (Ts _ | NA) => True
  | _, _ => False
  end.

Definition well_typed (c : column) : Prop :=
  Forall (fits (col_dtype c)) (values c).

(** No two columns share a name, all columns have one cell per row, and
    every cell fits the dtype of its column. *)
Definition well_formed (df : dataframe) : Prop :=
  NoDup (map name df) /\
  Forall (fun c => length (values c) = len df) df /\
  Forall well_typed df.

Definition isna (x : cell) : bool :=
  match x with NA => true | _ => false end.

Definition notna (x : cell) : bool := negb (isna x).

(** [s.isna().sum()] and the like: how many cells satisfy [p] *)
Definition count (p : cell -> bool) (vals : list cell) : Z :=
  Z.of_nat (length (filter (fun x => p x = true) vals)).

(** [select_dtypes(include=["object"])] keeps the columns for which this
    holds. *)
Definition is_object (c : column) : bool := bool_decide (col_dtype c = object).

Definition is_numeric_dtype (c : column) : bool :=
  bool_decide (col_dtype c = int64) || bool_decide (col_dtype c = float64).

Definition is_datetime64_any_dtype (c : column) : bool :=
  bool_decide (col_dtype c = datetime64).

(** ** The audit record *)

Inductive value : Type := VInt (z : Z) | VStr (s : string).

Global Instance value_eq_dec : EqDecision value.
Proof. solve_decision. Defined.

Record audit : Type := Audit {
  rows_before : Z;
  rows_after : option Z;
  duplicates_removed : Z;
  columns : list string;
  column_changes : gmap string (gmap string value);
  issues : list string
}.

(** [audit["column_changes"][col][key] = v].  Every column has its entry
    from the start, so the entry updated is always there. *)
Definition set_change (col key : string) (v : value) (a : audit) : audit :=
  {| rows_before := rows_before a;
     rows_after := rows_after a;
     duplicates_removed := duplicates_removed a;
     columns := columns a;
     column_changes := alter (insert key v) col (column_changes a);
     issues := issues a |}.

Definition set_duplicates_removed (n : Z) (a : audit) : audit :=
  {| rows_before := rows_before a;
     rows_after := rows_after a;
     duplicates_removed := n;
     columns := columns a;
     column_changes := column_changes a;
     issues := issues a |}.

Definition set_rows_after (n : Z) (a : audit) : audit :=
  {| rows_before := rows_before a;
     rows_after := Some n;
     duplicates_removed := duplicates_removed a;
     columns := columns a;
     column_changes := column_changes a;
     issues := issues a |}.

(** The dictionary built at lines 9-16. *)
Definition new_audit (df : dataframe) : audit :=
  {| rows_before := Z.of_nat (len df);
     rows_after := None;
     duplicates_removed := 0;
     columns := map name df;
     column_changes := foldr (fun c m => <[name c := ∅]> m) ∅ df;
     issues := [] |}.

(** [for col in ...: body]: the body is run on each column in column
    order, on the audit as the columns before it left it. *)
Fixpoint for_columns (body : column -> audit -> column * audit)
    (df : dataframe) (a : audit) : dataframe * audit :=
  match df with
  | [] => ([], a)
  | c :: rest =>
      let '(c', a') := body c a in
      let '(rest', a'') := for_columns body rest a' in
      (c' :: rest', a'')
  end.

(** [l[mask]]: the elements of [l] at the positions where [mask] holds *)
Fixpoint select {A} (mask : list bool) (l : list A) : list A :=
  match mask, l with
  | b :: mask', x :: l' => if b then x :: select mask' l' else select mask' l'
  | _, _ => []
  end.

(** [frame.duplicated()], [keep="first"]: a row is marked when an equal row
    comes before it.  Nulls compare equal to nulls. *)
Fixpoint duplicated_from (seen rs : list (list cell)) : list bool :=
  match rs with
  | [] => []
  | r :: rs' => bool_decide (r ∈ seen) :: duplicated_from (r :: seen) rs'
  end.

Definition row (df : dataframe) (i : nat) : list cell :=
  map (fun c => default NA (values c !! i)) df.

Definition rows (df : dataframe) : list (list cell) :=
  map (row df) (seq 0 (len df)).

Definition duplicated (df : dataframe) : list bool :=
  duplicated_from [] (rows df).

(** The order in which [Series.mode] sorts its result: text by code
    points, numbers and timestamps by value.  (Pandas cannot sort cells of
    different kinds; here they are ranked null, text, number, timestamp.) *)
Definition number (x : cell) : option double :=
  match x with
  | Int z => Some (Finite (Q2Qc (inject_Z z)))
  | Float x => Some x
  | _ => None
  end.

(** The order of the doubles: minus infinity is below every double and
    plus infinity above. *)
Definition double_leb (x y : double) : bool :=
  match x, y with
  | Infinity true, _ | _, Infinity false => true
  | Finite p, Finite q => bool_decide (p <= q)%Qc
  | _, _ => false
  end.

Definition double_le (x y : double) : Prop := double_leb x y = true.

Global Instance double_le_dec x y : Decision (double_le x y).
Proof. unfold double_le. apply _. Defined.

Definition rank (x : cell) : nat :=
  match x with NA => 0 | Str _ => 1 | Int _ | Float _ => 2 | Ts _ => 3 end%nat.

Definition cell_leb (x y : cell) : bool :=
  match x, y with
  | Str s, Str t => String.leb s t
  | Ts s, Ts t => s <=? t
  | _, _ =>
      match number x, number y with
      | Some p, Some q => double_leb p q
      | _, _ => (rank x <=? rank y)%nat
      end
  end.

Definition cell_le (x y : cell) : Prop := cell_leb x y = true.

Global Instance cell_le_dec x y : Decision (cell_le x y).
Proof. unfold cell_le. apply _. Defined.

Definition occurrences (x : cell) (l : list cell) : nat :=
  length (filter (fun y => y = x) l).

(** [s.mode(dropna=True)]: the non-null values that occur most often, in
    ascending order; empty when every cell is null. *)
Definition mode (vals : list cell) : list cell :=
  let present := filter (fun x => notna x = true) vals in
  let top := max_list (map (fun x => occurrences x present) present) in
  merge_sort cell_le
    (remove_dups (filter (fun x => occurrences x present = top) present)).

(** A Python float, as [float(...)] returns it: a double, where [None]
    stands for NaN.  Written into a column, NaN is a null. *)
Definition float_cell (val : option double) : cell :=
  match val with
  | Some x => Float x
  | None => NA
  end.

(** [df.loc[df[col].isna(), col] = val] *)
Definition fillna (val : cell) (c : column) : column :=
  set_values c (map (fun x => if isna x then val else x) (values c)).

(** ** The pipeline *)

(** What pandas and Python compute out of sight of the source:
    - [to_datetime_value vals x] is what [pd.to_datetime(s, errors="coerce",
      utc=True)] makes of the text or number [x] of the series [vals] (the
      format may be inferred from the whole series): the instant, or
      nothing where [x] does not parse;
    - [round_double q] is the double that the exact result [q] of an
      addition or a division is rounded to: the nearest one, or an
      infinity when [q] is beyond the largest double;
    - [float_repr_other q] is [repr] of a finite float that is not an
      integer below 10^16;
    - [timestamp_str t] is [str] of a timestamp. *)
Class Pandas : Type := {
  to_datetime_value : list cell -> cell -> option Z;
  round_double : Qc -> double;
  float_repr_other : Qc -> string;
  timestamp_str : Z -> string
}.

Section Cleaner.

Context {pd : Pandas}.

(** The sum of two doubles: infinities absorb, and the sum of the two
    opposite infinities is NaN. *)
Definition double_add (x y : double) : option double :=
  match x, y with
  | Finite p, Finite q => Some (round_double (p + q)%Qc)
  | Infinity s, Infinity t => if bool_decide (s = t) then Some (Infinity s) else None
  | Infinity s, Finite _ | Finite _, Infinity s => Some (Infinity s)
  end.

(** A double divided by two. *)
Definition double_half (x : double) : double :=
  match x with
  | Finite p => round_double (p / Q2Qc (2 # 1))%Qc
  | Infinity s => Infinity s
  end.

(** [s.median()]: nulls are skipped; the middle value of the sorted
    numbers, or the mean of the two middle ones, computed in doubles as
    their sum divided by two; NaN when there is no number. *)
Definition median (vals : list cell) : option double :=
  let xs := merge_sort double_le (omap number vals) in
  let n := length xs in
  if Nat.even n
  then a ← xs !! (n / 2 - 1)%nat; b ← xs !! (n / 2)%nat;
       s ← double_add a b; Some (double_half s)
  else xs !! (n / 2)%nat.

(** [repr] of a float: an integral float below 10^16 prints as its
    integer followed by [.0], the infinities as [inf] and [-inf], and NaN
    as [nan]. *)
Definition float_repr (val : option double) : string :=
  match val with
  | Some (Finite q) =>
      if bool_decide (Qden (this q) = 1%positive)
         && (Z.abs (Qnum (this q)) <? 10 ^ 16)
      then pretty (Qnum (this q)) +:+ ".0"
      else float_repr_other q
  | Some (Infinity false) => "inf"
  | Some (Infinity true) => "-inf"
  | None => "nan"
  end.

(** [str(x)], as [astype(str)] and an f-string apply it.  [astype(str)]
    does not skip nulls: a [NaN] becomes the text [nan]. *)
Definition py_str (x : cell) : string :=
  match x with
  | NA => "nan"
  | Str s => s
  | Int z => pretty z
  | Float x => float_repr (Some x)
  | Ts t => timestamp_str t
  end.

Definition astype_str (x : cell) : cell := Str (py_str x).

(** The [.str] methods map text to text and anything else to a null. *)
Definition str_strip (x : cell) : cell :=
  match x with Str s => Str (PyStr.strip s) | _ => NA end.

Definition str_lower (x : cell) : cell :=
  match x with Str s => Str (PyStr.lower s) | _ => NA end.

(** *** 1) Trim whitespace for object columns (lines 19-27) *)

Definition empty_to_na (x : cell) : cell :=
  if bool_decide (x = Str "") then NA else x.

Definition trim_whitespace (c : column) (a : audit) : column * audit :=
  if is_object c then
    let before_nulls := count isna (values c) in
    let stripped := map (fun x => str_strip (astype_str x)) (values c) in
    let vals := map empty_to_na stripped in
    let after_nulls := count isna vals in
    let delta := after_nulls - before_nulls in
    let c' := set_values c vals in
    if bool_decide (delta <> 0)
    then (c', set_change (name c) "new_nulls_from_empty_strings" (VInt delta) a)
    else (c', a)
  else (c, a).

(** *** 2) Parse dates when the column name hints at them (lines 30-37) *)

(** [pd.to_datetime(s, errors="coerce", utc=True)]: nulls stay null,
    timestamps stay what they are, the rest is parsed or coerced to a
    null. *)
Definition to_datetime (vals : list cell) : list cell :=
  map (fun x =>
         match x with
         | NA => NA
         | Ts t => Ts t
         | _ => match to_datetime_value vals x with
                | Some t => Ts t
                | None => NA
                end
         end) vals.

Definition name_hints_datetime (col : string) : bool :=
  let cl := PyStr.lower col in
  PyStr.contains "date" cl || PyStr.contains "_at" cl || PyStr.contains "time" cl.

Definition parse_dates (c : column) (a : audit) : column * audit :=
  if name_hints_datetime (name c) then
    let parsed := to_datetime (values c) in
    let converted := count notna parsed in
    if 0 <? converted
    then ({| name := name c; col_dtype := datetime64; values := parsed |},
          set_change (name c) "parsed_to_datetime" (VInt converted) a)
    else (c, a)
  else (c, a).

(** *** 3) Normalize emails (lines 40-46) *)

Definition email_valid (x : cell) : bool :=
  if notna x then EMAIL_RE_match (py_str x) else false.

Definition normalize_emails (c : column) (a : audit) : column * audit :=
  if is_object c && PyStr.contains "email" (PyStr.lower (name c)) then
    let before_valid := count email_valid (values c) in
    let vals := map str_lower (values c) in
    let after_valid := count email_valid vals in
    (set_values c vals,
     set_change (name c) "emails_valid_after" (VInt after_valid)
       (set_change (name c) "emails_valid_before" (VInt before_valid) a))
  else (c, a).

(** *** 4) Remove duplicates (lines 49-57) *)

Definition normalized (df : dataframe) : dataframe :=
  map (fun c =>
         if is_object c
         then set_values c (map (fun x => str_strip (str_lower x)) (values c))
         else c) df.

Definition remove_duplicates (df : dataframe) (a : audit) : dataframe * audit :=
  let norm := normalized df in
  let before := Z.of_nat (len df) in
  let keep := map negb (duplicated norm) in
  let df' := map (fun c => set_values c (select keep (values c))) df in
  let removed := before - Z.of_nat (len df') in
  (df', if 0 <? removed then set_duplicates_removed removed a else a).

(** *** 5) Impute missing values by dtype (lines 60-83) *)

Definition impute (c : column) (a : audit) : column * audit :=
  let missing_count := count isna (values c) in
  if missing_count =? 0 then (c, a)
  else if is_numeric_dtype c then
    let val := if existsb notna (values c) then median (values c)
               else Some (Finite 0%Qc) in
    (fillna (float_cell val) c,
     set_change (name c) "imputation_strategy" (VStr ("median=" +:+ float_repr val))
       (set_change (name c) "imputed_missing" (VInt missing_count) a))
  else if is_datetime64_any_dtype c then
    let val := match mode (values c) with v :: _ => v | [] => NA end in
    (fillna val c,
     set_change (name c) "imputation_strategy" (VStr "mode (datetime)")
       (set_change (name c) "imputed_missing" (VInt missing_count) a))
  else
    let val := match mode (values c) with v :: _ => v | [] => Str "Unknown" end in
    (fillna val c,
     set_change (name c) "imputation_strategy"
       (VStr ("mode='" +:+ py_str val +:+ "'"))
       (set_change (name c) "imputed_missing" (VInt missing_count) a)).

(** *** clean_dataframe (lines 8-86) *)

Definition clean_dataframe (df : dataframe) : dataframe * audit :=
  let a := new_audit df in
  let '(df, a) := for_columns trim_whitespace df a in
  let '(df, a) := for_columns parse_dates df a in
  let '(df, a) := for_columns normalize_emails df a in
  let '(df, a) := remove_duplicates df a in
  let '(df, a) := for_columns impute df a in
  (df, set_rows_after (Z.of_nat (len df)) a).

End Cleaner.

(** ** A sample instance of the parameters, for running the model *)

Module Sample.

(** A parser that knows the texts of the examples. *)
Definition parse (_ : list cell) (x : cell) : option Z :=
  match x with
  | Str "2023-01-01" => Some 1672531200000000000
  | Str "2023-02-01" => Some 1675209600000000000
  | Str "2024-05-06" => Some 1714953600000000000
  | _ => None
  end.

(** The floats of the examples are small integers, whose sums and halves
    are doubles: nothing is rounded. *)
Definition pandas : Pandas :=
  {| to_datetime_value := parse;
     round_double := Finite;
     float_repr_other := fun _ => "?";
     timestamp_str := fun _ => "<timestamp>" |}.

Definition clean : dataframe -> dataframe * audit :=
  clean_dataframe (pd := pandas).

End Sample.

(** * The consumers of the audit *)

(** ** build_audit_summary (cleaner.py, lines 88-102)

    The summary is a dictionary with the six keys of the audit.  Every key
    is present in the audit that [clean_dataframe] returns, which is the
    only audit the repository passes in, so that the defaults of [.get] are
    never taken.  The entries of [column_changes] are copied key by key. *)
Definition build_audit_summary (a : audit) : audit :=
  {| rows_before := rows_before a;
     rows_after := rows_after a;
     duplicates_removed := duplicates_removed a;
     columns := columns a;
     column_changes :=
       map_fold
         (fun col info summary =>
            <[col := map_fold (fun k v pretty => <[k := v]> pretty) ∅ info]> summary)
         ∅ (column_changes a);
     issues := issues a |}.

(** ** The quality metrics of ai_story_generator.py (lines 345-429)

    Each of them computes inside a [try] whose handler returns a fixed
    default: a computation that raises is [None] here. *)

Module Story.

(** An integer as a float. *)
Definition of_int (z : Z) : Qc := Qc_of_Z z.

(** [a / b] on integers: a float, or [ZeroDivisionError]. *)
Definition true_div (a b : Z) : option Qc :=
  if bool_decide (b = 0) then None
  else Some (of_int a / of_int b)%Qc.

(** [min(a, b)] and [max(a, b)]: the first argument unless the second is
    strictly smaller (greater). *)
Definition py_min (a b : Qc) : Qc := if bool_decide (b < a)%Qc then b else a.
Definition py_max (a b : Qc) : Qc := if bool_decide (a < b)%Qc then b else a.

(** [int(x)] of a float: truncation towards zero. *)
Definition py_int (x : Qc) : Z := Z.quot (Qnum (this x)) (Z.pos (Qden (this x))).

(** [sum(f(x) for x in xs)] over integers: the sum, or the exception of the
    first [f(x)] that raises. *)
Definition sum_over {A} (f : A -> option Z) (xs : list A) : option Z :=
  foldr (fun x acc => n ← f x; s ← acc; Some (n + s)) (Some 0) xs.

(** [d.values()] *)
Definition dict_values {A} (d : gmap string A) : list A := (map_to_list d).*2.

(** [1 if (v and v > 0)]: an integer counts when it is positive, the empty
    text does not count, and comparing any other text with 0 raises
    [TypeError]. *)
Definition improvement (v : value) : option Z :=
  match v with
  | VInt z => Some (if 0 <? z then 1 else 0)
  | VStr s => if bool_decide (s = EmptyString) then Some 0 else None
  end.

(** [changes.get(key, 0)], to be added to an integer: adding text to an
    integer raises [TypeError]. *)
Definition get_count (key : string) (changes : gmap string value) : option Z :=
  match changes !! key with
  | None => Some 0
  | Some (VInt z) => Some z
  | Some (VStr _) => None
  end.

(** The body of the [try] of [_calculate_quality_score] (lines 348-374). *)
Definition quality_score_body (audit_data : audit) : option Z :=
  let rows_before := rows_before audit_data in
  rows_after ← rows_after audit_data;
  let duplicates_removed := duplicates_removed audit_data in
  let score := of_int 100 in
  let data_loss := rows_before - rows_after - duplicates_removed in
  score ← (if 0 <? data_loss
           then x ← true_div data_loss rows_before;
                Some (score - py_min (of_int 30) (x * of_int 100))%Qc
           else Some score);
  score ← (if 0 <? duplicates_removed
           then x ← true_div duplicates_removed rows_before;
                Some (score + py_min (of_int 10) (x * of_int 20))%Qc
           else Some score);
  total_improvements ←
    sum_over (fun changes => sum_over improvement (dict_values changes))
      (dict_values (column_changes audit_data));
  let score := if 0 <? total_improvements
               then (score + of_int (Z.min 15 (total_improvements * 3)))%Qc
               else score in
  Some (Z.max 0 (Z.min 100 (py_int score))).

Definition _calculate_quality_score (audit_data : audit) : Z :=
  default 75 (quality_score_body audit_data).

(** [_calculate_completeness] (lines 395-406) *)
Definition _calculate_completeness (audit_data : audit) : Qc :=
  default (of_int 85)
    (total_missing ←
       sum_over (get_count "imputed_missing")
         (dict_values (column_changes audit_data));
     x ← true_div total_missing (rows_before audit_data);
     Some (py_max (of_int 0) (of_int 100 - x * of_int 100))%Qc).

(** [_calculate_consistency] (lines 408-420) *)
Definition _calculate_consistency (audit_data : audit) : Qc :=
  default (of_int 90)
    (consistency_issues ←
       sum_over
         (fun changes =>
            a ← get_count "new_nulls_from_empty_strings" changes;
            b ← get_count "parsed_to_datetime" changes;
            Some (a + b))
         (dict_values (column_changes audit_data));
     x ← true_div consistency_issues (rows_before audit_data);
     Some (py_max (of_int 0) (of_int 100 - x * of_int 100))%Qc).

(** [_calculate_accuracy] (lines 422-429) *)
Definition _calculate_accuracy (audit_data : audit) : Qc :=
  default (of_int 95)
    (x ← true_div (duplicates_removed audit_data) (rows_before audit_data);
     Some (py_max (of_int 0) (of_int 100 - x * of_int 100))%Qc).

End Story.

(** * Views of the loop bodies, used by the proofs *)

Section Views.

Context {pd : Pandas}.

(** The keys a loop body writes for its column, in the order written. *)
Definition write (kvs : list (string * value)) (m : gmap string value)
    : gmap string value :=
  foldl (fun m kv => <[kv.1 := kv.2]> m) m kvs.

(** The audit once the keys [kvs] are written under the column [col]. *)
Definition log (col : string) (kvs : list (string * value)) (a : audit) : audit :=
  foldl (fun a kv => set_change col kv.1 kv.2 a) a kvs.

(** The audit after a loop over the columns whose body writes the keys
    [lg c] under the name of its column [c]. *)
Definition logs (lg : column -> list (string * value)) (df : dataframe)
    (a : audit) : audit :=
  foldl (fun a c => log (name c) (lg c) a) a df.

Definition trimmed (c : column) : list cell :=
  map empty_to_na (map (fun x => str_strip (astype_str x)) (values c)).

Definition trim_col (c : column) : column :=
  if is_object c then set_values c (trimmed c) else c.

Definition trim_log (c : column) : list (string * value) :=
  let delta := count isna (trimmed c) - count isna (values c) in
  if is_object c && bool_decide (delta <> 0)
  then [("new_nulls_from_empty_strings", VInt delta)]
  else [].

Definition converted (c : column) : Z := count notna (to_datetime (values c)).

Definition parses (c : column) : bool :=
  name_hints_datetime (name c) && (0 <? converted c).

Definition parse_col (c : column) : column :=
  if parses c
  then {| name := name c; col_dtype := datetime64;
          values := to_datetime (values c) |}
  else c.

Definition parse_log (c : column) : list (string * value) :=
  if parses c then [("parsed_to_datetime", VInt (converted c))] else [].

Definition is_email (c : column) : bool :=
  is_object c && PyStr.contains "email" (PyStr.lower (name c)).

Definition email_col (c : column) : column :=
  if is_email c then set_values c (map str_lower (values c)) else c.

Definition email_log (c : column) : list (string * value) :=
  if is_email c
  then [("emails_valid_before", VInt (count email_valid (values c)));
        ("emails_valid_after",
         VInt (count email_valid (map str_lower (values c))))]
  else [].

Definition impute_col (c : column) : column := (impute c (new_audit [])).1.

Definition imputed_with (c : column) : value :=
  if is_numeric_dtype c then
    VStr ("median=" +:+
          float_repr (if existsb notna (values c) then median (values c)
                      else Some (Finite 0%Qc)))
  else if is_datetime64_any_dtype c then VStr "mode (datetime)"
  else VStr ("mode='" +:+
             py_str (match mode (values c) with v :: _ => v | [] => Str "Unknown" end)
             +:+ "'").

Definition impute_log (c : column) : list (string * value) :=
  if count isna (values c) =? 0 then []
  else [("imputed_missing", VInt (count isna (values c)));
        ("imputation_strategy", imputed_with c)].

Definition dedup (df : dataframe) : dataframe :=
  map (fun c => set_values c (select (map negb (duplicated (normalized df))) (values c))) df.

Definition removed (df : dataframe) : Z :=
  Z.of_nat (len df) - Z.of_nat (len (dedup df)).

(** The pipeline, stage by stage. *)
Definition stage1 (df : dataframe) : dataframe := map trim_col df.
Definition stage2 (df : dataframe) : dataframe := map parse_col (stage1 df).
Definition stage3 (df : dataframe) : dataframe := map email_col (stage2 df).
Definition stage4 (df : dataframe) : dataframe := dedup (stage3 df).
Definition stage5 (df : dataframe) : dataframe := map impute_col (stage4 df).

(** A column of the third stage's frame, once the duplicate rows of that
    frame are removed. *)
Definition after_dedup (df : dataframe) (c : column) : column :=
  set_values c
    (select (map negb (duplicated (normalized (stage3 df)))) (values c)).

Definition audit3 (df : dataframe) : audit :=
  logs email_log (stage2 df)
    (logs parse_log (stage1 df) (logs trim_log df (new_audit df))).

Definition audit4 (df : dataframe) : audit :=
  if 0 <? removed (stage3 df)
  then set_duplicates_removed (removed (stage3 df)) (audit3 df)
  else audit3 df.

(** A regex all of whose character classes are closed under lower-casing
    still matches a string once the string is lower-cased. *)
Fixpoint lower_closed (r : Re.regex) : Prop :=
  match r with
  | Re.Never | Re.Empty => True
  | Re.Class p => forall c, p c = true -> p (PyStr.lower_char c) = true
  | Re.Seq r1 r2 | Re.Or r1 r2 => lower_closed r1 /\ lower_closed r2
  | Re.Star r1 => lower_closed r1
  end.

(** A cell that is text or a null, as every cell of an object column is
    once the first stage has run. *)
Definition text_cell (x : cell) : bool :=
  match x with NA | Str _ => true | _ => false end.

End Views.

(** * The deduplicator as the spec words it *)

(** Row [i] is the first occurrence of its key when no row before it has
    the same key. *)
Definition is_first_occurrence (keys : list (list cell)) (i : nat) : Prop :=
  match keys !! i with
  | Some k => k ∉ take i keys
  | None => False
  end.

Global Instance is_first_occurrence_dec keys i :
  Decision (is_first_occurrence keys i).
Proof. unfold is_first_occurrence. destruct (keys !! i); apply _. Defined.

(** The positions of the first occurrences, in row order. *)
Definition first_occurrences (keys : list (list cell)) : list nat :=
  filter (is_first_occurrence keys) (seq 0 (length keys)).

(** The cells of [vals] at the positions [idx], in the order of [idx]. *)
Definition take_rows (idx : list nat) (vals : list cell) : list cell :=
  map (fun i => default NA (vals !! i)) idx.

(** The positions of a mask that hold, counted from [k]. *)
Fixpoint positions_from (k : nat) (mask : list bool) : list nat :=
  match mask with
  | [] => []
  | b :: mask' =>
      if b then k :: positions_from (S k) mask' else positions_from (S k) mask'
  end.

(** * Invariants of the cleaned frame *)

(** A string that is empty or starts with a character that is no space. *)
Definition no_leading_space (s : string) : Prop :=
  match s with
  | EmptyString => True
  | String c _ => PyStr.is_space c = false
  end.

(** Text that is stripped and not empty, or a null. *)
Definition tidy (x : cell) : Prop :=
  match x with
  | NA => True
  | Str s => PyStr.strip s = s /\ s <> EmptyString
  | _ => False
  end.

(** A cell that [str.lower] leaves as it is. *)
Definition lowered (x : cell) : Prop := str_lower x = x.

(** * The shape of an audit entry *)

(** The keys a column's entry can hold, and the kind of value under each:
    the imputation strategy is text, the other five are integers. *)
Definition entry_schema (k : string) (v : value) : Prop :=
  match v with
  | VInt _ =>
      k = "new_nulls_from_empty_strings" \/ k = "parsed_to_datetime" \/
      k = "emails_valid_before" \/ k = "emails_valid_after" \/
      k = "imputed_missing"
  | VStr _ => k = "imputation_strategy"
  end.

(** What a count under each key can be, for a frame that had [before] rows
    on entry and [after] rows on exit. *)
Definition entry_bounds (before after : Z) (k : string) (v : value) : Prop :=
  match v with
  | VInt z =>
      (k = "new_nulls_from_empty_strings" -> z <> 0 /\ - before <= z <= before) /\
      (k = "parsed_to_datetime" -> 1 <= z <= before) /\
      (k = "emails_valid_before" -> 0 <= z <= before) /\
      (k = "emails_valid_after" -> 0 <= z <= before) /\
      (k = "imputed_missing" -> 1 <= z <= after)
  | VStr _ => True
  end.

(** The keys that come in pairs. *)
Definition entry_paired (m : gmap string value) : Prop :=
  (is_Some (m !! "imputed_missing") <-> is_Some (m !! "imputation_strategy")) /\
  (is_Some (m !! "emails_valid_before") <-> is_Some (m !! "emails_valid_after")).

(** * The email pattern in words *)

(** Every character of [s] is in the class [p]. *)
Fixpoint all_chars (p : ascii -> bool) (s : string) : bool :=
  match s with
  | EmptyString => true
  | String c s' => p c && all_chars p s'
  end.

(** [s] is a local part, an at sign, a domain, a dot and a final label of
    two or more letters, with at most one line feed after it. *)
Definition email_shaped (s : string) : Prop :=
  exists l d t e : string,
    s = l +:+ "@" +:+ d +:+ "." +:+ t +:+ e /\
    l <> EmptyString /\ all_chars local_char l = true /\
    d <> EmptyString /\ all_chars domain_char d = true /\
    (2 <= String.length t)%nat /\ all_chars letter t = true /\
    (e = EmptyString \/ e = String "010"%char EmptyString).

(** * Frames for concrete runs *)

Ltac by_compute := apply (bool_decide_unpack _); vm_compute; exact I.

Definition events : dataframe :=
  [ Column "created_at" object
      [Str "2023-01-01"; Str "not-a-date"; Str "2023-02-01"];
    Column "note" object [Str "2023-01-01"; Str "a"; Str "b"] ].

Definition Z2f (n : Z) : cell := Float (Finite (Q2Qc (inject_Z n))).




(** A header without rows, as [pd.DataFrame(columns=["id", "Email"])]
    builds it. *)
Definition header_only : dataframe :=
  [ Column "id" object []; Column "Email" object [] ].

(** The frame of the spec's deduplication example, with a third row. *)
Definition people : dataframe :=
  [ Column "name" object [Str "John"; Str "john"; Str "Ann"];
    Column "email" object [Str "a@x.com"; Str "a@x.com"; Str "b@y.org"] ].

(** The column of the spec's email example. *)
Definition contacts : dataframe :=
  [ Column "email" object [Str "A@B.COM"; Str "bad"; NA] ].

(** A column in which lower-casing changes values, none of them into or
    out of the pattern. *)
Definition mixed_case : dataframe :=
  [ Column "Email" object [Str " A@B.COM "; Str "Bad"; Str "x@y.org"; Str ""] ].

(** Two rows that differ only in a missing number. *)
Definition refilled : dataframe :=
  [ Column "item" object [Str "x"; Str "x"];
    Column "price" float64 [Z2f 1; NA] ].

(** A frame in which every stage finds something to do. *)
Definition orders : dataframe :=
  [ Column "name" object [Str "John"; Str " John "; NA; Str ""];
    Column "email" object [Str "A@X.COM"; Str "a@x.com"; Str "bad"; NA];
    Column "amount" float64 [Z2f 10; Z2f 10; Z2f 20; NA];
    Column "created_at" object
      [Str "2023-01-01"; Str "2023-01-01"; Str "not-a-date"; Str "2023-02-01"] ].

(** Reads the value under [k] of the entry of [col]. *)
Definition change (a : audit) (col k : string) : option value :=
  column_changes a !! col ≫= (fun m => m !! k).

(** A text column with a null and a value that occurs twice. *)
Definition cities : column :=
  {| name := "city"; col_dtype := object;
     values := [Str "Rome"; NA; Str "Paris"; Str "Paris"] |}.

(** Two rows that a filled-in number does not make equal. *)
Definition restocked : dataframe :=
  [ Column "item" object [Str "x"; Str "y"];
    Column "price" float64 [Z2f 1; NA] ].

(** An email column without a single address. *)
Definition blank_emails : dataframe :=
  [ Column "email" object [Str ""; Str " "] ].

(** * Properties *)

Section Properties.

Context {pd : Pandas}.

Lemma log_fields col kvs a :
rows_before (log col kvs a) = rows_before a /\
rows_after (log col kvs a) = rows_after a /\
duplicates_removed (log col kvs a) = duplicates_removed a /\
columns (log col kvs a) = columns a /\
issues (log col kvs a) = issues a.
Proof.
revert a. induction kvs as [|kv kvs IH]; intros a; simpl; [done|].
destruct (IH (set_change col kv.1 kv.2 a)) as (-> & -> & -> & -> & ->). done.
Qed.

Lemma log_column_changes col kvs a :
column_changes (log col kvs a) = alter (write kvs) col (column_changes a).
Proof.
revert a. induction kvs as [|kv kvs IH]; intros a; simpl.
- apply map_eq. intros k. rewrite lookup_alter.
  case_decide; [|done]. subst k.
  destruct (column_changes a !! col); reflexivity.
- rewrite IH. simpl. apply map_eq. intros k. rewrite !lookup_alter.
  case_decide; [|done]. subst k. rewrite decide_True by done.
  destruct (column_changes a !! col); reflexivity.
Qed.

Lemma for_columns_view body newcol lg :
(forall c a, body c a = (newcol c, log (name c) (lg c) a)) ->
forall df a, for_columns body df a = (map newcol df, logs lg df a).
Proof.
intros Hbody. induction df as [|c df IH]; intros a; simpl; [done|].
rewrite Hbody, IH. done.
Qed.

Lemma logs_fields lg df a :
rows_before (logs lg df a) = rows_before a /\
rows_after (logs lg df a) = rows_after a /\
duplicates_removed (logs lg df a) = duplicates_removed a /\
columns (logs lg df a) = columns a /\
issues (logs lg df a) = issues a.
Proof.
revert a. induction df as [|c df IH]; intros a; simpl; [done|].
destruct (IH (log (name c) (lg c) a)) as (-> & -> & -> & -> & ->).
apply log_fields.
Qed.

Lemma logs_other lg df a n :
n ∉ map name df ->
column_changes (logs lg df a) !! n = column_changes a !! n.
Proof.
revert a. induction df as [|c df IH]; intros a Hn; simpl; [done|].
simpl in Hn. apply not_elem_of_cons in Hn as [Hne Hn].
rewrite IH by done. rewrite log_column_changes.
by rewrite lookup_alter_ne.
Qed.

Lemma logs_own lg df a c :
NoDup (map name df) -> c ∈ df ->
column_changes (logs lg df a) !! name c
= write (lg c) <$> column_changes a !! name c.
Proof.
revert a. induction df as [|c0 df IH]; intros a Hnd Hc; simpl.
- by apply elem_of_nil in Hc.
- simpl in Hnd. apply list.NoDup_cons in Hnd as [Hfresh Hnd].
  apply elem_of_cons in Hc as [->|Hc].
  + rewrite logs_other by done. rewrite log_column_changes.
    by rewrite lookup_alter_eq.
  + rewrite IH by done. rewrite log_column_changes.
    rewrite lookup_alter_ne; [done|].
    intros Heq. apply Hfresh. rewrite Heq. by apply list_elem_of_fmap_2.
Qed.

Lemma new_audit_changes df c :
c ∈ df -> column_changes (new_audit df) !! name c = Some ∅.
Proof.
unfold new_audit. simpl. induction df as [|c0 df IH]; intros Hc.
- by apply elem_of_nil in Hc.
- simpl. apply elem_of_cons in Hc as [->|Hc].
  + by rewrite lookup_insert_eq.
  + destruct (decide (name c0 = name c)) as [->|Hne].
    * by rewrite lookup_insert_eq.
    * rewrite lookup_insert_ne by done. by apply IH.
Qed.

Lemma trim_whitespace_view c a :
  trim_whitespace c a = (trim_col c, log (name c) (trim_log c) a).
Proof.
  unfold trim_whitespace, trim_col, trim_log, trimmed.
  destruct (is_object c); [|done]. simpl.
  by case_bool_decide.
Qed.

Lemma parse_dates_view c a :
  parse_dates c a = (parse_col c, log (name c) (parse_log c) a).
Proof.
  unfold parse_dates, parse_col, parse_log, parses, converted.
  destruct (name_hints_datetime (name c)); [|done]. simpl.
  by destruct (0 <? _).
Qed.

Lemma normalize_emails_view c a :
  normalize_emails c a = (email_col c, log (name c) (email_log c) a).
Proof.
  unfold normalize_emails, email_col, email_log, is_email.
  by destruct (is_object c && _).
Qed.

Lemma impute_view c a :
  impute c a = (impute_col c, log (name c) (impute_log c) a).
Proof.
  unfold impute_col, impute, impute_log, imputed_with.
  destruct (count isna (values c) =? 0); [done|].
  destruct (is_numeric_dtype c); [done|].
  by destruct (is_datetime64_any_dtype c).
Qed.

Lemma remove_duplicates_view df a :
  remove_duplicates df a
  = (dedup df,
     if 0 <? removed df then set_duplicates_removed (removed df) a else a).
Proof. reflexivity. Qed.

Lemma clean_dataframe_view df :
  clean_dataframe df
  = (stage5 df,
     set_rows_after (Z.of_nat (len (stage5 df)))
       (logs impute_log (stage4 df) (audit4 df))).
Proof.
  unfold clean_dataframe.
  rewrite (for_columns_view _ _ _ trim_whitespace_view).
  rewrite (for_columns_view _ _ _ parse_dates_view).
  rewrite (for_columns_view _ _ _ normalize_emails_view).
  rewrite remove_duplicates_view.
  rewrite (for_columns_view _ _ _ impute_view).
  reflexivity.
Qed.

(** ** The temporal parser (stage 2) *)

Lemma to_datetime_cells vals x :
  x ∈ to_datetime vals -> x = NA \/ exists t, x = Ts t.
Proof.
  unfold to_datetime. intros Hx. apply list_elem_of_fmap in Hx as (y & -> & _).
  destruct y; eauto. all: destruct (to_datetime_value vals _); eauto.
Qed.

Lemma for_columns_lookup body newcol lg df a i :
  (forall c a, body c a = (newcol c, log (name c) (lg c) a)) ->
  (for_columns body df a).1 !! i = newcol <$> df !! i.
Proof.
  intros Hbody. rewrite (for_columns_view _ _ _ Hbody). simpl.
  apply list_lookup_fmap.
Qed.

Lemma for_columns_changes body newcol lg df a c :
  (forall c a, body c a = (newcol c, log (name c) (lg c) a)) ->
  NoDup (map name df) -> c ∈ df ->
  column_changes (for_columns body df a).2 !! name c
  = write (lg c) <$> column_changes a !! name c.
Proof.
  intros Hbody Hnd Hc. rewrite (for_columns_view _ _ _ Hbody). simpl.
  by apply logs_own.
Qed.

(** C7. The temporal parser replaces a column exactly when its lower-cased
    name contains "date", "_at" or "time" and at least one of its values
    parses: the column then holds the parsed timestamps, nulls where a value
    did not parse, and the number of parsed values is recorded under
    parsed_to_datetime.  Every other column, and its audit entry, is left as
    it was. *)
Theorem C7_temporal_parser (df : dataframe) (a : audit) (i : nat) (c : column) :
  NoDup (map name df) ->
  df !! i = Some c ->
  let df' := (for_columns parse_dates df a).1 in
  let a' := (for_columns parse_dates df a).2 in
  let parsed := to_datetime (values c) in
  let hint := PyStr.contains "date" (PyStr.lower (name c))
              || PyStr.contains "_at" (PyStr.lower (name c))
              || PyStr.contains "time" (PyStr.lower (name c)) in
  (forall x, x ∈ parsed -> x = NA \/ exists t, x = Ts t) /\
  if hint && (0 <? count notna parsed)
  then df' !! i = Some (Column (name c) datetime64 parsed) /\
       column_changes a' !! name c
       = insert "parsed_to_datetime" (VInt (count notna parsed))
           <$> column_changes a !! name c
  else df' !! i = Some c /\
       column_changes a' !! name c = column_changes a !! name c.
Proof.
  intros Hnd Hi. cbv zeta.
  split; [apply to_datetime_cells|].
  assert (Hc : c ∈ df) by (eapply list_elem_of_lookup_2; exact Hi).
  rewrite (for_columns_lookup _ _ _ _ _ _ parse_dates_view), Hi.
  change (parse_col <$> Some c) with (Some (parse_col c)).
  rewrite (for_columns_changes _ _ _ _ _ _ parse_dates_view Hnd Hc).
  unfold parse_col, parse_log, parses, converted, name_hints_datetime.
  cbv beta zeta.
  destruct (_ && _); simpl; split; try done.
  all: by destruct (column_changes a !! name c).
Qed.

(** ** Regular expressions: the matcher decides the language *)

Lemma append_empty (s : string) : EmptyString +:+ s = s.
Proof. reflexivity. Qed.

Lemma append_cons c (s1 s2 : string) :
  String c s1 +:+ s2 = String c (s1 +:+ s2).
Proof. reflexivity. Qed.

Lemma append_nil_inv (s1 s2 : string) :
  s1 +:+ s2 = EmptyString -> s1 = EmptyString /\ s2 = EmptyString.
Proof. destruct s1; simpl; [done|discriminate]. Qed.

Lemma lower_append (s1 s2 : string) :
  PyStr.lower (s1 +:+ s2) = PyStr.lower s1 +:+ PyStr.lower s2.
Proof. induction s1 as [|c s1 IH]; simpl; [done|]. by rewrite IH. Qed.

Lemma nullable_spec r : Re.nullable r = true <-> Re.Matches r EmptyString.
Proof.
  split.
  - induction r; simpl; intros Hn; try discriminate.
    + constructor.
    + apply andb_true_iff in Hn as [H1 H2].
      change EmptyString with (EmptyString +:+ EmptyString).
      constructor; auto.
    + apply orb_true_iff in Hn as [H|H]; [apply Re.MOrL|apply Re.MOrR]; auto.
    + constructor.
  - intros Hm. remember EmptyString as s eqn:Hs.
    induction Hm; simpl; try done.
    + apply append_nil_inv in Hs as [-> ->].
      rewrite IHHm1, IHHm2; done.
    + rewrite IHHm; done.
    + rewrite IHHm, orb_true_r; done.
Qed.

Lemma deriv_sound c r s : Re.Matches (Re.deriv c r) s -> Re.Matches r (String c s).
Proof.
  revert s. induction r; simpl; intros s Hm.
  - inversion Hm.
  - inversion Hm.
  - destruct (p c) eqn:Hp; inversion Hm; subst. by constructor.
  - destruct (Re.nullable r1) eqn:Hn.
    + inversion Hm as [| |? ? ? ? | ? ? ? Hl | ? ? ? Hr | |]; subst.
      * inversion Hl; subst.
        change (String c (s1 +:+ s2)) with (String c s1 +:+ s2).
        constructor; auto.
      * change (String c s) with (EmptyString +:+ String c s).
        constructor; [by apply nullable_spec | auto].
    + inversion Hm; subst.
      change (String c (s1 +:+ s2)) with (String c s1 +:+ s2).
      constructor; auto.
  - inversion Hm; subst; [apply Re.MOrL | apply Re.MOrR]; auto.
  - inversion Hm; subst.
    change (String c (s1 +:+ s2)) with (String c s1 +:+ s2).
    constructor; auto.
Qed.

Lemma deriv_complete c r s0 :
  Re.Matches r s0 -> forall s, s0 = String c s -> Re.Matches (Re.deriv c r) s.
Proof.
  induction 1 as [ | p d Hp | r1 r2 s1 s2 H1 IH1 H2 IH2 | r1 r2 s1 H1 IH1
                 | r1 r2 s2 H2 IH2 | r | r s1 s2 H1 IH1 H2 IH2 ];
    intros s Hs; simpl.
  - discriminate.
  - injection Hs as -> <-. rewrite Hp. constructor.
  - destruct s1 as [|d s1];
      [rewrite append_empty in Hs | rewrite append_cons in Hs].
    + subst s2. apply nullable_spec in H1. rewrite H1.
      apply Re.MOrR. by apply IH2.
    + injection Hs as -> <-.
      destruct (Re.nullable r1); [apply Re.MOrL|]; constructor; auto.
  - apply Re.MOrL. by apply IH1.
  - apply Re.MOrR. by apply IH2.
  - discriminate.
  - destruct s1 as [|d s1];
      [rewrite append_empty in Hs | rewrite append_cons in Hs].
    + by apply IH2.
    + injection Hs as -> <-. constructor; auto.
Qed.

Lemma fullmatch_spec r s : Re.fullmatch r s = true <-> Re.Matches r s.
Proof.
  revert r. induction s as [|c s IH]; intros r; simpl.
  - apply nullable_spec.
  - rewrite IH. split; [apply deriv_sound|].
    intros Hm. by eapply deriv_complete.
Qed.

Lemma Matches_lower r s :
  lower_closed r -> Re.Matches r s -> Re.Matches r (PyStr.lower s).
Proof.
  intros Hc Hm. induction Hm; simpl in *; try rewrite lower_append.
  - constructor.
  - constructor. auto.
  - destruct Hc. constructor; auto.
  - destruct Hc. apply Re.MOrL; auto.
  - destruct Hc. apply Re.MOrR; auto.
  - constructor.
  - constructor; auto.
Qed.

Ltac each_char c :=
  destruct c as [[] [] [] [] [] [] [] []]; vm_compute; auto.

Lemma EMAIL_RE_lower_closed : lower_closed EMAIL_RE.
Proof.
  unfold EMAIL_RE, Re.Plus, Re.AtLeast2, Dollar; simpl.
  repeat split; intros c; each_char c.
Qed.

Lemma EMAIL_RE_match_lower s :
  EMAIL_RE_match s = true -> EMAIL_RE_match (PyStr.lower s) = true.
Proof.
  unfold EMAIL_RE_match. rewrite !fullmatch_spec.
  apply Matches_lower, EMAIL_RE_lower_closed.
Qed.

(** ** The email normalizer (stage 3) *)

Lemma map_lookup {A B} (f : A -> B) (l : list A) (i : nat) :
  map f l !! i = f <$> l !! i.
Proof. apply list_lookup_fmap. Qed.

(** C8. The email normalizer rewrites every object column whose lower-cased
    name contains "email": each text value is lower-cased whether or not it
    matches the pattern, nulls stay null, and both emails_valid_before and
    emails_valid_after are written to the column's audit entry, whatever the
    two counts are. *)
Theorem C8_email_normalizer (df : dataframe) (a : audit) (i : nat) (c : column) :
  NoDup (map name df) ->
  df !! i = Some c ->
  col_dtype c = object ->
  PyStr.contains "email" (PyStr.lower (name c)) = true ->
  is_Some (column_changes a !! name c) ->
  let df' := (for_columns normalize_emails df a).1 in
  let a' := (for_columns normalize_emails df a).2 in
  exists c' m,
    df' !! i = Some c' /\ name c' = name c /\
    length (values c') = length (values c) /\
    (forall j s, values c !! j = Some (Str s) ->
                 values c' !! j = Some (Str (PyStr.lower s))) /\
    (forall j, values c !! j = Some NA -> values c' !! j = Some NA) /\
    column_changes a' !! name c = Some m /\
    m !! "emails_valid_before" = Some (VInt (count email_valid (values c))) /\
    m !! "emails_valid_after" = Some (VInt (count email_valid (values c'))).
Proof.
  intros Hnd Hi Hobj Hname [m0 Hm0]. cbv zeta.
  assert (Hc : c ∈ df) by (eapply list_elem_of_lookup_2; exact Hi).
  assert (He : is_email c = true).
  { unfold is_email, is_object. rewrite Hname, bool_decide_true; done. }
  exists (email_col c), (write (email_log c) m0).
  rewrite (for_columns_lookup _ _ _ _ _ _ normalize_emails_view), Hi.
  change (email_col <$> Some c) with (Some (email_col c)).
  rewrite (for_columns_changes _ _ _ _ _ _ normalize_emails_view Hnd Hc), Hm0.
  unfold email_col, email_log. rewrite He. simpl.
  split; [done|]. split; [done|]. split; [apply length_map|].
  split; [|split; [|split; [done|split]]].
  - intros j s Hj. by rewrite map_lookup, Hj.
  - intros j Hj. by rewrite map_lookup, Hj.
  - by rewrite lookup_insert_ne, lookup_insert_eq.
  - by rewrite lookup_insert_eq.
Qed.

Lemma count_cons p x vals :
  count p (x :: vals) = (if p x then 1 else 0) + count p vals.
Proof.
  unfold count. rewrite filter_cons. destruct (p x) eqn:Hp.
  - rewrite decide_True by done. simpl length. lia.
  - rewrite decide_False by (by intros ?). lia.
Qed.


Lemma email_valid_lower x :
  text_cell x = true ->
  email_valid x = true -> email_valid (str_lower x) = true.
Proof.
  destruct x; simpl; try done. intros _. unfold email_valid. simpl.
  apply EMAIL_RE_match_lower.
Qed.

Lemma emails_valid_monotone vals :
  forallb text_cell vals = true ->
  count email_valid vals <= count email_valid (map str_lower vals).
Proof.
  induction vals as [|x vals IH]; simpl; intros Ht; [done|].
  apply andb_true_iff in Ht as [Hx Ht]. specialize (IH Ht).
  rewrite !count_cons.
  destruct (email_valid x) eqn:Hv.
  - rewrite (email_valid_lower x Hx Hv). lia.
  - destruct (email_valid (str_lower x)); lia.
Qed.

(** ** The pipeline as a whole: what happens to one column *)

Lemma name_trim_col c : name (trim_col c) = name c.
Proof. unfold trim_col. by destruct (is_object c). Qed.

Lemma name_parse_col c : name (parse_col c) = name c.
Proof. unfold parse_col. by destruct (parses c). Qed.

Lemma name_email_col c : name (email_col c) = name c.
Proof. unfold email_col. by destruct (is_email c). Qed.

Lemma name_impute_col c : name (impute_col c) = name c.
Proof.
  unfold impute_col, impute.
  destruct (_ =? 0); [done|].
  destruct (is_numeric_dtype c); [done|].
  by destruct (is_datetime64_any_dtype c).
Qed.

Lemma names_map (f : column -> column) (df : dataframe) :
  (forall c, name (f c) = name c) -> map name (map f df) = map name df.
Proof. intros Hf. rewrite map_map. by apply map_ext. Qed.

Lemma names_stage1 df : map name (stage1 df) = map name df.
Proof. apply names_map, name_trim_col. Qed.

Lemma names_stage2 df : map name (stage2 df) = map name df.
Proof.
  unfold stage2. rewrite names_map by apply name_parse_col. apply names_stage1.
Qed.

Lemma names_stage3 df : map name (stage3 df) = map name df.
Proof.
  unfold stage3. rewrite names_map by apply name_email_col. apply names_stage2.
Qed.

Lemma names_dedup df : map name (dedup df) = map name df.
Proof. unfold dedup. by apply names_map. Qed.

Lemma names_stage4 df : map name (stage4 df) = map name df.
Proof. unfold stage4. rewrite names_dedup. apply names_stage3. Qed.

Lemma names_stage5 df : map name (stage5 df) = map name df.
Proof.
  unfold stage5. rewrite names_map by apply name_impute_col. apply names_stage4.
Qed.

(** The column at position [i], as each stage leaves it. *)
Lemma stage3_lookup df i c :
  df !! i = Some c ->
  stage3 df !! i = Some (email_col (parse_col (trim_col c))).
Proof.
  intros Hi. unfold stage3, stage2, stage1.
  by rewrite !map_lookup, Hi.
Qed.

Lemma stage4_lookup df i c :
  df !! i = Some c ->
  stage4 df !! i = Some (after_dedup df (email_col (parse_col (trim_col c)))).
Proof.
  intros Hi. unfold stage4, dedup.
  by rewrite map_lookup, (stage3_lookup _ _ _ Hi).
Qed.

Lemma stage5_lookup df i c :
  df !! i = Some c ->
  stage5 df !! i
  = Some (impute_col (after_dedup df (email_col (parse_col (trim_col c))))).
Proof.
  intros Hi. unfold stage5.
  by rewrite map_lookup, (stage4_lookup _ _ _ Hi).
Qed.

Lemma audit4_changes df : column_changes (audit4 df) = column_changes (audit3 df).
Proof. unfold audit4. by destruct (0 <? _). Qed.

Lemma clean_dataframe_column df i c :
  NoDup (map name df) ->
  df !! i = Some c ->
  let c1 := trim_col c in
  let c2 := parse_col c1 in
  let c4 := after_dedup df (email_col c2) in
  (clean_dataframe df).1 !! i = Some (impute_col c4) /\
  column_changes (clean_dataframe df).2 !! name c
  = Some (write (impute_log c4)
            (write (email_log c2) (write (parse_log c1) (write (trim_log c) ∅)))).
Proof.
  intros Hnd Hi c1 c2 c4. rewrite clean_dataframe_view. simpl.
  split; [by apply stage5_lookup|].
  assert (H0 : c ∈ df) by (eapply list_elem_of_lookup_2; exact Hi).
  assert (H1 : c1 ∈ stage1 df).
  { eapply list_elem_of_lookup_2. unfold stage1.
    rewrite map_lookup, Hi. reflexivity. }
  assert (H2 : c2 ∈ stage2 df).
  { eapply list_elem_of_lookup_2. unfold stage2, stage1.
    rewrite !map_lookup, Hi. reflexivity. }
  assert (H4 : c4 ∈ stage4 df).
  { eapply list_elem_of_lookup_2. by apply stage4_lookup. }
  assert (Hn4 : name c4 = name c).
  { unfold c4, after_dedup, c2, c1. simpl.
    by rewrite name_email_col, name_parse_col, name_trim_col. }
  assert (Hn2 : name c2 = name c).
  { unfold c2, c1. by rewrite name_parse_col, name_trim_col. }
  assert (Hn1 : name c1 = name c) by apply name_trim_col.
  rewrite <- Hn4 at 1.
  rewrite logs_own; [|by rewrite names_stage4|done].
  rewrite Hn4, audit4_changes. unfold audit3.
  rewrite <- Hn2 at 1.
  rewrite logs_own; [|by rewrite names_stage2|done].
  rewrite Hn2. rewrite <- Hn1 at 1.
  rewrite logs_own; [|by rewrite names_stage1|done].
  rewrite Hn1.
  rewrite logs_own by done.
  by rewrite new_audit_changes.
Qed.

Lemma clean_dataframe_no_column df n :
  n ∉ map name df -> column_changes (clean_dataframe df).2 !! n = None.
Proof.
  intros Hn. rewrite clean_dataframe_view. simpl.
  rewrite logs_other by (by rewrite names_stage4).
  rewrite audit4_changes. unfold audit3.
  rewrite logs_other by (by rewrite names_stage2).
  rewrite logs_other by (by rewrite names_stage1).
  rewrite logs_other by done.
  unfold new_audit. simpl.
  induction df as [|c df IH]; simpl; [done|].
  simpl in Hn. apply not_elem_of_cons in Hn as [Hne Hn].
  rewrite lookup_insert_ne by done. by apply IH.
Qed.

(** ** Which keys each stage writes *)

Lemma write_other kvs (m : gmap string value) k :
  k ∉ map fst kvs -> write kvs m !! k = m !! k.
Proof.
  revert m. induction kvs as [|kv kvs IH]; intros m Hk; simpl; [done|].
  simpl in Hk. apply not_elem_of_cons in Hk as [Hne Hk].
  rewrite IH by done. by rewrite lookup_insert_ne.
Qed.

Lemma trim_log_keys c k :
  k ∈ map fst (trim_log c) -> k = "new_nulls_from_empty_strings".
Proof.
  unfold trim_log. destruct (_ && _); simpl; [|by intros ?%elem_of_nil].
  by intros ->%list_elem_of_singleton.
Qed.

Lemma parse_log_keys c k :
  k ∈ map fst (parse_log c) -> k = "parsed_to_datetime".
Proof.
  unfold parse_log. destruct (parses c); simpl; [|by intros ?%elem_of_nil].
  by intros ->%list_elem_of_singleton.
Qed.

Lemma email_log_keys c k :
  k ∈ map fst (email_log c) ->
  k = "emails_valid_before" \/ k = "emails_valid_after".
Proof.
  unfold email_log. destruct (is_email c); simpl; [|by intros ?%elem_of_nil].
  intros [->| ->%list_elem_of_singleton]%elem_of_cons; auto.
Qed.

Lemma impute_log_keys c k :
  k ∈ map fst (impute_log c) ->
  k = "imputed_missing" \/ k = "imputation_strategy".
Proof.
  unfold impute_log. destruct (_ =? 0); simpl; [by intros ?%elem_of_nil|].
  intros [->| ->%list_elem_of_singleton]%elem_of_cons; auto.
Qed.

(** ** Object columns hold text and nulls from the first stage on *)

Lemma trimmed_text c : forallb text_cell (trimmed c) = true.
Proof.
  unfold trimmed. rewrite map_map. apply forallb_forall.
  intros y Hy. apply in_map_iff in Hy as (x & <- & _).
  unfold empty_to_na, str_strip, astype_str. by case_bool_decide.
Qed.

Lemma is_object_trim_col c : is_object (trim_col c) = is_object c.
Proof. unfold trim_col. by destruct (is_object c) eqn:E. Qed.

Lemma object_after_parse c :
  is_object (parse_col c) = true -> parse_col c = c.
Proof. unfold parse_col. by destruct (parses c). Qed.

Lemma object_text_stage2 c :
  is_object (parse_col (trim_col c)) = true ->
  parse_col (trim_col c) = set_values c (trimmed c) /\ is_object c = true.
Proof.
  intros Hobj. pose proof (object_after_parse _ Hobj) as Heq.
  rewrite Heq in Hobj |- *.
  rewrite is_object_trim_col in Hobj. unfold trim_col. by rewrite Hobj.
Qed.

(** C10. In the audit that clean_dataframe returns, whenever a column's entry
    holds emails_valid_before and emails_valid_after, the count after is at
    least the count before: a value that matches the pattern still matches
    once lower-cased. *)
Theorem C10_emails_valid_monotone (df : dataframe) (col : string)
    (m : gmap string value) (before after : Z) :
  NoDup (map name df) ->
  column_changes (clean_dataframe df).2 !! col = Some m ->
  m !! "emails_valid_before" = Some (VInt before) ->
  m !! "emails_valid_after" = Some (VInt after) ->
  before <= after.
Proof.
  intros Hnd Hm Hb Ha.
  destruct (decide (col ∈ map name df)) as [Hin|Hout];
    [|by rewrite clean_dataframe_no_column in Hm].
  apply list_elem_of_fmap in Hin as (c & -> & Hc).
  apply list_elem_of_lookup_1 in Hc as [i Hi].
  destruct (clean_dataframe_column df i c Hnd Hi) as [_ Hcc].
  rewrite Hcc in Hm. injection Hm as <-.
  rewrite write_other in Hb, Ha
    by (intros [?|?]%impute_log_keys; discriminate).
  unfold email_log in Hb, Ha.
  destruct (is_email (parse_col (trim_col c))) eqn:He.
  - simpl in Hb, Ha.
    rewrite lookup_insert_ne, lookup_insert_eq in Hb by done.
    rewrite lookup_insert_eq in Ha.
    injection Hb as <-. injection Ha as <-.
    apply emails_valid_monotone.
    apply andb_true_iff in He as [Hobj _].
    destruct (object_text_stage2 c Hobj) as [-> _]. simpl.
    apply trimmed_text.
  - simpl in Hb.
    rewrite write_other in Hb by (intros ?%parse_log_keys; discriminate).
    rewrite write_other in Hb by (intros ?%trim_log_keys; discriminate).
    by rewrite lookup_empty in Hb.
Qed.

(** ** The imputer (stage 5) *)

Lemma set_values_same c : set_values c (values c) = c.
Proof. by destruct c. Qed.

Lemma map_fixed {A} (f : A -> A) (l : list A) :
  (forall x, x ∈ l -> f x = x) -> map f l = l.
Proof.
  induction l as [|x l IH]; intros Hf; simpl; [done|].
  rewrite Hf by apply list_elem_of_here.
  rewrite IH; [done|]. intros y Hy. by apply Hf, list_elem_of_further.
Qed.



Lemma fillna_nan (c : column) : fillna NA c = c.
Proof.
  unfold fillna. rewrite (map_fixed _ (values c)).
  - apply set_values_same.
  - intros x _. by destruct x.
Qed.


(** ** Row counts *)

Lemma len_map (f : column -> column) (df : dataframe) :
  (forall c, length (values (f c)) = length (values c)) ->
  len (map f df) = len df.
Proof. intros Hf. destruct df as [|c df]; simpl; [done|apply Hf]. Qed.

Lemma length_trim_col c : length (values (trim_col c)) = length (values c).
Proof.
  unfold trim_col, trimmed. destruct (is_object c); [|done].
  simpl. by rewrite !length_map.
Qed.

Lemma length_parse_col c : length (values (parse_col c)) = length (values c).
Proof.
  unfold parse_col, to_datetime. destruct (parses c); [|done].
  simpl. by rewrite length_map.
Qed.

Lemma length_email_col c : length (values (email_col c)) = length (values c).
Proof.
  unfold email_col. destruct (is_email c); [|done].
  simpl. by rewrite length_map.
Qed.

Lemma length_impute_col c : length (values (impute_col c)) = length (values c).
Proof.
  unfold impute_col, impute, fillna.
  destruct (_ =? 0); [done|].
  destruct (is_numeric_dtype c); [simpl; by rewrite length_map|].
  destruct (is_datetime64_any_dtype c); simpl; by rewrite length_map.
Qed.

Lemma length_select {A} (mask : list bool) (l : list A) :
  (length (select mask l) <= length l)%nat.
Proof.
  revert l. induction mask as [|b mask IH]; intros [|x l]; simpl; try lia.
  specialize (IH l). destruct b; simpl; lia.
Qed.

Lemma len_dedup df : (len (dedup df) <= len df)%nat.
Proof. destruct df as [|c df]; simpl; [done|apply length_select]. Qed.

Lemma len_stage3 df : len (stage3 df) = len df.
Proof.
  unfold stage3, stage2, stage1.
  rewrite len_map by apply length_email_col.
  rewrite len_map by apply length_parse_col.
  apply len_map, length_trim_col.
Qed.

Lemma clean_dataframe_rows (df : dataframe) :
  rows_after (clean_dataframe df).2
  = Some (rows_before (clean_dataframe df).2
          - duplicates_removed (clean_dataframe df).2).
Proof.
  rewrite clean_dataframe_view. simpl.
  destruct (logs_fields impute_log (stage4 df) (audit4 df))
    as (-> & _ & -> & _).
  assert (H5 : len (stage5 df) = len (stage4 df))
    by apply len_map, length_impute_col.
  rewrite H5. unfold audit4, removed, stage4.
  pose proof (len_dedup (stage3 df)) as Hle.
  pose proof (len_stage3 df) as H3.
  assert (Ha3 : rows_before (audit3 df) = Z.of_nat (len df)
                /\ duplicates_removed (audit3 df) = 0).
  { unfold audit3.
    destruct (logs_fields email_log (stage2 df)
                (logs parse_log (stage1 df) (logs trim_log df (new_audit df))))
      as (-> & _ & -> & _).
    destruct (logs_fields parse_log (stage1 df) (logs trim_log df (new_audit df)))
      as (-> & _ & -> & _).
    destruct (logs_fields trim_log df (new_audit df)) as (-> & _ & -> & _).
    done. }
  destruct Ha3 as [Hrb Hdr].
  destruct (0 <? _) eqn:Hpos; simpl; rewrite Hrb; f_equal; lia.
Qed.

(** C2. The audit that clean_dataframe returns satisfies rows_after ==
    rows_before - duplicates_removed, and each of the four column loops
    (trimming, date parsing, email normalisation, imputation) returns a
    frame with as many rows as it was given: only the removal of duplicates
    changes the row count. *)
Theorem C2_row_count_invariant (df : dataframe) :
  rows_after (clean_dataframe df).2
  = Some (rows_before (clean_dataframe df).2
          - duplicates_removed (clean_dataframe df).2) /\
  (forall (d : dataframe) (a : audit),
      len (for_columns trim_whitespace d a).1 = len d /\
      len (for_columns parse_dates d a).1 = len d /\
      len (for_columns normalize_emails d a).1 = len d /\
      len (for_columns impute d a).1 = len d).
Proof.
  split; [apply clean_dataframe_rows|].
  intros d a.
  rewrite (for_columns_view _ _ _ trim_whitespace_view).
  rewrite (for_columns_view _ _ _ parse_dates_view).
  rewrite (for_columns_view _ _ _ normalize_emails_view).
  rewrite (for_columns_view _ _ _ impute_view). simpl.
  repeat split.
  - apply len_map, length_trim_col.
  - apply len_map, length_parse_col.
  - apply len_map, length_email_col.
  - apply len_map, length_impute_col.
Qed.

(** ** Nulls after imputation *)

Lemma max_list_elem_of (l : list nat) : l <> [] -> max_list l ∈ l.
Proof.
  induction l as [|x l IH]; [done|]. intros _. simpl.
  destruct l as [|y l].
  - simpl. rewrite Nat.max_0_r. apply list_elem_of_here.
  - destruct (Nat.max_spec x (max_list (y :: l))) as [[_ ->]|[_ ->]].
    + apply list_elem_of_further, IH. done.
    + apply list_elem_of_here.
Qed.

Lemma mode_notna vals v : v ∈ mode vals -> v <> NA.
Proof.
  unfold mode. rewrite merge_sort_Permutation, elem_of_remove_dups.
  intros [_ [Hv _]%list_elem_of_filter]%list_elem_of_filter.
  by destruct v.
Qed.

Lemma mode_nil vals : mode vals = [] -> forall x, x ∈ vals -> x = NA.
Proof.
  unfold mode. intros Hnil x Hx.
  destruct (isna x) eqn:Hna; [by destruct x|].
  set (present := filter (fun y => notna y = true) vals) in *.
  assert (Hp : x ∈ present).
  { apply list_elem_of_filter. unfold notna. by rewrite Hna. }
  set (occ := fun y => occurrences y present) in *.
  assert (Hmax : max_list (map occ present) ∈ map occ present).
  { apply max_list_elem_of. destruct present; [by apply elem_of_nil in Hp|done]. }
  apply list_elem_of_fmap in Hmax as (y & Hy & Hyp).
  assert (Hin : y ∈ merge_sort cell_le
                  (remove_dups
                     (filter (fun z => occ z = max_list (map occ present)) present))).
  { rewrite merge_sort_Permutation, elem_of_remove_dups.
    apply list_elem_of_filter. split; [by symmetry|done]. }
  subst occ. cbv beta in Hin. rewrite Hnil in Hin. by apply elem_of_nil in Hin.
Qed.

Lemma count_zero p vals :
  count p vals = 0 -> forall x, x ∈ vals -> p x = false.
Proof.
  unfold count. intros Hz x Hx.
  destruct (p x) eqn:Hp; [|done].
  assert (Hm : x ∈ filter (fun y => p y = true) vals)
    by (by apply list_elem_of_filter).
  destruct (filter _ vals); [by apply elem_of_nil in Hm|simpl in Hz; lia].
Qed.

Lemma fillna_notna val c :
  val <> NA -> forall x, x ∈ values (fillna val c) -> x <> NA.
Proof.
  intros Hval x Hx. unfold fillna in Hx. simpl in Hx.
  apply list_elem_of_fmap in Hx as (y & -> & _). by destruct y.
Qed.

Lemma impute_col_nulls c :
  (forall x, x ∈ values (impute_col c) -> x <> NA) \/
  (col_dtype c = datetime64 /\ impute_col c = c /\
   forall x, x ∈ values c -> x = NA) \/
  (is_numeric_dtype c = true /\ impute_col c = c /\
   existsb notna (values c) = true /\ median (values c) = None).
Proof.
  unfold impute_col, impute.
  destruct (count isna (values c) =? 0) eqn:Hz.
  { left. simpl. intros x Hx ->.
    apply Z.eqb_eq in Hz. by pose proof (count_zero _ _ Hz _ Hx). }
  destruct (is_numeric_dtype c).
  { destruct (existsb notna (values c)) eqn:Hex.
    - destruct (median (values c)) as [x|] eqn:Hmed.
      + left. simpl. by apply fillna_notna.
      + right. right. simpl. by rewrite fillna_nan.
    - left. simpl. by apply fillna_notna. }
  destruct (is_datetime64_any_dtype c) eqn:Hdt.
  - destruct (mode (values c)) as [|v rest] eqn:Hmode.
    + right. left. simpl. split; [by apply bool_decide_eq_true in Hdt|].
      pose proof (mode_nil _ Hmode) as Hall. split; [|done].
      unfold fillna, set_values. destruct c as [n d vs]. simpl in *.
      f_equal. rewrite <- (map_id vs) at 2. apply map_ext_in.
      intros x Hx. apply list_elem_of_In in Hx.
      by rewrite (Hall x Hx).
    + left. simpl. apply fillna_notna. apply (mode_notna (values c)).
      rewrite Hmode. apply list_elem_of_here.
  - left. simpl. apply fillna_notna.
    destruct (mode (values c)) as [|v rest] eqn:Hmode; [done|].
    apply (mode_notna (values c)). rewrite Hmode. apply list_elem_of_here.
Qed.


(** ** The text normalizer (stage 1) *)

(** What the first stage does to a text value: it is stripped, and becomes
    a null when nothing is left. *)
Lemma trim_whitespace_text (c : column) (a : audit) (i : nat) (s : string) :
  col_dtype c = object ->
  values c !! i = Some (Str s) ->
  values (trim_whitespace c a).1 !! i
  = Some (if bool_decide (PyStr.strip s = "") then NA else Str (PyStr.strip s)).
Proof.
  intros Hobj Hi. rewrite trim_whitespace_view. simpl.
  unfold trim_col, is_object. rewrite bool_decide_true by done.
  unfold trimmed. simpl. rewrite !map_lookup, Hi. simpl.
  unfold empty_to_na. f_equal.
  case_bool_decide as H1; case_bool_decide as H2; try done.
  - injection H1 as H1. done.
  - rewrite H2 in H1. done.
Qed.

(** The change in the null count is written only when it is not zero. *)
Lemma trim_whitespace_delta (c : column) (a : audit) :
  col_dtype c = object ->
  let delta := count isna (values (trim_whitespace c a).1) - count isna (values c) in
  (trim_whitespace c a).2
  = if bool_decide (delta <> 0)
    then set_change (name c) "new_nulls_from_empty_strings" (VInt delta) a
    else a.
Proof.
  intros Hobj. rewrite trim_whitespace_view. simpl.
  unfold trim_col, trim_log, is_object.
  rewrite bool_decide_true by done. simpl.
  by case_bool_decide.
Qed.

(** C3 (the code at the failing input). Given an object column holding the
    text " a " and a null, the first stage strips the text but turns the
    null into the text "nan", and records a null-count change of -1 under
    new_nulls_from_empty_strings. *)
Theorem C3_null_becomes_text :
  let c := Column "name" object [Str " a "; NA] in
  (trim_whitespace c (new_audit [c])).1
  = Column "name" object [Str "a"; Str "nan"] /\
  column_changes (trim_whitespace c (new_audit [c])).2 !! "name"
  = Some {[ "new_nulls_from_empty_strings" := VInt (-1) ]}.
Proof. split; reflexivity. Qed.

(** ** A frame without rows *)

Lemma select_nil {A} (mask : list bool) : select mask (@nil A) = [].
Proof. by destruct mask as [|[] mask]. Qed.

Lemma is_email_unchanged c c' :
  name c' = name c -> col_dtype c' = col_dtype c -> is_email c' = is_email c.
Proof. unfold is_email, is_object. by intros -> ->. Qed.

(** C4 (amended). For a frame without rows, clean_dataframe returns an audit
    with rows_before == 0, rows_after == 0 and duplicates_removed == 0, and
    the entry of every column is empty, except that an object column whose
    lower-cased name contains "email" has emails_valid_before == 0 and
    emails_valid_after == 0 and nothing else. *)
Theorem C4_zero_rows (df : dataframe) :
  NoDup (map name df) ->
  (forall c, c ∈ df -> values c = []) ->
  let a := (clean_dataframe df).2 in
  rows_before a = 0 /\ rows_after a = Some 0 /\ duplicates_removed a = 0 /\
  forall c, c ∈ df ->
    column_changes a !! name c
    = Some (if is_object c && PyStr.contains "email" (PyStr.lower (name c))
            then <["emails_valid_after" := VInt 0]>
                   (<["emails_valid_before" := VInt 0]> ∅)
            else ∅).
Proof.
  intros Hnd Hempty a.
  assert (Hlen : len df = 0%nat).
  { destruct df as [|c df]; [done|]. simpl.
    rewrite (Hempty c) by apply list_elem_of_here. done. }
  pose proof (clean_dataframe_rows df) as Hrows. fold a in Hrows.
  assert (Hrb : rows_before a = 0).
  { unfold a. rewrite clean_dataframe_view. simpl.
    destruct (logs_fields impute_log (stage4 df) (audit4 df)) as (-> & _).
    assert (H3 : rows_before (audit3 df) = Z.of_nat (len df)).
    { unfold audit3.
      destruct (logs_fields email_log (stage2 df)
                  (logs parse_log (stage1 df) (logs trim_log df (new_audit df))))
        as (-> & _).
      destruct (logs_fields parse_log (stage1 df) (logs trim_log df (new_audit df)))
        as (-> & _).
      destruct (logs_fields trim_log df (new_audit df)) as (-> & _). done. }
    unfold audit4. destruct (0 <? _); simpl; rewrite H3; lia. }
  assert (Hra : rows_after a = Some 0).
  { unfold a. rewrite clean_dataframe_view. simpl. f_equal.
    assert (H5 : len (stage5 df) = len (stage4 df))
      by apply len_map, length_impute_col.
    pose proof (len_dedup (stage3 df)) as Hle.
    rewrite len_stage3 in Hle. unfold stage4 in H5. lia. }
  split; [exact Hrb|]. split; [exact Hra|]. split.
  { rewrite Hra, Hrb in Hrows. injection Hrows. lia. }
  intros c Hc. subst a.
  apply list_elem_of_lookup_1 in Hc as Hi. destruct Hi as [i Hi].
  destruct (clean_dataframe_column df i c Hnd Hi) as [_ ->]. f_equal.
  pose proof (Hempty c Hc) as Hvals.
  assert (H1 : trim_col c = c).
  { unfold trim_col, trimmed. rewrite Hvals.
    destruct (is_object c); [|done]. destruct c; simpl in *. by subst. }
  assert (Hl1 : trim_log c = []).
  { unfold trim_log, trimmed. rewrite Hvals. simpl.
    by rewrite andb_false_r. }
  rewrite H1, Hl1.
  assert (Hp : parses c = false).
  { unfold parses, converted. rewrite Hvals. simpl. by rewrite andb_false_r. }
  assert (H2 : parse_col c = c) by (unfold parse_col; by rewrite Hp).
  assert (Hl2 : parse_log c = []) by (unfold parse_log; by rewrite Hp).
  rewrite H2, Hl2.
  assert (Hl5 : impute_log (after_dedup df (email_col c)) = []).
  { unfold impute_log, after_dedup. simpl.
    assert (He : values (email_col c) = []).
    { unfold email_col. destruct (is_email c); [|done]. simpl. by rewrite Hvals. }
    rewrite He, select_nil. done. }
  rewrite Hl5. simpl.
  unfold email_log, is_email. rewrite Hvals.
  by destruct (is_object c && _).
Qed.

(** ** The deduplicator (stage 4) *)

Lemma duplicated_from_length seen rs :
  length (duplicated_from seen rs) = length rs.
Proof.
  revert seen. induction rs as [|r rs IH]; intros seen; simpl; [done|].
  by rewrite IH.
Qed.

Lemma duplicated_from_lookup seen rs i :
  duplicated_from seen rs !! i
  = (fun r => bool_decide (r ∈ seen \/ r ∈ take i rs)) <$> rs !! i.
Proof.
  revert seen i. induction rs as [|r rs IH]; intros seen [|i]; simpl; try done.
  - f_equal. apply bool_decide_ext. rewrite elem_of_nil. tauto.
  - rewrite IH. destruct (rs !! i) as [x|]; simpl; [|done].
    f_equal. apply bool_decide_ext. rewrite !elem_of_cons. tauto.
Qed.

Lemma select_positions (mask : list bool) (pre l : list cell) :
  length mask = length l ->
  select mask l
  = map (fun i => default NA ((pre ++ l)%list !! i)) (positions_from (length pre) mask).
Proof.
  revert pre l. induction mask as [|b mask IH]; intros pre [|x l] Hlen;
    simpl in *; try done.
  injection Hlen as Hlen.
  assert (Hshift : (pre ++ x :: l = (pre ++ [x]) ++ l)%list) by by rewrite <- app_assoc.
  assert (Hl : S (length pre) = length (pre ++ [x])%list)
    by (rewrite length_app; simpl; lia).
  destruct b; simpl.
  - rewrite list_lookup_middle by done. simpl. f_equal.
    rewrite Hshift, Hl. by apply IH.
  - rewrite Hshift, Hl. by apply IH.
Qed.

Lemma filter_iff_on {A} (P Q : A -> Prop)
    `{!forall x, Decision (P x)} `{!forall x, Decision (Q x)} (l : list A) :
  (forall x, x ∈ l -> P x <-> Q x) -> filter P l = filter Q l.
Proof.
  induction l as [|x l IH]; intros Hpq; [done|].
  rewrite !filter_cons.
  rewrite IH by (intros y Hy; apply Hpq; by apply list_elem_of_further).
  destruct (Hpq x (list_elem_of_here x l)) as [H1 H2].
  destruct (decide (P x)), (decide (Q x)); tauto || done.
Qed.

Lemma positions_from_filter k (mask : list bool) :
  positions_from k mask
  = filter (fun i => mask !! (i - k)%nat = Some true) (seq k (length mask)).
Proof.
  revert k. induction mask as [|b mask IH]; intros k; simpl; [done|].
  rewrite filter_cons. rewrite Nat.sub_diag. simpl.
  assert (Hrest : filter (fun i => (b :: mask) !! (i - k)%nat = Some true)
                    (seq (S k) (length mask))
                  = filter (fun i => mask !! (i - S k)%nat = Some true)
                      (seq (S k) (length mask))).
  { apply filter_iff_on. intros i Hi.
    apply elem_of_seq in Hi.
    replace (i - k)%nat with (S (i - S k)) by lia. done. }
  rewrite Hrest, <- IH.
  destruct b.
  - by rewrite decide_True.
  - by rewrite decide_False.
Qed.

Lemma kept_positions (keys : list (list cell)) :
  positions_from 0 (map negb (duplicated_from [] keys)) = first_occurrences keys.
Proof.
  rewrite positions_from_filter. unfold first_occurrences.
  rewrite length_map, duplicated_from_length.
  apply list_filter_iff. intros i. rewrite Nat.sub_0_r.
  rewrite map_lookup, duplicated_from_lookup. unfold is_first_occurrence.
  destruct (keys !! i) as [k|]; simpl; [|done].
  split.
  - intros [= Hb]. apply negb_true_iff, bool_decide_eq_false in Hb. tauto.
  - intros Hk. f_equal. apply negb_true_iff, bool_decide_eq_false.
    intros [[]%elem_of_nil|Hin]. done.
Qed.

Lemma positions_from_ge k mask i : i ∈ positions_from k mask -> (k <= i)%nat.
Proof.
  revert k. induction mask as [|b mask IH]; intros k; simpl.
  - by intros ?%elem_of_nil.
  - destruct b.
    + intros [->|Hi%IH]%elem_of_cons; lia.
    + intros Hi%IH. lia.
Qed.

Lemma positions_from_sorted k mask : StronglySorted lt (positions_from k mask).
Proof.
  revert k. induction mask as [|b mask IH]; intros k; simpl; [constructor|].
  destruct b; [|apply IH].
  constructor; [apply IH|].
  apply list.Forall_forall. intros i Hi%positions_from_ge. lia.
Qed.

Lemma len_normalized df : len (normalized df) = len df.
Proof.
  unfold normalized. apply len_map. intros c.
  destruct (is_object c); [|done]. simpl. by rewrite length_map.
Qed.

Lemma length_rows df : length (rows df) = len df.
Proof. unfold rows. by rewrite length_map, length_seq. Qed.

Lemma rows_lookup df i :
  (i < len df)%nat -> rows df !! i = Some (row df i).
Proof.
  intros Hi. unfold rows. rewrite map_lookup, lookup_seq_lt by done. done.
Qed.

Lemma row_normalized df i :
  row (normalized df) i
  = map (fun c => let x := default NA (values c !! i) in
                  if is_object c then str_strip (str_lower x) else x) df.
Proof.
  unfold row, normalized. rewrite map_map. apply map_ext. intros c. simpl.
  destruct (is_object c); [|done]. simpl.
  rewrite map_lookup. by destruct (values c !! i).
Qed.

Lemma is_first_occurrence_spec keys i :
  is_first_occurrence keys i
  <-> (i < length keys)%nat /\ forall j, (j < i)%nat -> keys !! j <> keys !! i.
Proof.
  unfold is_first_occurrence. destruct (keys !! i) as [k|] eqn:Hi.
  - rewrite elem_of_take. split.
    + intros Hfirst. split; [by eapply lookup_lt_Some|].
      intros j Hj Heq. apply Hfirst. by exists j.
    + intros [_ Hfirst] (j & Hj & Hlt). by apply (Hfirst j).
  - split; [done|]. intros [Hlt _]. apply lookup_ge_None in Hi. lia.
Qed.

(** C6. The deduplicator keeps, of every column, the cells of the rows that
    are the first occurrence of their comparison key, in row order: the rows
    kept are those no earlier row of which has an equal key, their positions
    are increasing, and the key of a row takes the cells of object columns
    lower-cased and stripped and every other cell as it is, a null being
    equal to a null. *)
Theorem C6_deduplicator (df : dataframe) (a : audit) :
  Forall (fun c => length (values c) = len df) df ->
  let keys := rows (normalized df) in
  let kept := first_occurrences keys in
  (remove_duplicates df a).1
  = map (fun c => set_values c (take_rows kept (values c))) df /\
  StronglySorted lt kept /\
  (forall i, i ∈ kept <->
     (i < len df)%nat /\ forall j, (j < i)%nat -> keys !! j <> keys !! i) /\
  (forall i, (i < len df)%nat ->
     keys !! i
     = Some (map (fun c => let x := default NA (values c !! i) in
                           if is_object c then str_strip (str_lower x) else x)
               df)).
Proof.
  intros Hwf keys kept.
  assert (Hlen : length keys = len df).
  { unfold keys. by rewrite length_rows, len_normalized. }
  assert (Hkept : positions_from 0 (map negb (duplicated (normalized df))) = kept)
    by apply kept_positions.
  split; [|split; [|split]].
  - rewrite remove_duplicates_view. simpl. unfold dedup.
    apply map_ext_in. intros c Hc. f_equal.
    rewrite list.Forall_forall in Hwf. apply list_elem_of_In in Hc.
    rewrite (select_positions _ [] (values c)).
    + simpl. by rewrite Hkept.
    + unfold duplicated. rewrite length_map, duplicated_from_length.
      fold keys. rewrite Hlen. symmetry. by apply Hwf.
  - rewrite <- Hkept. apply positions_from_sorted.
  - intros i. unfold kept, first_occurrences.
    rewrite list_elem_of_filter, elem_of_seq, is_first_occurrence_spec, Hlen.
    split; [tauto|]. intros [Hi Hfirst]. split; [done|lia].
  - intros i Hi. unfold keys.
    rewrite rows_lookup by (by rewrite len_normalized).
    by rewrite row_normalized.
Qed.

(** ** Strings: stripping and lower-casing *)

Lemma is_space_lower_char c : PyStr.is_space (PyStr.lower_char c) = PyStr.is_space c.
Proof. each_char c. Qed.

Lemma lower_char_idem c :
  PyStr.lower_char (PyStr.lower_char c) = PyStr.lower_char c.
Proof. each_char c. Qed.

Lemma lower_idem s : PyStr.lower (PyStr.lower s) = PyStr.lower s.
Proof.
  induction s as [|c s IH]; simpl; [done|]. by rewrite lower_char_idem, IH.
Qed.

Lemma lower_empty s : PyStr.lower s = EmptyString <-> s = EmptyString.
Proof. by destruct s. Qed.

Lemma lstrip_lower s : PyStr.lstrip (PyStr.lower s) = PyStr.lower (PyStr.lstrip s).
Proof.
  induction s as [|c s IH]; simpl; [done|].
  rewrite is_space_lower_char. by destruct (PyStr.is_space c).
Qed.

Lemma rstrip_lower s : PyStr.rstrip (PyStr.lower s) = PyStr.lower (PyStr.rstrip s).
Proof.
  induction s as [|c s IH]; simpl; [done|].
  rewrite IH, is_space_lower_char.
  destruct (PyStr.rstrip s); simpl; [|done].
  by destruct (PyStr.is_space c).
Qed.

Lemma strip_lower s : PyStr.strip (PyStr.lower s) = PyStr.lower (PyStr.strip s).
Proof. unfold PyStr.strip. by rewrite lstrip_lower, rstrip_lower. Qed.

Lemma rstrip_idem s : PyStr.rstrip (PyStr.rstrip s) = PyStr.rstrip s.
Proof.
  induction s as [|c s IH]; simpl; [done|].
  destruct (PyStr.rstrip s) as [|d r] eqn:Hr.
  - destruct (PyStr.is_space c) eqn:Hc; simpl; [done|]. by rewrite Hc.
  - simpl in *. by rewrite IH.
Qed.

Lemma lstrip_no_leading_space s : no_leading_space (PyStr.lstrip s).
Proof.
  induction s as [|c s IH]; simpl; [done|].
  by destruct (PyStr.is_space c) eqn:Hc.
Qed.

Lemma lstrip_fixed s : no_leading_space s -> PyStr.lstrip s = s.
Proof. destruct s as [|c s]; simpl; [done|]. by intros ->. Qed.

Lemma rstrip_no_leading_space s :
  no_leading_space s -> no_leading_space (PyStr.rstrip s).
Proof.
  destruct s as [|c s]; simpl; [done|]. intros Hc.
  destruct (PyStr.rstrip s); simpl; [by rewrite Hc|done].
Qed.

Lemma strip_idem s : PyStr.strip (PyStr.strip s) = PyStr.strip s.
Proof.
  unfold PyStr.strip.
  rewrite (lstrip_fixed (PyStr.rstrip (PyStr.lstrip s))).
  - apply rstrip_idem.
  - apply rstrip_no_leading_space, lstrip_no_leading_space.
Qed.

(** ** Deduplication leaves no two rows with the same key *)

Lemma dedup_take_rows (df : dataframe) :
  Forall (fun c => length (values c) = len df) df ->
  dedup df
  = map (fun c => set_values c
                    (take_rows (first_occurrences (rows (normalized df))) (values c)))
      df.
Proof.
  intros Hwf. unfold dedup. apply map_ext_in. intros c Hc. f_equal.
  rewrite list.Forall_forall in Hwf. apply list_elem_of_In in Hc.
  rewrite (select_positions _ [] (values c)).
  - simpl. unfold duplicated. by rewrite kept_positions.
  - unfold duplicated. rewrite length_map, duplicated_from_length.
    rewrite length_rows, len_normalized. symmetry. by apply Hwf.
Qed.

Lemma length_take_rows idx vals : length (take_rows idx vals) = length idx.
Proof. unfold take_rows. by rewrite length_map. Qed.

Lemma take_rows_lookup idx vals k :
  take_rows idx vals !! k = (fun i => default NA (vals !! i)) <$> idx !! k.
Proof. unfold take_rows. by rewrite map_lookup. Qed.

Lemma rows_take_rows (idx : list nat) (df : dataframe) :
  (df = [] -> idx = []) ->
  rows (map (fun c => set_values c (take_rows idx (values c))) df)
  = map (row df) idx.
Proof.
  intros Hnil. unfold rows.
  assert (Hlen : len (map (fun c => set_values c (take_rows idx (values c))) df)
                 = length idx).
  { destruct df as [|c df]; simpl; [by rewrite Hnil|apply length_take_rows]. }
  rewrite Hlen. apply list_eq. intros k. rewrite !map_lookup.
  destruct (idx !! k) as [i|] eqn:Hk; simpl.
  - rewrite lookup_seq_lt by (by eapply lookup_lt_Some). simpl. f_equal.
    unfold row. rewrite map_map. apply map_ext. intros c. simpl.
    by rewrite take_rows_lookup, Hk.
  - rewrite lookup_seq_ge; [done|]. by apply lookup_ge_None.
Qed.

Lemma take_rows_map (f : cell -> cell) idx vals :
  f NA = NA -> map f (take_rows idx vals) = take_rows idx (map f vals).
Proof.
  intros Hf. unfold take_rows. rewrite map_map. apply map_ext. intros i.
  rewrite map_lookup. by destruct (vals !! i).
Qed.

Lemma normalized_take_rows idx (df : dataframe) :
  normalized (map (fun c => set_values c (take_rows idx (values c))) df)
  = map (fun c => set_values c (take_rows idx (values c))) (normalized df).
Proof.
  unfold normalized. rewrite !map_map. apply map_ext. intros c.
  unfold is_object. simpl. case_bool_decide; [|done].
  unfold set_values. simpl. f_equal. by apply take_rows_map.
Qed.

Lemma first_occurrences_NoDup (df : dataframe) :
  NoDup (map (row df) (first_occurrences (rows df))).
Proof.
  apply (NoDup_fmap_2_strong (row df)).
  - intros i j Hi Hj Heq.
    unfold first_occurrences in Hi, Hj.
    apply list_elem_of_filter in Hi as [Hi Hin], Hj as [Hj Hjn].
    apply is_first_occurrence_spec in Hi as [Hil Hi], Hj as [Hjl Hj].
    rewrite length_rows in Hil, Hjl.
    destruct (Nat.lt_trichotomy i j) as [Hlt|[->|Hlt]]; [|done|].
    + exfalso. apply (Hj i Hlt). by rewrite !rows_lookup, Heq.
    + exfalso. apply (Hi j Hlt). by rewrite !rows_lookup, Heq.
  - unfold first_occurrences. apply list.NoDup_filter, list.NoDup_seq.
Qed.

Lemma duplicated_from_NoDup seen rs :
  NoDup rs -> (forall r, r ∈ rs -> r ∉ seen) ->
  map negb (duplicated_from seen rs) = replicate (length rs) true.
Proof.
  revert seen. induction rs as [|r rs IH]; intros seen Hnd Hfresh; simpl; [done|].
  apply list.NoDup_cons in Hnd as [Hr Hnd].
  rewrite bool_decide_false by (apply Hfresh, list_elem_of_here). simpl. f_equal.
  apply IH; [done|]. intros x Hx [->|Hs]%elem_of_cons; [done|].
  by apply (Hfresh x); [apply list_elem_of_further|].
Qed.

Lemma select_all {A} (l : list A) : select (replicate (length l) true) l = l.
Proof. induction l as [|x l IH]; simpl; [done|]. by rewrite IH. Qed.

(** A frame whose rows have pairwise different keys is left as it is. *)
Lemma dedup_fixed (df : dataframe) :
  Forall (fun c => length (values c) = len df) df ->
  NoDup (rows (normalized df)) ->
  dedup df = df.
Proof.
  intros Hwf Hnd. unfold dedup, duplicated.
  rewrite (duplicated_from_NoDup [] _ Hnd)
    by (intros r _; apply not_elem_of_nil).
  rewrite length_rows, len_normalized.
  apply map_fixed. intros c Hc.
  rewrite list.Forall_forall in Hwf.
  rewrite <- (Hwf c Hc), select_all. apply set_values_same.
Qed.

(** What deduplication returns has rows with pairwise different keys. *)
Lemma dedup_idem (df : dataframe) :
  Forall (fun c => length (values c) = len df) df ->
  dedup (dedup df) = dedup df.
Proof.
  intros Hwf. set (kept := first_occurrences (rows (normalized df))).
  assert (Hd : dedup df
               = map (fun c => set_values c (take_rows kept (values c))) df)
    by by apply dedup_take_rows.
  assert (Hnil : forall E : dataframe, E = [] -> len E = len df -> kept = []).
  { intros E -> Hl. unfold kept.
    assert (Hk : length (rows (normalized df)) = 0%nat)
      by (by rewrite length_rows, len_normalized, <- Hl).
    destruct (rows (normalized df)); [done|discriminate]. }
  apply dedup_fixed.
  - rewrite Hd. apply list.Forall_forall. intros c Hc.
    apply list_elem_of_fmap in Hc as (c0 & -> & Hc0). simpl.
    rewrite length_take_rows.
    destruct df as [|c1 df]; simpl; [by apply elem_of_nil in Hc0|].
    by rewrite length_take_rows.
  - rewrite Hd, normalized_take_rows, rows_take_rows.
    + apply first_occurrences_NoDup.
    + intros Hn. apply (Hnil df); [|done].
      unfold normalized in Hn. by destruct df.
Qed.



(** ** Columns that a second run leaves as they are *)

Lemma select_Forall {A} (P : A -> Prop) mask (l : list A) :
  Forall P l -> Forall P (select mask l).
Proof.
  revert l. induction mask as [|b mask IH]; intros [|x l] Hl; simpl;
    try constructor.
  apply list.Forall_cons in Hl as [Hx Hl].
  destruct b; [constructor|]; auto.
Qed.

Lemma Forall_map_cells (P : cell -> Prop) (f : cell -> cell) vals :
  (forall x, P (f x)) -> Forall P (map f vals).
Proof.
  intros Hf. apply list.Forall_forall. intros y Hy.
  apply list_elem_of_fmap in Hy as (x & -> & _). apply Hf.
Qed.

Lemma trimmed_tidy c : Forall tidy (trimmed c).
Proof.
  unfold trimmed. rewrite map_map. apply Forall_map_cells. intros x.
  unfold empty_to_na, str_strip, astype_str.
  case_bool_decide as Hs; simpl; [done|].
  split; [apply strip_idem|]. intros He. apply Hs. by rewrite He.
Qed.

Lemma str_lower_tidy x : tidy x -> tidy (str_lower x).
Proof.
  destruct x; simpl; try done. intros [Hs Hne].
  split; [by rewrite strip_lower, Hs|]. by rewrite lower_empty.
Qed.

Lemma str_lower_lowered x : lowered (str_lower x).
Proof. unfold lowered. destruct x; simpl; try done. by rewrite lower_idem. Qed.

Lemma count_isna_zero vals :
  count isna vals = 0 -> Forall (fun x => x <> NA) vals.
Proof.
  intros Hz. apply list.Forall_forall. intros x Hx ->.
  by pose proof (count_zero _ _ Hz _ Hx).
Qed.

Lemma trimmed_fixed c :
  Forall tidy (values c) -> count isna (values c) = 0 -> trimmed c = values c.
Proof.
  intros Ht Hz. apply count_isna_zero in Hz. unfold trimmed.
  rewrite map_map. apply map_fixed. intros x Hx.
  rewrite list.Forall_forall in Ht, Hz.
  specialize (Ht x Hx). specialize (Hz x Hx).
  destruct x; simpl in *; try done. destruct Ht as [Hs Hne].
  unfold empty_to_na. rewrite Hs. rewrite bool_decide_false; [done|].
  intros [= He]. done.
Qed.

Lemma trim_col_fixed c :
  (is_object c = true -> Forall tidy (values c)) ->
  count isna (values c) = 0 ->
  trim_col c = c /\ trim_log c = [].
Proof.
  intros Ht Hz. unfold trim_col, trim_log.
  destruct (is_object c); [|done].
  rewrite (trimmed_fixed c (Ht eq_refl) Hz), set_values_same.
  split; [done|]. rewrite bool_decide_false; [done|]. lia.
Qed.

Lemma to_datetime_fixed vals :
  Forall (fits datetime64) vals -> to_datetime vals = vals.
Proof.
  intros Hf. unfold to_datetime. apply map_fixed. intros x Hx.
  rewrite list.Forall_forall in Hf. specialize (Hf x Hx).
  by destruct x.
Qed.

Lemma parse_col_fixed c :
  (name_hints_datetime (name c) = true ->
   col_dtype c = datetime64 /\ Forall (fits datetime64) (values c)) ->
  parse_col c = c.
Proof.
  intros Hh. unfold parse_col, parses.
  destruct (name_hints_datetime (name c)); [|done].
  destruct (Hh eq_refl) as [Hd Hf].
  destruct (0 <? converted c); simpl; [|done].
  rewrite (to_datetime_fixed _ Hf). destruct c; simpl in *. by subst.
Qed.

Lemma email_col_fixed c :
  (is_email c = true -> Forall lowered (values c)) -> email_col c = c.
Proof.
  intros Hl. unfold email_col. destruct (is_email c); [|done].
  rewrite (map_fixed str_lower (values c)); [apply set_values_same|].
  intros x Hx. specialize (Hl eq_refl). rewrite list.Forall_forall in Hl.
  by apply Hl.
Qed.

Lemma impute_fixed c :
  count isna (values c) = 0 -> impute_col c = c /\ impute_log c = [].
Proof.
  intros Hz. unfold impute_col, impute, impute_log. by rewrite Hz.
Qed.

(** ** What the first three stages leave in a column *)

Lemma stage3_tidy c0 :
  is_object (email_col (parse_col (trim_col c0))) = true ->
  Forall tidy (values (email_col (parse_col (trim_col c0)))).
Proof.
  intros Hobj.
  assert (Hobj2 : is_object (parse_col (trim_col c0)) = true).
  { revert Hobj. unfold email_col. by destruct (is_email _). }
  destruct (object_text_stage2 c0 Hobj2) as [Heq _].
  rewrite Heq. unfold email_col. destruct (is_email _); simpl.
  - apply list.Forall_forall. intros y Hy.
    apply list_elem_of_fmap in Hy as (x & -> & Hx).
    apply str_lower_tidy.
    pose proof (trimmed_tidy c0) as Ht. rewrite list.Forall_forall in Ht. auto.
  - apply trimmed_tidy.
Qed.

Lemma stage3_datetime c0 :
  well_typed c0 ->
  col_dtype (email_col (parse_col (trim_col c0))) = datetime64 ->
  Forall (fits datetime64) (values (email_col (parse_col (trim_col c0)))).
Proof.
  intros Hty Hdt.
  assert (He : email_col (parse_col (trim_col c0)) = parse_col (trim_col c0)).
  { unfold email_col, is_email, is_object in *.
    destruct (bool_decide _) eqn:Hb; [|done].
    apply bool_decide_eq_true in Hb. simpl in Hdt.
    destruct (PyStr.contains _ _); simpl in *; [|done].
    rewrite Hb in Hdt. discriminate. }
  rewrite He in *. unfold parse_col in *.
  destruct (parses (trim_col c0)); simpl in *.
  - apply list.Forall_forall. intros x Hx.
    by destruct (to_datetime_cells _ _ Hx) as [->|[t ->]].
  - unfold trim_col, is_object in *.
    case_bool_decide as Ho; [simpl in Hdt; rewrite Ho in Hdt; discriminate|].
    unfold well_typed in Hty. by rewrite Hdt in Hty.
Qed.

Lemma stage3_lowered c0 :
  is_email (email_col (parse_col (trim_col c0))) = true ->
  Forall lowered (values (email_col (parse_col (trim_col c0)))).
Proof.
  unfold email_col at 1 2.
  destruct (is_email (parse_col (trim_col c0))) eqn:He.
  - intros _. simpl. apply Forall_map_cells, str_lower_lowered.
  - by rewrite He.
Qed.

(** ** A frame the pipeline leaves as it is *)

Lemma audit3_fields df :
  rows_before (audit3 df) = Z.of_nat (len df) /\
  duplicates_removed (audit3 df) = 0.
Proof.
  unfold audit3.
  destruct (logs_fields email_log (stage2 df)
              (logs parse_log (stage1 df) (logs trim_log df (new_audit df))))
    as (-> & _ & -> & _).
  destruct (logs_fields parse_log (stage1 df) (logs trim_log df (new_audit df)))
    as (-> & _ & -> & _).
  destruct (logs_fields trim_log df (new_audit df)) as (-> & _ & -> & _).
  done.
Qed.

(** ** Running the pipeline on its own output *)

Lemma stage4_elem df c4 :
  c4 ∈ stage4 df ->
  exists i c0, df !! i = Some c0 /\
    c4 = after_dedup df (email_col (parse_col (trim_col c0))).
Proof.
  intros Hc. apply list_elem_of_lookup_1 in Hc as [i Hi].
  destruct (df !! i) as [c0|] eqn:H0.
  - exists i, c0. split; [done|].
    rewrite (stage4_lookup _ _ _ H0) in Hi. by injection Hi.
  - apply lookup_ge_None in H0.
    assert (Hl : length (stage4 df) = length df).
    { unfold stage4, dedup, stage3, stage2, stage1. by rewrite !length_map. }
    apply lookup_lt_Some in Hi. lia.
Qed.

Lemma lengths_stage3 df :
  Forall (fun c => length (values c) = len df) df ->
  Forall (fun c => length (values c) = len (stage3 df)) (stage3 df).
Proof.
  intros Hlen. rewrite len_stage3. rewrite list.Forall_forall in *.
  intros c Hc. unfold stage3, stage2, stage1 in Hc.
  apply list_elem_of_fmap in Hc as (c2 & -> & Hc).
  apply list_elem_of_fmap in Hc as (c1 & -> & Hc).
  apply list_elem_of_fmap in Hc as (c0 & -> & Hc).
  rewrite length_email_col, length_parse_col, length_trim_col. by apply Hlen.
Qed.

(** ** Invariants of the audit entries *)

Lemma log_changes_lookup col kvs a n :
  column_changes (log col kvs a) !! n
  = if decide (col = n) then write kvs <$> column_changes a !! n
    else column_changes a !! n.
Proof.
  rewrite log_column_changes, lookup_alter.
  case_decide; [by subst|done].
Qed.

(** A property of entries that every write of a loop keeps is kept by the
    loop. *)
Lemma logs_entry_invariant (Q : gmap string value -> Prop) lg (df : dataframe) a :
  (forall c m, c ∈ df -> Q m -> Q (write (lg c) m)) ->
  (forall n m, column_changes a !! n = Some m -> Q m) ->
  forall n m, column_changes (logs lg df a) !! n = Some m -> Q m.
Proof.
  revert a. induction df as [|c df IH]; intros a Hw Ha n m; simpl; [apply Ha|].
  apply IH.
  - intros c' m' Hc'. apply Hw. by apply list_elem_of_further.
  - intros n' m'. rewrite log_changes_lookup. case_decide; [|apply Ha].
    destruct (column_changes a !! n') as [m0|] eqn:Hm0; simpl; [|done].
    intros [= <-]. apply Hw; [apply list_elem_of_here|]. by eapply Ha.
Qed.

Lemma new_audit_entry df n m :
  column_changes (new_audit df) !! n = Some m -> m = ∅.
Proof.
  unfold new_audit. simpl. induction df as [|c df IH]; simpl.
  - by rewrite lookup_empty.
  - destruct (decide (name c = n)) as [->|Hne].
    + rewrite lookup_insert_eq. by intros [= <-].
    + by rewrite lookup_insert_ne.
Qed.

(** The same for the whole pipeline: a property of entries that holds of
    the empty entry and is kept by the writes of the four loops holds of
    every entry of the audit returned. *)
Lemma clean_entry_invariant (Q : gmap string value -> Prop) (df : dataframe) :
  Q ∅ ->
  (forall c m, c ∈ df -> Q m -> Q (write (trim_log c) m)) ->
  (forall c m, c ∈ stage1 df -> Q m -> Q (write (parse_log c) m)) ->
  (forall c m, c ∈ stage2 df -> Q m -> Q (write (email_log c) m)) ->
  (forall c m, c ∈ stage4 df -> Q m -> Q (write (impute_log c) m)) ->
  forall n m, column_changes (clean_dataframe df).2 !! n = Some m -> Q m.
Proof.
  intros H0 H1 H2 H3 H5 n m. rewrite clean_dataframe_view. simpl.
  apply (logs_entry_invariant Q); [done|].
  intros n' m'. rewrite audit4_changes. unfold audit3.
  apply (logs_entry_invariant Q); [done|].
  apply (logs_entry_invariant Q); [done|].
  apply (logs_entry_invariant Q); [done|].
  intros n'' m'' ->%new_audit_entry. done.
Qed.

Lemma write_Forall (P : string -> value -> Prop) kvs (m : gmap string value) :
  Forall (fun kv => P kv.1 kv.2) kvs ->
  map_Forall P m -> map_Forall P (write kvs m).
Proof.
  revert m. induction kvs as [|kv kvs IH]; intros m Hk Hm; simpl; [done|].
  apply list.Forall_cons in Hk as [Hkv Hk].
  apply IH; [done|]. by apply map_Forall_insert_2.
Qed.

Lemma clean_keys_invariant (P : string -> value -> Prop) (df : dataframe) :
  (forall c, c ∈ df -> Forall (fun kv => P kv.1 kv.2) (trim_log c)) ->
  (forall c, c ∈ stage1 df -> Forall (fun kv => P kv.1 kv.2) (parse_log c)) ->
  (forall c, c ∈ stage2 df -> Forall (fun kv => P kv.1 kv.2) (email_log c)) ->
  (forall c, c ∈ stage4 df -> Forall (fun kv => P kv.1 kv.2) (impute_log c)) ->
  forall n m k v,
    column_changes (clean_dataframe df).2 !! n = Some m ->
    m !! k = Some v -> P k v.
Proof.
  intros H1 H2 H3 H5 n m k v Hm Hk.
  assert (HQ : map_Forall P m).
  { clear Hk. revert n m Hm. apply (clean_entry_invariant (map_Forall P)).
    - apply map_Forall_empty.
    - intros c m Hc. apply write_Forall. by apply H1.
    - intros c m Hc. apply write_Forall. by apply H2.
    - intros c m Hc. apply write_Forall. by apply H3.
    - intros c m Hc. apply write_Forall. by apply H5. }
  by apply (HQ k v).
Qed.

(** Every key of every entry of the audit that clean_dataframe returns is
    one of the six keys the stages write, with text under
    imputation_strategy and an integer under each of the other five. *)
Theorem audit_entry_schema (df : dataframe) (col k : string)
    (m : gmap string value) (v : value) :
  column_changes (clean_dataframe df).2 !! col = Some m ->
  m !! k = Some v ->
  entry_schema k v.
Proof.
  apply clean_keys_invariant; intros c _.
  - unfold trim_log. destruct (_ && _); [|constructor].
    constructor; [simpl; tauto|constructor].
  - unfold parse_log. destruct (parses c); [|constructor].
    constructor; [simpl; tauto|constructor].
  - unfold email_log. destruct (is_email c); [|constructor].
    constructor; [simpl; tauto|]. constructor; [simpl; tauto|constructor].
  - unfold impute_log, imputed_with. destruct (_ =? 0); [constructor|].
    constructor; [simpl; tauto|]. constructor; [|constructor].
    destruct (is_numeric_dtype c); [done|].
    by destruct (is_datetime64_any_dtype c).
Qed.

Lemma count_bounds p vals : 0 <= count p vals <= Z.of_nat (length vals).
Proof.
  unfold count. split; [lia|]. apply inj_le. apply length_filter.
Qed.

Lemma length_to_datetime vals : length (to_datetime vals) = length vals.
Proof. unfold to_datetime. apply length_map. Qed.

Lemma lengths_dedup (df : dataframe) :
  Forall (fun c => length (values c) = len df) df ->
  Forall (fun c => length (values c) = len (dedup df)) (dedup df).
Proof.
  intros Hwf. rewrite (dedup_take_rows df Hwf).
  apply list.Forall_forall. intros c Hc.
  apply list_elem_of_fmap in Hc as (c0 & -> & Hc0). simpl.
  rewrite length_take_rows.
  destruct df as [|c1 df]; simpl; [by apply elem_of_nil in Hc0|].
  by rewrite length_take_rows.
Qed.

Lemma lengths_stage1 df :
  Forall (fun c => length (values c) = len df) df ->
  forall c, c ∈ stage1 df -> length (values c) = len df.
Proof.
  intros Hlen c (c0 & -> & Hc)%list_elem_of_fmap.
  rewrite list.Forall_forall in Hlen.
  rewrite length_trim_col. by apply Hlen.
Qed.

Lemma lengths_stage2 df :
  Forall (fun c => length (values c) = len df) df ->
  forall c, c ∈ stage2 df -> length (values c) = len df.
Proof.
  intros Hlen c (c1 & -> & Hc)%list_elem_of_fmap.
  rewrite length_parse_col. by apply lengths_stage1.
Qed.

Lemma lengths_stage4 df :
  Forall (fun c => length (values c) = len df) df ->
  forall c, c ∈ stage4 df -> length (values c) = len (stage4 df).
Proof.
  intros Hlen c Hc.
  pose proof (lengths_dedup (stage3 df) (lengths_stage3 df Hlen)) as Hd.
  rewrite list.Forall_forall in Hd. by apply Hd.
Qed.

Lemma clean_rows_before df :
  rows_before (clean_dataframe df).2 = Z.of_nat (len df).
Proof.
  rewrite clean_dataframe_view. simpl.
  destruct (logs_fields impute_log (stage4 df) (audit4 df)) as (-> & _).
  destruct (audit3_fields df) as [Hrb _].
  unfold audit4. by destruct (0 <? _).
Qed.

Lemma clean_rows_after df :
  rows_after (clean_dataframe df).2 = Some (Z.of_nat (len (stage4 df))).
Proof.
  rewrite clean_dataframe_view. simpl. do 2 f_equal.
  apply len_map, length_impute_col.
Qed.

(** The counts of the audit are never a reported zero and never exceed the
    frame: new_nulls_from_empty_strings is not 0 and at most rows_before in
    absolute value, parsed_to_datetime is between 1 and rows_before, the two
    email counts are between 0 and rows_before, and imputed_missing is
    between 1 and rows_after. *)
Theorem audit_entry_bounds (df : dataframe) (col k : string)
    (m : gmap string value) (v : value) (after : Z) :
  Forall (fun c => length (values c) = len df) df ->
  rows_after (clean_dataframe df).2 = Some after ->
  column_changes (clean_dataframe df).2 !! col = Some m ->
  m !! k = Some v ->
  entry_bounds (rows_before (clean_dataframe df).2) after k v.
Proof.
  intros Hlen Hafter. rewrite clean_rows_after in Hafter.
  injection Hafter as <-. rewrite clean_rows_before.
  apply clean_keys_invariant.
  - intros c Hc. rewrite list.Forall_forall in Hlen.
    unfold trim_log. destruct (is_object c); simpl; [|constructor].
    case_bool_decide as Hd; [|constructor].
    constructor; [|constructor]. simpl.
    pose proof (count_bounds isna (trimmed c)) as H1.
    pose proof (count_bounds isna (values c)) as H2.
    assert (Hl : length (trimmed c) = length (values c))
      by (unfold trimmed; by rewrite !length_map).
    rewrite Hl, (Hlen c Hc) in H1. rewrite (Hlen c Hc) in H2.
    repeat split; try discriminate; try done; lia.
  - intros c Hc. pose proof (lengths_stage1 df Hlen c Hc) as Hl.
    unfold parse_log, parses. destruct (name_hints_datetime _); [|constructor].
    simpl. destruct (0 <? converted c) eqn:Hpos; [|constructor].
    constructor; [|constructor]. simpl.
    pose proof (count_bounds notna (to_datetime (values c))) as H1.
    rewrite length_to_datetime, Hl in H1.
    unfold converted in *.
    repeat split; try discriminate; lia.
  - intros c Hc. pose proof (lengths_stage2 df Hlen c Hc) as Hl.
    unfold email_log. destruct (is_email c); [|constructor].
    pose proof (count_bounds email_valid (values c)) as H1.
    pose proof (count_bounds email_valid (map str_lower (values c))) as H2.
    rewrite length_map in H2. rewrite Hl in H1, H2.
    constructor; [|constructor; [|constructor]]; simpl;
      repeat split; try discriminate; lia.
  - intros c Hc. pose proof (lengths_stage4 df Hlen c Hc) as Hl.
    unfold impute_log. destruct (_ =? 0) eqn:Hz; [constructor|].
    pose proof (count_bounds isna (values c)) as H1. rewrite Hl in H1.
    constructor; [|constructor; [|constructor]]; simpl.
    + repeat split; try discriminate; lia.
    + unfold imputed_with. destruct (is_numeric_dtype c); [done|].
      by destruct (is_datetime64_any_dtype c).
Qed.

Lemma clean_entries_paired (df : dataframe) (col : string)
    (m : gmap string value) :
  column_changes (clean_dataframe df).2 !! col = Some m ->
  entry_paired m.
Proof.
  apply (clean_entry_invariant entry_paired).
  - unfold entry_paired. rewrite !lookup_empty. split; split; by intros [? ?].
  - intros c m' _ [H1 H2]. unfold trim_log. destruct (_ && _); [|done].
    unfold entry_paired. simpl. by rewrite !lookup_insert_ne.
  - intros c m' _ [H1 H2]. unfold parse_log. destruct (parses c); [|done].
    unfold entry_paired. simpl. by rewrite !lookup_insert_ne.
  - intros c m' _ [H1 H2]. unfold email_log. destruct (is_email c); [|done].
    unfold entry_paired. simpl. split.
    + by rewrite !lookup_insert_ne.
    + rewrite lookup_insert_ne, !lookup_insert_eq by done. by split.
  - intros c m' _ [H1 H2]. unfold impute_log. destruct (_ =? 0); [done|].
    unfold entry_paired. simpl. split.
    + rewrite lookup_insert_ne, !lookup_insert_eq by done. by split.
    + by rewrite !lookup_insert_ne.
Qed.

(** In every entry of the audit that clean_dataframe returns,
    imputed_missing is there exactly when imputation_strategy is, and
    emails_valid_before exactly when emails_valid_after is. *)
Theorem audit_entry_paired (df : dataframe) (col : string)
    (m : gmap string value) :
  column_changes (clean_dataframe df).2 !! col = Some m ->
  entry_paired m.
Proof. apply clean_entries_paired. Qed.

Lemma logs_dom lg (df : dataframe) a :
  dom (column_changes (logs lg df a)) = dom (column_changes a).
Proof.
  revert a. induction df as [|c df IH]; intros a; simpl; [done|].
  rewrite IH, log_column_changes. apply dom_alter_L.
Qed.

Lemma new_audit_dom (df : dataframe) :
  dom (column_changes (new_audit df)) = list_to_set (map name df).
Proof.
  unfold new_audit. simpl. induction df as [|c df IH]; simpl.
  - apply dom_empty_L.
  - by rewrite dom_insert_L, IH.
Qed.

(** The audit that clean_dataframe returns has an entry in column_changes
    for exactly the names of the columns of the input, lists those names in
    column order under columns, and has no issues. *)
Theorem audit_covers_columns (df : dataframe) :
  let a := (clean_dataframe df).2 in
  dom (column_changes a) = list_to_set (map name df) /\
  columns a = map name df /\
  issues a = [].
Proof.
  rewrite clean_dataframe_view. simpl.
  destruct (logs_fields impute_log (stage4 df) (audit4 df))
    as (_ & _ & _ & Hc5 & Hi5).
  assert (Hc4 : columns (audit4 df) = columns (audit3 df)
                /\ issues (audit4 df) = issues (audit3 df)).
  { unfold audit4. by destruct (0 <? _). }
  destruct Hc4 as [Hc4 Hi4].
  assert (H3 : columns (audit3 df) = map name df /\ issues (audit3 df) = []).
  { unfold audit3.
    destruct (logs_fields email_log (stage2 df)
                (logs parse_log (stage1 df) (logs trim_log df (new_audit df))))
      as (_ & _ & _ & -> & ->).
    destruct (logs_fields parse_log (stage1 df) (logs trim_log df (new_audit df)))
      as (_ & _ & _ & -> & ->).
    destruct (logs_fields trim_log df (new_audit df)) as (_ & _ & _ & -> & ->).
    done. }
  destruct H3 as [Hc3 Hi3].
  split; [|split; congruence].
  rewrite logs_dom, audit4_changes. unfold audit3. rewrite !logs_dom.
  apply new_audit_dom.
Qed.

(** The frame that clean_dataframe returns has the columns of the input,
    under the same names and in the same order, and every column of it has
    rows_after cells. *)
Theorem cleaned_frame_shape (df : dataframe) (after : Z) :
  Forall (fun c => length (values c) = len df) df ->
  rows_after (clean_dataframe df).2 = Some after ->
  map name (clean_dataframe df).1 = map name df /\
  Forall (fun c => Z.of_nat (length (values c)) = after) (clean_dataframe df).1.
Proof.
  intros Hlen Hafter. rewrite clean_rows_after in Hafter. injection Hafter as <-.
  rewrite clean_dataframe_view. simpl. split; [apply names_stage5|].
  apply list.Forall_forall. intros c (c4 & -> & Hc4)%list_elem_of_fmap.
  rewrite length_impute_col. f_equal. by apply lengths_stage4.
Qed.

Lemma duplicated_head (df : dataframe) :
  (0 < len df)%nat -> exists rest, duplicated df = false :: rest.
Proof.
  intros Hpos. unfold duplicated, rows.
  destruct (len df) as [|n]; [lia|]. cbn [seq map duplicated_from].
  rewrite bool_decide_false by apply not_elem_of_nil. eauto.
Qed.

Lemma len_dedup_pos (df : dataframe) :
  (0 < len df)%nat -> (0 < len (dedup df))%nat.
Proof.
  intros Hpos.
  destruct (duplicated_head (normalized df)) as [rest Hd];
    [by rewrite len_normalized|].
  unfold dedup. rewrite Hd.
  destruct df as [|c df]; simpl in *; [lia|].
  destruct (values c) as [|x vals]; simpl in *; lia.
Qed.

Lemma clean_row_counts (df : dataframe) :
  let a := (clean_dataframe df).2 in
  exists after,
    rows_after a = Some after /\
    0 <= after <= rows_before a /\
    0 <= duplicates_removed a /\
    (0 < rows_before a -> 1 <= after /\ duplicates_removed a < rows_before a).
Proof.
  simpl. exists (Z.of_nat (len (stage4 df))).
  pose proof (clean_dataframe_rows df) as Hinv.
  rewrite clean_rows_after in Hinv |- *. rewrite clean_rows_before in Hinv |- *.
  injection Hinv as Hinv.
  pose proof (len_dedup (stage3 df)) as Hle. rewrite len_stage3 in Hle.
  fold (stage4 df) in Hle.
  split; [done|]. split; [lia|]. split; [lia|].
  intros Hpos.
  assert (Hp : (0 < len (stage4 df))%nat).
  { apply len_dedup_pos. rewrite len_stage3. lia. }
  lia.
Qed.

(** clean_dataframe never returns more rows than it was given and never
    empties a frame: rows_after is between 0 and rows_before,
    duplicates_removed is not negative, and a frame with at least one row
    keeps at least one (the first row is never a duplicate). *)
Theorem cleaning_keeps_a_row (df : dataframe) :
  let a := (clean_dataframe df).2 in
  exists after,
    rows_after a = Some after /\
    0 <= after <= rows_before a /\
    0 <= duplicates_removed a /\
    (0 < rows_before a -> 1 <= after /\ duplicates_removed a < rows_before a).
Proof. apply clean_row_counts. Qed.

(** ** The deduplicated frame *)

Lemma dedup_rows_NoDup (df : dataframe) :
  Forall (fun c => length (values c) = len df) df ->
  NoDup (rows (normalized (dedup df))).
Proof.
  intros Hwf. rewrite (dedup_take_rows df Hwf).
  rewrite normalized_take_rows, rows_take_rows.
  - apply first_occurrences_NoDup.
  - intros Hn.
    assert (Hk : length (rows (normalized df)) = 0%nat)
      by (by rewrite length_rows, Hn).
    by destruct (rows (normalized df)).
Qed.

(** No two rows of the frame the deduplicator returns have the same
    comparison key, so that deduplicating it again returns it unchanged and
    leaves the audit as it is. *)
Theorem remove_duplicates_idempotent (df : dataframe) (a a' : audit) :
  Forall (fun c => length (values c) = len df) df ->
  let out := (remove_duplicates df a).1 in
  NoDup (rows (normalized out)) /\
  remove_duplicates out a' = (out, a').
Proof.
  intros Hwf. rewrite remove_duplicates_view. simpl.
  split; [by apply dedup_rows_NoDup|].
  rewrite remove_duplicates_view. unfold removed.
  rewrite (dedup_idem df Hwf).
  by replace (Z.of_nat (len (dedup df)) - Z.of_nat (len (dedup df))) with 0 by lia.
Qed.

(** ** Text in the cleaned frame *)

Lemma mode_elem vals v : v ∈ mode vals -> v ∈ vals.
Proof.
  unfold mode. rewrite merge_sort_Permutation, elem_of_remove_dups.
  intros [_ [_ Hv]%list_elem_of_filter]%list_elem_of_filter. done.
Qed.

(** ** A second run *)

Lemma count_isna_none vals :
  (forall x, x ∈ vals -> x <> NA) -> count isna vals = 0.
Proof.
  intros Hall. unfold count.
  induction vals as [|x vals IH]; [done|].
  rewrite filter_cons.
  assert (Hx : x <> NA) by apply Hall, list_elem_of_here.
  rewrite decide_False by (by destruct x).
  apply IH. intros y Hy. by apply Hall, list_elem_of_further.
Qed.

Lemma impute_col_dtype c : col_dtype (impute_col c) = col_dtype c.
Proof.
  unfold impute_col, impute, fillna.
  destruct (_ =? 0); [done|].
  destruct (is_numeric_dtype c); [done|].
  by destruct (is_datetime64_any_dtype c).
Qed.

(** What the imputer writes into a column that is neither numeric nor a
    datetime column: a value of the column, or the text Unknown. *)
Lemma impute_col_cells_object c x :
  col_dtype c = object ->
  x ∈ values (impute_col c) ->
  x <> NA /\ (x ∈ values c \/ x = Str "Unknown").
Proof.
  intros Hobj. unfold impute_col, impute.
  destruct (count isna (values c) =? 0) eqn:Hz.
  - simpl. intros Hx. split; [|by left].
    apply Z.eqb_eq, count_isna_zero in Hz.
    rewrite list.Forall_forall in Hz. by apply Hz.
  - assert (Hn : is_numeric_dtype c = false).
    { unfold is_numeric_dtype. by rewrite Hobj. }
    assert (Hdt : is_datetime64_any_dtype c = false).
    { unfold is_datetime64_any_dtype. by rewrite Hobj. }
    rewrite Hn, Hdt. simpl.
    intros (y & -> & Hy)%list_elem_of_fmap.
    destruct (isna y) eqn:Hna; [|split; [by destruct y|by left]].
    destruct (mode (values c)) as [|v rest] eqn:Hm.
    + split; [done|by right].
    + assert (Hv : v ∈ mode (values c)) by (rewrite Hm; apply list_elem_of_here).
      split; [by eapply mode_notna|]. left. by apply mode_elem.
Qed.

Lemma impute_col_tidy c :
  col_dtype c = object ->
  Forall tidy (values c) ->
  Forall (fun y => tidy y /\ y <> NA) (values (impute_col c)).
Proof.
  intros Hobj Ht. apply list.Forall_forall. intros x Hx.
  destruct (impute_col_cells_object c x Hobj Hx) as [Hna [Hin| ->]].
  - split; [|done]. rewrite list.Forall_forall in Ht. by apply Ht.
  - split; [|done]. simpl. split; [reflexivity|done].
Qed.

Lemma impute_col_fits_datetime c :
  col_dtype c = datetime64 ->
  Forall (fits datetime64) (values c) ->
  Forall (fits datetime64) (values (impute_col c)).
Proof.
  intros Hdt Hf. unfold impute_col, impute.
  destruct (count isna (values c) =? 0); [done|].
  assert (Hn : is_numeric_dtype c = false).
  { unfold is_numeric_dtype. by rewrite Hdt. }
  assert (Hd : is_datetime64_any_dtype c = true).
  { unfold is_datetime64_any_dtype. by rewrite Hdt, bool_decide_true. }
  rewrite Hn, Hd. simpl.
  apply list.Forall_forall. intros x (y & -> & Hy)%list_elem_of_fmap.
  rewrite list.Forall_forall in Hf.
  destruct (isna y) eqn:Hna; [|by apply Hf].
  destruct (mode (values c)) as [|v rest] eqn:Hm; [done|].
  apply Hf, mode_elem. rewrite Hm. apply list_elem_of_here.
Qed.

(** Imputing twice is imputing once: a column in which the imputer left a
    null is one it did not change. *)
Lemma impute_col_idem c : impute_col (impute_col c) = impute_col c.
Proof.
  destruct (impute_col_nulls c) as [H|[(_ & Heq & _)|(_ & Heq & _)]].
  - by destruct (impute_fixed _ (count_isna_none _ H)).
  - by rewrite !Heq.
  - by rewrite !Heq.
Qed.

Lemma trim_col_stable c :
  (is_object c = true -> Forall (fun y => tidy y /\ y <> NA) (values c)) ->
  trim_col c = c /\ trim_log c = [].
Proof.
  intros Ht. destruct (is_object c) eqn:Hobj.
  - specialize (Ht eq_refl). rewrite list.Forall_forall in Ht.
    apply trim_col_fixed.
    + intros _. apply list.Forall_forall. intros x Hx. by apply Ht.
    + apply count_isna_none. intros x Hx. by apply Ht.
  - unfold trim_col, trim_log. by rewrite Hobj.
Qed.

(** Lower-casing the email columns does not change the comparison keys. *)
Lemma normalized_email_col df : normalized (map email_col df) = normalized df.
Proof.
  unfold normalized. rewrite map_map. apply map_ext. intros c.
  unfold email_col, is_email.
  destruct (is_object c) eqn:Hobj; simpl; [|by rewrite Hobj].
  destruct (PyStr.contains _ _); [|by rewrite Hobj].
  assert (Ho : is_object (set_values c (map str_lower (values c))) = true)
    by exact Hobj.
  rewrite Ho. unfold set_values. simpl. f_equal.
  rewrite map_map. apply map_ext. intros x.
  by rewrite str_lower_lowered.
Qed.

(** A run on a frame that its first two stages and its deduplicator leave
    as it is, and whose email columns hold nothing to impute. *)
Lemma second_pass (df : dataframe) :
  NoDup (map name df) ->
  (forall c, c ∈ df ->
     trim_col c = c /\ trim_log c = [] /\ parse_col c = c /\
     impute_col (email_col c) = email_col c) ->
  dedup (map email_col df) = map email_col df ->
  (clean_dataframe df).1 = map email_col df /\
  rows_before (clean_dataframe df).2 = Z.of_nat (len df) /\
  duplicates_removed (clean_dataframe df).2 = 0 /\
  rows_after (clean_dataframe df).2 = Some (Z.of_nat (len df)) /\
  forall c, c ∈ df ->
    column_changes (clean_dataframe df).2 !! name c
    = Some (write (impute_log (email_col c))
              (write (email_log c) (write (parse_log c) ∅))).
Proof.
  intros Hnd Hcols Hdedup.
  assert (H1 : stage1 df = df).
  { apply map_fixed. intros c Hc. by destruct (Hcols c Hc) as (-> & _). }
  assert (H2 : stage2 df = df).
  { unfold stage2. rewrite H1. apply map_fixed. intros c Hc.
    by destruct (Hcols c Hc) as (_ & _ & -> & _). }
  assert (H3 : stage3 df = map email_col df).
  { unfold stage3. by rewrite H2. }
  assert (H4 : stage4 df = map email_col df).
  { unfold stage4. by rewrite H3. }
  assert (H5 : stage5 df = map email_col df).
  { unfold stage5. rewrite H4. apply map_fixed.
    intros c' (c & -> & Hc)%list_elem_of_fmap.
    by destruct (Hcols c Hc) as (_ & _ & _ & ->). }
  assert (Hlen : len (map email_col df) = len df)
    by apply len_map, length_email_col.
  assert (Ha4 : audit4 df = audit3 df).
  { unfold audit4, removed. rewrite H3, Hdedup.
    by replace (Z.of_nat (len (map email_col df))
                - Z.of_nat (len (map email_col df))) with 0 by lia. }
  destruct (audit3_fields df) as [Hrb Hdr].
  split; [|split; [|split; [|split]]].
  - rewrite clean_dataframe_view. simpl. exact H5.
  - rewrite clean_dataframe_view. simpl.
    destruct (logs_fields impute_log (stage4 df) (audit4 df)) as (-> & _).
    by rewrite Ha4.
  - rewrite clean_dataframe_view. simpl.
    destruct (logs_fields impute_log (stage4 df) (audit4 df))
      as (_ & _ & -> & _).
    by rewrite Ha4.
  - rewrite clean_dataframe_view. simpl. by rewrite H5, Hlen.
  - intros c Hc. apply list_elem_of_lookup_1 in Hc as Hi. destruct Hi as [i Hi].
    destruct (clean_dataframe_column df i c Hnd Hi) as [_ ->].
    destruct (Hcols c Hc) as (Ht & Hlt & Hp & _).
    rewrite Ht, Hlt, Hp.
    assert (Hc4 : after_dedup df (email_col c) = email_col c).
    { assert (Hl : dedup (map email_col df) !! i
                   = Some (after_dedup df (email_col c))).
      { unfold dedup, after_dedup. rewrite map_lookup, map_lookup, Hi, H3. done. }
      rewrite Hdedup, map_lookup, Hi in Hl. by injection Hl. }
    by rewrite Hc4.
Qed.

(** C5 (amended). When no two rows of the first run's output have the same
    comparison key (no value the imputer filled in made two rows equal) and
    every column of that output whose name hints at a date is a datetime
    column or holds nothing that parses, a second run on that output
    removes no row: duplicates_removed is 0 and rows_after equals
    rows_before.  It records nothing under new_nulls_from_empty_strings, and
    nothing under imputed_missing or imputation_strategy for a column
    without nulls.  The frame it returns is the first run's output with the
    email columns lower-cased once more, which is that output itself unless
    the imputer wrote its text Unknown into an email column. *)
Theorem C5_second_run (df : dataframe) :
  well_formed df ->
  NoDup (rows (normalized (clean_dataframe df).1)) ->
  (forall c, c ∈ (clean_dataframe df).1 ->
     name_hints_datetime (name c) = true ->
     col_dtype c = datetime64 \/ count notna (to_datetime (values c)) = 0) ->
  let out := (clean_dataframe df).1 in
  let a2 := (clean_dataframe out).2 in
  (clean_dataframe out).1
  = (for_columns normalize_emails out (new_audit out)).1 /\
  ((forall c, c ∈ out -> col_dtype c = object ->
      PyStr.contains "email" (PyStr.lower (name c)) = true ->
      Str "Unknown" ∉ values c) ->
   (clean_dataframe out).1 = out) /\
  duplicates_removed a2 = 0 /\
  rows_after a2 = Some (rows_before a2) /\
  forall c, c ∈ out ->
    exists m, column_changes a2 !! name c = Some m /\
      m !! "new_nulls_from_empty_strings" = None /\
      ((forall x, x ∈ values c -> x <> NA) ->
       m !! "imputed_missing" = None /\ m !! "imputation_strategy" = None).
Proof.
  intros (Hnd & Hlen & Hty) Hkeys Hhint out a2.
  assert (HB : out = stage5 df).
  { unfold out. by rewrite clean_dataframe_view. }
  (* a column of the output is an imputed column of the fourth stage *)
  assert (Hout : forall c, c ∈ out ->
            exists i c0, df !! i = Some c0 /\
              c = impute_col (after_dedup df (email_col (parse_col (trim_col c0))))).
  { intros c Hc. rewrite HB in Hc. unfold stage5 in Hc.
    apply list_elem_of_fmap in Hc as (c4 & -> & Hc4).
    apply stage4_elem in Hc4 as (i & c0 & Hi & ->). eauto. }
  (* the text columns of the output hold text only *)
  assert (Htext : forall c, c ∈ out -> is_object c = true ->
            Forall (fun y => tidy y /\ y <> NA) (values c)).
  { intros c Hc Hobj. destruct (Hout c Hc) as (i & c0 & Hi & ->).
    apply bool_decide_eq_true in Hobj. rewrite impute_col_dtype in Hobj.
    apply impute_col_tidy; [done|].
    apply select_Forall, stage3_tidy. unfold is_object.
    by rewrite bool_decide_true. }
  assert (Hlow : forall c, c ∈ out -> is_email c = true ->
            forall x, x ∈ values (email_col c) -> x <> NA).
  { intros c Hc He x Hx. unfold email_col in Hx. rewrite He in Hx. simpl in Hx.
    apply list_elem_of_fmap in Hx as (y & -> & Hy).
    assert (Hobj : is_object c = true).
    { unfold is_email in He. by apply andb_true_iff in He as [? _]. }
    pose proof (Htext c Hc Hobj) as Ht. rewrite list.Forall_forall in Ht.
    destruct (Ht y Hy) as [Hty' Hna]. by destruct y. }
  assert (Hcols : forall c, c ∈ out ->
            trim_col c = c /\ trim_log c = [] /\ parse_col c = c /\
            impute_col (email_col c) = email_col c).
  { intros c Hc.
    destruct (trim_col_stable c (Htext c Hc)) as [Ht Hlt].
    split; [done|]. split; [done|]. split.
    - destruct (name_hints_datetime (name c)) eqn:Hh;
        [|unfold parse_col, parses; by rewrite Hh].
      destruct (Hhint c Hc Hh) as [Hdt|Hzero].
      + apply parse_col_fixed. intros _. split; [done|].
        destruct (Hout c Hc) as (i & c0 & Hi & ->).
        rewrite impute_col_dtype in Hdt.
        apply impute_col_fits_datetime; [done|].
        apply select_Forall. apply stage3_datetime; [|done].
        rewrite list.Forall_forall in Hty. apply Hty.
        eapply list_elem_of_lookup_2. exact Hi.
      + unfold parse_col, parses, converted. rewrite Hzero.
        by rewrite andb_false_r.
    - destruct (is_email c) eqn:He.
      + by destruct (impute_fixed _ (count_isna_none _ (Hlow c Hc He))).
      + unfold email_col. rewrite He.
        destruct (Hout c Hc) as (i & c0 & Hi & ->). apply impute_col_idem. }
  assert (Hlens : forall c, c ∈ out -> length (values c) = len out).
  { intros c Hc. rewrite HB in Hc |- *. unfold stage5 in *.
    apply list_elem_of_fmap in Hc as (c4 & -> & Hc4).
    rewrite length_impute_col, (len_map _ _ length_impute_col).
    by apply lengths_stage4. }
  assert (Hdd : dedup (map email_col out) = map email_col out).
  { apply dedup_fixed.
    - apply list.Forall_forall. intros c' (c & -> & Hc)%list_elem_of_fmap.
      rewrite length_email_col, (len_map _ _ length_email_col). by apply Hlens.
    - by rewrite normalized_email_col. }
  assert (Hnd' : NoDup (map name out)) by (by rewrite HB, names_stage5).
  destruct (second_pass out Hnd' Hcols Hdd) as (Hdf & Hrb & Hdr & Hra & Hcc).
  split; [|split; [|split; [|split]]].
  - rewrite Hdf.
    by rewrite (for_columns_view _ _ _ normalize_emails_view).
  - intros Hunk. rewrite Hdf. apply map_fixed. intros c Hc.
    apply email_col_fixed. intros He.
    assert (Hobj : col_dtype c = object /\
                   PyStr.contains "email" (PyStr.lower (name c)) = true).
    { unfold is_email, is_object in He.
      apply andb_true_iff in He as [Ho Hn].
      by apply bool_decide_eq_true in Ho. }
    destruct Hobj as [Hobj Hname].
    pose proof (Hunk c Hc Hobj Hname) as Hno.
    destruct (Hout c Hc) as (i & c0 & Hi & Heq).
    set (c3 := email_col (parse_col (trim_col c0))) in *.
    assert (He3 : is_email c3 = true).
    { revert He. rewrite Heq. unfold is_email, is_object.
      by rewrite impute_col_dtype, name_impute_col. }
    assert (Hl4 : Forall lowered (values (after_dedup df c3))).
    { apply select_Forall. by apply stage3_lowered. }
    rewrite list.Forall_forall in Hl4.
    apply list.Forall_forall. intros x Hx.
    assert (Hx' : x ∈ values (impute_col (after_dedup df c3)))
      by (by rewrite <- Heq).
    assert (Hobj4 : col_dtype (after_dedup df c3) = object)
      by (by rewrite <- impute_col_dtype, <- Heq).
    destruct (impute_col_cells_object _ x Hobj4 Hx') as [_ [Hin| ->]];
      [by apply Hl4|done].
  - exact Hdr.
  - unfold a2. by rewrite Hra, Hrb.
  - intros c Hc. eexists. split; [by apply Hcc|]. split.
    + rewrite write_other by (intros [?|?]%impute_log_keys; discriminate).
      rewrite write_other by (intros [?|?]%email_log_keys; discriminate).
      rewrite write_other by (intros ?%parse_log_keys; discriminate).
      apply lookup_empty.
    + intros Hna.
      assert (Hz : count isna (values (email_col c)) = 0).
      { apply count_isna_none. destruct (is_email c) eqn:He.
        - by apply Hlow.
        - unfold email_col. by rewrite He. }
      destruct (impute_fixed _ Hz) as [_ ->]. simpl.
      split.
      all: rewrite write_other by (intros [?|?]%email_log_keys; discriminate).
      all: rewrite write_other by (intros ?%parse_log_keys; discriminate).
      all: apply lookup_empty.
Qed.


Lemma fillna_Forall (P : cell -> Prop) val c :
  P val -> Forall P (values c) -> Forall P (values (fillna val c)).
Proof.
  intros Hval Hc. unfold fillna. simpl. rewrite list.Forall_forall in *.
  intros y (x & -> & Hx)%list_elem_of_fmap.
  destruct (isna x); auto.
Qed.

(** In the frame that clean_dataframe returns, every cell of an object
    column is text that is not empty and has no whitespace at either end:
    nulls are filled, and the fill value is a value of the column or the
    text Unknown. *)
Theorem cleaned_text_is_stripped (df : dataframe) (c : column) (x : cell) :
  c ∈ (clean_dataframe df).1 ->
  col_dtype c = object ->
  x ∈ values c ->
  exists s, x = Str s /\ PyStr.strip s = s /\ s <> EmptyString.
Proof.
  rewrite clean_dataframe_view. simpl. unfold stage5.
  intros (c4 & -> & Hc4)%list_elem_of_fmap Hobj Hx.
  apply stage4_elem in Hc4 as (i & c0 & Hi & ->).
  set (c3 := email_col (parse_col (trim_col c0))) in *.
  set (c4 := after_dedup df c3) in *.
  assert (Hd : col_dtype (impute_col c4) = col_dtype c3).
  { unfold impute_col, impute, fillna.
    destruct (_ =? 0); [done|].
    destruct (is_numeric_dtype c4); [done|].
    by destruct (is_datetime64_any_dtype c4). }
  rewrite Hd in Hobj.
  assert (Ht : Forall tidy (values c4)).
  { apply select_Forall, stage3_tidy. unfold is_object.
    by rewrite bool_decide_true. }
  assert (Hall : Forall (fun y => tidy y /\ y <> NA) (values (impute_col c4))).
  { unfold impute_col, impute.
    destruct (count isna (values c4) =? 0) eqn:Hz.
    - simpl. apply Z.eqb_eq, count_isna_zero in Hz.
      rewrite list.Forall_forall in *. auto.
    - assert (Hn : is_numeric_dtype c4 = false).
      { unfold is_numeric_dtype. simpl. by rewrite Hobj. }
      assert (Hdt : is_datetime64_any_dtype c4 = false).
      { unfold is_datetime64_any_dtype. simpl. by rewrite Hobj. }
      rewrite Hn, Hdt. simpl.
      assert (Hval : forall v, v = match mode (values c4) with
                                  | v :: _ => v | [] => Str "Unknown" end ->
                               tidy v /\ v <> NA).
      { intros v ->. destruct (mode (values c4)) as [|v rest] eqn:Hm.
        - split; [|done]. simpl. split; [reflexivity|done].
        - assert (Hv : v ∈ mode (values c4)) by (rewrite Hm; apply list_elem_of_here).
          split; [|by eapply mode_notna].
          rewrite list.Forall_forall in Ht. by apply Ht, mode_elem. }
      apply list.Forall_forall. intros y Hy.
      unfold fillna in Hy. simpl in Hy.
      apply list_elem_of_fmap in Hy as (z & -> & Hz').
      destruct (isna z) eqn:Hna; [by apply Hval|].
      rewrite list.Forall_forall in Ht. split; [by apply Ht|by destruct z]. }
  rewrite list.Forall_forall in Hall. destruct (Hall x Hx) as [Htx Hnx].
  destruct x as [|s| | |]; simpl in Htx; try done.
  exists s. by destruct Htx.
Qed.

(** ** What EMAIL_RE matches *)

Lemma Matches_Seq r1 r2 s :
  Re.Matches (Re.Seq r1 r2) s
  <-> exists s1 s2, s = s1 +:+ s2 /\ Re.Matches r1 s1 /\ Re.Matches r2 s2.
Proof.
  split.
  - inversion 1; subst. eauto.
  - intros (s1 & s2 & -> & H1 & H2). by constructor.
Qed.

Lemma Matches_Class p s :
  Re.Matches (Re.Class p) s <-> exists c, s = String c EmptyString /\ p c = true.
Proof.
  split.
  - inversion 1; subst. eauto.
  - intros (c & -> & Hc). by constructor.
Qed.

Lemma Matches_is_char a s :
  Re.Matches (Re.Class (is_char a)) s <-> s = String a EmptyString.
Proof.
  rewrite Matches_Class. unfold is_char. split.
  - intros (c & -> & Hc). by apply bool_decide_eq_true in Hc as ->.
  - intros ->. exists a. by rewrite bool_decide_true.
Qed.

Lemma Matches_Star_Class p s :
  Re.Matches (Re.Star (Re.Class p)) s <-> all_chars p s = true.
Proof.
  split.
  - intros Hm. remember (Re.Star (Re.Class p)) as r eqn:Hr.
    induction Hm; try discriminate; [done|].
    injection Hr as ->. inversion Hm1 as [|q c Hc| | | | |]; subst.
    rewrite append_cons, append_empty.
    simpl. rewrite Hc. simpl. by apply IHHm2.
  - induction s as [|c s IH]; simpl; [constructor|].
    intros [Hc Hs]%andb_true_iff.
    change (String c s) with (String c EmptyString +:+ s).
    constructor; [by constructor|by apply IH].
Qed.

Lemma Matches_Plus_Class p s :
  Re.Matches (Re.Plus (Re.Class p)) s
  <-> s <> EmptyString /\ all_chars p s = true.
Proof.
  unfold Re.Plus. rewrite Matches_Seq. split.
  - intros (s1 & s2 & -> & (c & -> & Hc)%Matches_Class & H2%Matches_Star_Class).
    rewrite append_cons, append_empty. simpl. by rewrite Hc, H2.
  - intros [Hne Hall]. destruct s as [|c s]; [done|]. simpl in Hall.
    apply andb_true_iff in Hall as [Hc Hs].
    exists (String c EmptyString), s. split; [done|].
    split; [by constructor|by apply Matches_Star_Class].
Qed.

Lemma Matches_AtLeast2_Class p s :
  Re.Matches (Re.AtLeast2 (Re.Class p)) s
  <-> (2 <= String.length s)%nat /\ all_chars p s = true.
Proof.
  unfold Re.AtLeast2. rewrite Matches_Seq. split.
  - intros (s1 & s2 & -> & (c & -> & Hc)%Matches_Class & H2).
    change (Re.Seq (Re.Class p) (Re.Star (Re.Class p)))
      with (Re.Plus (Re.Class p)) in H2.
    apply Matches_Plus_Class in H2 as [Hne Hall].
    rewrite append_cons, append_empty. simpl. rewrite Hc, Hall.
    split; [|done]. destruct s2; [done|simpl; lia].
  - intros [Hlen Hall]. destruct s as [|c s]; [simpl in Hlen; lia|].
    simpl in Hall. apply andb_true_iff in Hall as [Hc Hs].
    exists (String c EmptyString), s. split; [done|].
    split; [by constructor|].
    change (Re.Seq (Re.Class p) (Re.Star (Re.Class p)))
      with (Re.Plus (Re.Class p)).
    apply Matches_Plus_Class. split; [|done].
    destruct s; [simpl in Hlen; lia|done].
Qed.

Lemma Matches_Dollar e :
  Re.Matches Dollar e
  <-> e = EmptyString \/ e = String "010"%char EmptyString.
Proof.
  unfold Dollar. split.
  - inversion 1 as [| | | ? ? ? Hl | ? ? ? Hr | |]; subst.
    + inversion Hl. by left.
    + apply Matches_is_char in Hr. by right.
  - intros [->| ->]; [apply Re.MOrL; constructor|].
    apply Re.MOrR. by apply Matches_is_char.
Qed.

Lemma EMAIL_RE_match_iff (s : string) :
  EMAIL_RE_match s = true <-> email_shaped s.
Proof.
  unfold EMAIL_RE_match, EMAIL_RE, email_shaped. rewrite fullmatch_spec.
  split.
  - intros (l & s1 & -> & [Hl1 Hl2]%Matches_Plus_Class & H1)%Matches_Seq.
    apply Matches_Seq in H1 as (a & s2 & -> & ->%Matches_is_char & H2).
    apply Matches_Seq in H2 as (d & s3 & -> & [Hd1 Hd2]%Matches_Plus_Class & H3).
    apply Matches_Seq in H3 as (p & s4 & -> & ->%Matches_is_char & H4).
    apply Matches_Seq in H4
      as (t & e & -> & [Ht1 Ht2]%Matches_AtLeast2_Class & He%Matches_Dollar).
    exists l, d, t, e. done.
  - intros (l & d & t & e & -> & Hl1 & Hl2 & Hd1 & Hd2 & Ht1 & Ht2 & He).
    apply Matches_Seq. exists l, ("@" +:+ d +:+ "." +:+ t +:+ e).
    split; [done|]. split; [by apply Matches_Plus_Class|].
    apply Matches_Seq. exists "@", (d +:+ "." +:+ t +:+ e).
    split; [done|]. split; [by apply Matches_is_char|].
    apply Matches_Seq. exists d, ("." +:+ t +:+ e).
    split; [done|]. split; [by apply Matches_Plus_Class|].
    apply Matches_Seq. exists ".", (t +:+ e).
    split; [done|]. split; [by apply Matches_is_char|].
    apply Matches_Seq. exists t, e.
    split; [done|]. split; [by apply Matches_AtLeast2_Class|].
    by apply Matches_Dollar.
Qed.

(** EMAIL_RE accepts exactly the strings made of a local part of one or
    more of the characters [A-Za-z0-9._%+-], an at sign, a domain of one or
    more of [A-Za-z0-9.-], a dot and two or more letters, followed by
    nothing or by one line feed. *)
Theorem EMAIL_RE_match_shape (s : string) :
  EMAIL_RE_match s = true <-> email_shaped s.
Proof. apply EMAIL_RE_match_iff. Qed.

Lemma all_chars_append p (s1 s2 : string) :
  all_chars p (s1 +:+ s2) = all_chars p s1 && all_chars p s2.
Proof.
  induction s1 as [|c s1 IH]; [done|].
  rewrite append_cons. simpl. by rewrite IH, andb_assoc.
Qed.

Lemma append_assoc (s1 s2 s3 : string) :
  (s1 +:+ s2) +:+ s3 = s1 +:+ (s2 +:+ s3).
Proof.
  induction s1 as [|c s1 IH]; [done|]. rewrite !append_cons. by rewrite IH.
Qed.

Lemma append_empty_r (s : string) : s +:+ EmptyString = s.
Proof. induction s as [|c s IH]; [done|]. rewrite append_cons. by rewrite IH. Qed.

(** The [$] of EMAIL_RE is not the end of the text: a text without a line
    feed that the pattern accepts is still accepted with a line feed
    appended. *)
Theorem EMAIL_RE_accepts_trailing_newline (s : string) :
  EMAIL_RE_match s = true ->
  all_chars (fun c => negb (is_char "010"%char c)) s = true ->
  EMAIL_RE_match (s +:+ String "010"%char EmptyString) = true.
Proof.
  rewrite !EMAIL_RE_match_iff.
  intros (l & d & t & e & -> & Hl1 & Hl2 & Hd1 & Hd2 & Ht1 & Ht2 & He) Hnl.
  destruct He as [->| ->].
  - exists l, d, t, (String "010"%char EmptyString).
    rewrite append_empty_r, !append_assoc.
    split; [done|]. repeat (split; [done|]). by right.
  - rewrite !all_chars_append in Hnl.
    do 5 (apply andb_true_iff in Hnl as [_ Hnl]).
    vm_compute in Hnl. discriminate.
Qed.

(** ** The summary of an audit *)

Lemma map_fold_copy {A} (m : gmap string A) :
  map_fold (fun k v acc => <[k := v]> acc) ∅ m = m.
Proof.
  apply (map_fold_weak_ind (fun r m => r = m)); [done|].
  intros k v m' r _ ->. done.
Qed.

Lemma map_fold_copy_with {A B} (g : A -> B) (m : gmap string A) :
  map_fold (fun k v acc => <[k := g v]> acc) ∅ m = g <$> m.
Proof.
  apply (map_fold_weak_ind (fun r m => r = g <$> m)).
  - by rewrite fmap_empty.
  - intros k v m' r _ ->. by rewrite fmap_insert.
Qed.

Lemma build_audit_summary_id (a : audit) : build_audit_summary a = a.
Proof.
  unfold build_audit_summary. destruct a as [rb ra dr cols cc iss]. simpl.
  f_equal.
  rewrite (map_fold_copy_with
             (fun info => map_fold (fun k v pretty => <[k := v]> pretty) ∅ info)).
  apply map_eq. intros col. rewrite lookup_fmap.
  destruct (cc !! col) as [info|]; simpl; [|done].
  by rewrite map_fold_copy.
Qed.

(** build_audit_summary returns the audit it is given: the four counts and
    lists are taken over and every entry of column_changes is copied with
    all its keys and values. *)
Theorem build_audit_summary_copies (a : audit) : build_audit_summary a = a.
Proof. apply build_audit_summary_id. Qed.

(** ** The quality metrics on the audit of a cleaned frame *)

Lemma sum_over_None {A} (f : A -> option Z) xs x :
  x ∈ xs -> f x = None -> Story.sum_over f xs = None.
Proof.
  induction xs as [|y xs IH]; [by intros ?%elem_of_nil|].
  intros [->|Hx]%elem_of_cons Hf; simpl.
  - by rewrite Hf.
  - rewrite (IH Hx Hf). by destruct (f y).
Qed.

Lemma sum_over_nonneg {A} (f : A -> option Z) xs :
  (forall x, x ∈ xs -> exists n, f x = Some n /\ 0 <= n) ->
  exists s, Story.sum_over f xs = Some s /\ 0 <= s /\
    ((forall x, x ∈ xs -> f x = Some 0) -> s = 0) /\
    ((exists x n, x ∈ xs /\ f x = Some n /\ 0 < n) -> 0 < s).
Proof.
  induction xs as [|y xs IH]; intros Hf.
  - exists 0. split; [done|]. split; [done|]. split; [done|].
    by intros (x & n & ?%elem_of_nil & _).
  - destruct IH as (s & Hs & Hpos & Hzero & Hsome).
    { intros x Hx. by apply Hf, list_elem_of_further. }
    destruct (Hf y (list_elem_of_here y xs)) as (n & Hn & Hn0).
    exists (n + s). simpl. rewrite Hn, Hs. simpl.
    split; [done|]. split; [lia|]. split.
    + intros Hall. rewrite (Hall y (list_elem_of_here y xs)) in Hn.
      injection Hn as <-.
      rewrite Hzero; [done|]. intros x Hx. by apply Hall, list_elem_of_further.
    + intros (x & k & [->|Hx]%elem_of_cons & Hk & Hk0).
      * rewrite Hn in Hk. injection Hk as ->. lia.
      * assert (0 < s) by (apply Hsome; eauto). lia.
Qed.

Lemma elem_of_dict_values {A} (d : gmap string A) (v : A) :
  v ∈ Story.dict_values d <-> exists k, d !! k = Some v.
Proof.
  unfold Story.dict_values. rewrite list_elem_of_fmap. split.
  - intros ([k v'] & -> & Hkv%elem_of_map_to_list). by exists k.
  - intros [k Hk]. exists (k, v). split; [done|]. by apply elem_of_map_to_list.
Qed.

(** The values of the entries: integers, and the text of an imputation
    strategy, which is never empty. *)
Lemma clean_values_kind (df : dataframe) (col k : string)
    (m : gmap string value) (v : value) :
  column_changes (clean_dataframe df).2 !! col = Some m ->
  m !! k = Some v ->
  match v with
  | VInt z => k <> "imputation_strategy" /\ (k = "imputed_missing" -> 1 <= z)
  | VStr s => k = "imputation_strategy" /\ s <> EmptyString
  end.
Proof.
  apply (clean_keys_invariant
           (fun k v =>
              match v with
              | VInt z => k <> "imputation_strategy"
                          /\ (k = "imputed_missing" -> 1 <= z)
              | VStr s => k = "imputation_strategy" /\ s <> EmptyString
              end)); intros c _.
  - unfold trim_log. destruct (_ && _); [|constructor].
    constructor; [simpl; split; discriminate|constructor].
  - unfold parse_log. destruct (parses c); [|constructor].
    constructor; [simpl; split; discriminate|constructor].
  - unfold email_log. destruct (is_email c); [|constructor].
    constructor; [simpl; split; discriminate|].
    constructor; [simpl; split; discriminate|constructor].
  - unfold impute_log, imputed_with. destruct (_ =? 0) eqn:Hz; [constructor|].
    pose proof (count_bounds isna (values c)) as Hb.
    constructor; [simpl; split; [discriminate|lia]|].
    constructor; [|constructor].
    destruct (is_numeric_dtype c); [done|].
    by destruct (is_datetime64_any_dtype c).
Qed.

Lemma of_int_nonneg z : 0 <= z -> (0 <= Story.of_int z)%Qc.
Proof.
  intros Hz. unfold Story.of_int. rewrite <- Z2Qc_inj_0.
  by apply (proj1 (Z2Qc_inj_le 0 z)).
Qed.

Lemma of_int_pos z : 0 < z -> (0 < Story.of_int z)%Qc.
Proof.
  intros Hz. unfold Story.of_int. rewrite <- Z2Qc_inj_0.
  by apply (proj1 (Z2Qc_inj_lt 0 z)).
Qed.

Lemma true_div_Some a b :
  b <> 0 -> Story.true_div a b = Some (Story.of_int a / Story.of_int b)%Qc.
Proof. intros Hb. unfold Story.true_div. by rewrite bool_decide_false. Qed.

Lemma true_div_zero a : Story.true_div a 0 = None.
Proof. reflexivity. Qed.

Lemma div_nonneg a b :
  0 <= a -> 0 < b -> (0 <= Story.of_int a / Story.of_int b)%Qc.
Proof.
  intros Ha Hb. unfold Qcdiv. apply Qcmult_nonneg_nonneg.
  - by apply of_int_nonneg.
  - apply Qclt_le_weak, Qcinv_pos. by apply of_int_pos.
Qed.

Lemma py_min_nonneg a b : (0 <= a)%Qc -> (0 <= b)%Qc -> (0 <= Story.py_min a b)%Qc.
Proof. intros Ha Hb. unfold Story.py_min. by case_bool_decide. Qed.

Lemma Qc_le_plus_nonneg a b : (0 <= b)%Qc -> (a <= a + b)%Qc.
Proof.
  intros Hb. rewrite <- (Qcplus_0_r a) at 1.
  apply Qcplus_le_compat; [apply Qcle_refl|done].
Qed.

Lemma py_int_lower z q : 0 <= z -> (Story.of_int z <= q)%Qc -> z <= Story.py_int q.
Proof.
  intros Hz Hq. unfold Story.py_int. destruct q as [[n d] Hcanon].
  unfold Qcle, Qle in Hq. simpl in *.
  apply Z.quot_le_lower_bound; lia.
Qed.

(** On the audit of a cleaned frame no row is lost but to deduplication, so
    that the score is 100 unless adding up the improvements raises. *)
Lemma quality_score_body_cleaned (df : dataframe) :
  Story.quality_score_body (clean_dataframe df).2
  = (Story.sum_over
       (fun changes => Story.sum_over Story.improvement (Story.dict_values changes))
       (Story.dict_values (column_changes (clean_dataframe df).2)))
    ≫= (fun _ => Some 100).
Proof.
  destruct (clean_row_counts df) as (after & Hra & [Ha0 Harb] & Hd0 & Hpos).
  pose proof (clean_dataframe_rows df) as Hinv. rewrite Hra in Hinv.
  injection Hinv as Hinv.
  unfold Story.quality_score_body. rewrite Hra. simpl.
  replace (rows_before (clean_dataframe df).2 - after
           - duplicates_removed (clean_dataframe df).2) with 0 by lia.
  simpl.
  set (rb := rows_before (clean_dataframe df).2) in *.
  set (dup := duplicates_removed (clean_dataframe df).2) in *.
  assert (Hscore : exists score,
            (if 0 <? dup
             then Story.true_div dup rb ≫=
                    (fun x => Some (Story.of_int 100
                                    + Story.py_min (Story.of_int 10)
                                        (x * Story.of_int 20))%Qc)
             else Some (Story.of_int 100)) = Some score
            /\ (Story.of_int 100 <= score)%Qc).
  { destruct (0 <? dup) eqn:Hdup.
    - apply Z.ltb_lt in Hdup.
      assert (Hrb : 0 < rb) by lia.
      rewrite true_div_Some by lia. simpl. eexists. split; [done|].
      apply Qc_le_plus_nonneg, py_min_nonneg; [by apply of_int_nonneg|].
      apply Qcmult_nonneg_nonneg; [by apply div_nonneg|by apply of_int_nonneg].
    - eexists. split; [done|]. apply Qcle_refl. }
  destruct Hscore as (score & -> & Hscore). simpl.
  destruct (Story.sum_over _ _) as [total|]; simpl; [|done].
  f_equal.
  assert (H100 : 100 <= Story.py_int
            (if 0 <? total
             then (score + Story.of_int (Z.min 15 (total * 3)))%Qc
             else score)).
  { apply py_int_lower; [lia|].
    destruct (0 <? total) eqn:Ht; [|done].
    apply Z.ltb_lt in Ht.
    eapply Qcle_trans; [exact Hscore|].
    apply Qc_le_plus_nonneg, of_int_nonneg. lia. }
  lia.
Qed.

(** The quality score of the summary of a cleaned frame is 75, the default
    of the exception handler, whenever the Imputer filled a value in some
    column, since adding up the improvements then compares the text of the
    imputation strategy with 0; otherwise it is 100. *)
Theorem quality_score_of_cleaned (df : dataframe) :
  let summary := build_audit_summary (clean_dataframe df).2 in
  ((exists col m, column_changes summary !! col = Some m
                  /\ is_Some (m !! "imputed_missing")) ->
   Story._calculate_quality_score summary = 75) /\
  ((forall col m, column_changes summary !! col = Some m ->
                  m !! "imputed_missing" = None) ->
   Story._calculate_quality_score summary = 100).
Proof.
  cbv zeta. rewrite build_audit_summary_id.
  unfold Story._calculate_quality_score. rewrite quality_score_body_cleaned.
  split.
  - intros (col & m & Hm & Himp).
    destruct (clean_entries_paired df col m Hm) as [Hpair _].
    apply Hpair in Himp as [v Hv].
    pose proof (clean_values_kind df col _ m v Hm Hv) as Hkind.
    destruct v as [z|s]; [by destruct Hkind|]. destruct Hkind as [_ Hne].
    rewrite (sum_over_None _ _ m); [done| |].
    + apply elem_of_dict_values. eauto.
    + apply (sum_over_None _ _ (VStr s)).
      * apply elem_of_dict_values. eauto.
      * simpl. by rewrite bool_decide_false.
  - intros Hnone.
    destruct (sum_over_nonneg
                (fun changes => Story.sum_over Story.improvement
                                  (Story.dict_values changes))
                (Story.dict_values (column_changes (clean_dataframe df).2)))
      as (s & -> & _); [|done].
    intros m [col Hm]%elem_of_dict_values.
    destruct (sum_over_nonneg Story.improvement (Story.dict_values m))
      as (n & Hn & Hn0 & _); [|eauto].
    intros v [k Hv]%elem_of_dict_values.
    pose proof (clean_values_kind df col k m v Hm Hv) as Hkind.
    destruct v as [z|s].
    + simpl. eexists. split; [done|]. destruct (0 <? z); lia.
    + destruct Hkind as [-> _].
      destruct (clean_entries_paired df col m Hm) as [Hpair _].
      assert (His : is_Some (m !! "imputed_missing"))
        by (apply Hpair; eauto).
      rewrite (Hnone col m Hm) in His. by destruct His.
Qed.

(** The percentage [max(0, 100 - a / b * 100)] of the three metrics, for a
    count [a] that is not negative and a positive number of rows [b]. *)
Lemma percentage_bounds (a b : Z) :
  0 <= a -> 0 < b ->
  let p := Story.py_max (Story.of_int 0)
             (Story.of_int 100 - Story.of_int a / Story.of_int b * Story.of_int 100)%Qc in
  (Story.of_int 0 <= p)%Qc /\ (p <= Story.of_int 100)%Qc /\
  (a = 0 -> p = Story.of_int 100) /\
  (0 < a -> (p < Story.of_int 100)%Qc) /\
  (a < b -> (Story.of_int 0 < p)%Qc).
Proof.
  intros Ha Hb.
  set (x := (Story.of_int a / Story.of_int b)%Qc).
  set (X := (x * Story.of_int 100)%Qc).
  set (y := (Story.of_int 100 - X)%Qc).
  assert (H0 : Story.of_int 0 = 0%Qc) by apply Z2Qc_inj_0.
  assert (H100 : (0 < Story.of_int 100)%Qc) by (by apply of_int_pos).
  assert (Hbpos : (0 < Story.of_int b)%Qc) by (by apply of_int_pos).
  assert (Hx : (0 <= x)%Qc) by (by apply div_nonneg).
  assert (HX : (0 <= X)%Qc).
  { apply Qcmult_nonneg_nonneg; [done|by apply Qclt_le_weak]. }
  assert (HyX : (y + X)%Qc = Story.of_int 100) by (unfold y; ring).
  assert (Hy : (y <= Story.of_int 100)%Qc).
  { apply (proj2 (Qcplus_le_mono_r y (Story.of_int 100) X)).
    rewrite HyX. by apply Qc_le_plus_nonneg. }
  simpl. unfold Story.py_max. rewrite H0. fold y.
  split; [|split; [|split; [|split]]].
  - case_bool_decide; [by apply Qclt_le_weak|apply Qcle_refl].
  - case_bool_decide; [done|by apply Qclt_le_weak].
  - intros ->.
    assert (Hy100 : y = Story.of_int 100).
    { unfold y, X, x. rewrite H0. unfold Qcdiv. ring. }
    rewrite Hy100. by rewrite bool_decide_true.
  - intros Hapos.
    assert (Hxpos : (0 < X)%Qc).
    { apply Qcmult_pos_pos; [|done]. unfold x, Qcdiv.
      apply Qcmult_pos_pos; [by apply of_int_pos|by apply Qcinv_pos]. }
    assert (Hylt : (y < Story.of_int 100)%Qc).
    { apply (proj2 (Qcplus_lt_mono_r y (Story.of_int 100) X)).
      rewrite HyX. rewrite <- (Qcplus_0_r (Story.of_int 100)) at 1.
      by apply Qcplus_lt_mono_l. }
    by case_bool_decide.
  - intros Hab.
    assert (Hx1 : (x < 1)%Qc).
    { apply (proj2 (Qcmult_lt_mono_pos_r x 1 (Story.of_int b) Hbpos)).
      replace (x * Story.of_int b)%Qc with (Story.of_int a).
      - rewrite Qcmult_1_l. by apply (proj1 (Z2Qc_inj_lt a b)).
      - unfold x. field. intros Hb0. rewrite Hb0 in Hbpos.
        by apply Qclt_not_eq in Hbpos. }
    assert (Hypos : (0 < y)%Qc).
    { apply (proj2 (Qcplus_lt_mono_r 0 y X)).
      rewrite HyX, Qcplus_0_l. unfold X.
      rewrite <- (Qcmult_1_l (Story.of_int 100)) at 2.
      by apply Qcmult_lt_compat_r. }
    by rewrite bool_decide_true.
Qed.

Lemma imputed_total (df : dataframe) :
  exists total,
    Story.sum_over (Story.get_count "imputed_missing")
      (Story.dict_values (column_changes (clean_dataframe df).2)) = Some total /\
    0 <= total /\
    ((forall col m, column_changes (clean_dataframe df).2 !! col = Some m ->
                    m !! "imputed_missing" = None) -> total = 0) /\
    ((exists col m, column_changes (clean_dataframe df).2 !! col = Some m
                    /\ is_Some (m !! "imputed_missing")) -> 0 < total).
Proof.
  destruct (sum_over_nonneg (Story.get_count "imputed_missing")
              (Story.dict_values (column_changes (clean_dataframe df).2)))
    as (total & Ht & Ht0 & Hzero & Hpos).
  { intros m [col Hm]%elem_of_dict_values. unfold Story.get_count.
    destruct (m !! "imputed_missing") as [v|] eqn:Hv; [|by exists 0].
    pose proof (clean_values_kind df col _ m v Hm Hv) as Hkind.
    destruct v as [z|s]; [|by destruct Hkind].
    exists z. split; [done|]. destruct Hkind as [_ Hz]. specialize (Hz eq_refl). lia. }
  exists total. split; [done|]. split; [done|]. split.
  - intros Hnone. apply Hzero.
    intros m [col Hm]%elem_of_dict_values. unfold Story.get_count.
    by rewrite (Hnone col m Hm).
  - intros (col & m & Hm & [v Hv]). apply Hpos.
    pose proof (clean_values_kind df col _ m v Hm Hv) as Hkind.
    destruct v as [z|s]; [|by destruct Hkind].
    exists m, z. split; [apply elem_of_dict_values; eauto|].
    unfold Story.get_count. rewrite Hv. split; [done|].
    destruct Hkind as [_ Hz]. specialize (Hz eq_refl). lia.
Qed.

(** The completeness of the summary of a cleaned frame with at least one row
    is a percentage between 0 and 100; it is 100 when the Imputer filled
    nothing and below 100 when it filled a value. *)
Theorem completeness_of_cleaned (df : dataframe) :
  let summary := build_audit_summary (clean_dataframe df).2 in
  let c := Story._calculate_completeness summary in
  0 < rows_before summary ->
  (Story.of_int 0 <= c)%Qc /\ (c <= Story.of_int 100)%Qc /\
  ((forall col m, column_changes summary !! col = Some m ->
                  m !! "imputed_missing" = None) -> c = Story.of_int 100) /\
  ((exists col m, column_changes summary !! col = Some m
                  /\ is_Some (m !! "imputed_missing")) ->
   (c < Story.of_int 100)%Qc).
Proof.
  cbv zeta. rewrite build_audit_summary_id. intros Hrb.
  destruct (imputed_total df) as (total & Ht & Ht0 & Hzero & Hpos).
  unfold Story._calculate_completeness. rewrite Ht. simpl.
  rewrite true_div_Some by lia. simpl.
  destruct (percentage_bounds total (rows_before (clean_dataframe df).2) Ht0 Hrb)
    as (H1 & H2 & H3 & H4 & _).
  split; [done|]. split; [done|]. split.
  - intros Hnone. apply H3. by apply Hzero.
  - intros Hsome. apply H4. by apply Hpos.
Qed.

(** The accuracy of the summary of a cleaned frame with at least one row is
    a percentage above 0 and at most 100, and it is 100 exactly when no
    duplicate was removed. *)
Theorem accuracy_of_cleaned (df : dataframe) :
  let summary := build_audit_summary (clean_dataframe df).2 in
  let acc := Story._calculate_accuracy summary in
  0 < rows_before summary ->
  (Story.of_int 0 < acc)%Qc /\ (acc <= Story.of_int 100)%Qc /\
  (duplicates_removed summary = 0 <-> acc = Story.of_int 100).
Proof.
  cbv zeta. rewrite build_audit_summary_id. intros Hrb.
  destruct (clean_row_counts df) as (after & Hra & _ & Hd0 & Hpos).
  destruct (Hpos Hrb) as [_ Hlt].
  unfold Story._calculate_accuracy.
  rewrite true_div_Some by lia. simpl.
  destruct (percentage_bounds (duplicates_removed (clean_dataframe df).2)
              (rows_before (clean_dataframe df).2) Hd0 Hrb)
    as (H1 & H2 & H3 & H4 & H5).
  split; [by apply H5|]. split; [done|]. split; [done|].
  intros Heq.
  destruct (decide (duplicates_removed (clean_dataframe df).2 = 0)) as [|Hne];
    [done|].
  assert (Hp : 0 < duplicates_removed (clean_dataframe df).2) by lia.
  apply H4 in Hp. simpl in Hp. rewrite Heq in Hp.
  by apply Qclt_not_eq in Hp.
Qed.

Lemma sum_over_is_Some {A} (f : A -> option Z) xs :
  (forall x, x ∈ xs -> is_Some (f x)) -> is_Some (Story.sum_over f xs).
Proof.
  induction xs as [|y xs IH]; intros Hf; [by eexists|].
  destruct IH as [s Hs].
  { intros x Hx. by apply Hf, list_elem_of_further. }
  destruct (Hf y (list_elem_of_here y xs)) as [n Hn].
  exists (n + s). simpl. by rewrite Hn, Hs.
Qed.

Lemma get_count_is_Some (df : dataframe) col m k :
  column_changes (clean_dataframe df).2 !! col = Some m ->
  k <> "imputation_strategy" ->
  is_Some (Story.get_count k m).
Proof.
  intros Hm Hk. unfold Story.get_count.
  destruct (m !! k) as [v|] eqn:Hv; [|by eexists].
  pose proof (clean_values_kind df col k m v Hm Hv) as Hkind.
  destruct v as [z|s]; [by eexists|]. by destruct Hkind.
Qed.

Lemma counts_total (df : dataframe) :
  is_Some
    (Story.sum_over
       (fun changes =>
          a ← Story.get_count "new_nulls_from_empty_strings" changes;
          b ← Story.get_count "parsed_to_datetime" changes;
          Some (a + b))
       (Story.dict_values (column_changes (clean_dataframe df).2))).
Proof.
  apply sum_over_is_Some. intros m [col Hm]%elem_of_dict_values.
  destruct (get_count_is_Some df col m "new_nulls_from_empty_strings" Hm)
    as [a ->]; [done|].
  destruct (get_count_is_Some df col m "parsed_to_datetime" Hm)
    as [b ->]; [done|].
  by eexists.
Qed.

(** For a frame without rows each of the three percentages is the default of
    its exception handler, 85, 90 and 95: the division by rows_before
    raises even though the count divided is 0. *)
Theorem metrics_of_empty_frame (df : dataframe) :
  let summary := build_audit_summary (clean_dataframe df).2 in
  rows_before summary = 0 ->
  Story._calculate_completeness summary = Story.of_int 85 /\
  Story._calculate_consistency summary = Story.of_int 90 /\
  Story._calculate_accuracy summary = Story.of_int 95.
Proof.
  cbv zeta. rewrite build_audit_summary_id. intros Hrb.
  destruct (imputed_total df) as (total & Ht & _).
  destruct (counts_total df) as [total' Ht'].
  unfold Story._calculate_completeness, Story._calculate_consistency,
    Story._calculate_accuracy.
  rewrite Ht, Ht', Hrb. simpl. done.
Qed.

(** ** The fill values of the imputer *)

Lemma occurrences_present (x : cell) (vals : list cell) :
  x <> NA ->
  occurrences x (filter (fun y => notna y = true) vals) = occurrences x vals.
Proof.
  intros Hx. unfold occurrences. induction vals as [|y vals IH]; [done|].
  rewrite (filter_cons _ y vals).
  destruct (decide (notna y = true)) as [Hy|Hy].
  - rewrite !filter_cons. destruct (decide (y = x)); simpl; by rewrite IH.
  - rewrite IH, (filter_cons (fun y => y = x)).
    destruct (decide (y = x)) as [->|]; [|done].
    by destruct x.
Qed.

Lemma mode_most_frequent vals v y :
  v ∈ mode vals -> y ∈ vals -> y <> NA ->
  (occurrences y vals <= occurrences v vals)%nat.
Proof.
  intros Hv Hy Hna. pose proof (mode_notna _ _ Hv) as Hvna.
  unfold mode in Hv.
  rewrite merge_sort_Permutation, elem_of_remove_dups in Hv.
  apply list_elem_of_filter in Hv as [Htop _].
  rewrite <- (occurrences_present y vals), <- (occurrences_present v vals) by done.
  rewrite Htop. apply max_list_elem_of_le.
  apply list_elem_of_fmap. exists y. split; [done|].
  apply list_elem_of_filter. split; [by destruct y|done].
Qed.

(** The branches of the imputer for columns that are not numeric (lines
    70-83): every null is replaced by one value.  When the column has a
    cell that is not null, that value is a non-null cell of the column that
    no other non-null value outnumbers; when it has none, it is NaT in a
    datetime column and the text Unknown elsewhere.  The number of nulls is
    recorded under imputed_missing, and the strategy is the text
    mode (datetime) for a datetime column and mode='v' elsewhere. *)
Theorem mode_imputation (c : column) (a : audit) :
  is_numeric_dtype c = false ->
  0 < count isna (values c) ->
  is_Some (column_changes a !! name c) ->
  exists val,
    values (impute c a).1
    = map (fun x => if isna x then val else x) (values c) /\
    ((forall x, x ∈ values c -> x = NA) /\
     val = (if is_datetime64_any_dtype c then NA else Str "Unknown")
     \/
     val ∈ values c /\ val <> NA /\
     forall y, y ∈ values c -> y <> NA ->
       (occurrences y (values c) <= occurrences val (values c))%nat) /\
    exists m,
      column_changes (impute c a).2 !! name c = Some m /\
      m !! "imputed_missing" = Some (VInt (count isna (values c))) /\
      m !! "imputation_strategy"
      = Some (VStr (if is_datetime64_any_dtype c then "mode (datetime)"
                    else "mode='" +:+ py_str val +:+ "'")).
Proof.
  intros Hnum Hmiss [m0 Hm0].
  assert (Hz : (count isna (values c) =? 0) = false) by lia.
  set (val := match mode (values c) with
              | v :: _ => v
              | [] => if is_datetime64_any_dtype c then NA else Str "Unknown"
              end).
  exists val. split; [|split].
  - unfold impute. rewrite Hz, Hnum. subst val.
    destruct (is_datetime64_any_dtype c), (mode (values c)); reflexivity.
  - subst val. destruct (mode (values c)) as [|v rest] eqn:Hmode.
    + left. split; [|done]. by apply mode_nil.
    + right. assert (Hv : v ∈ mode (values c)) by (rewrite Hmode; left).
      split; [by apply mode_elem|]. split; [by eapply mode_notna|].
      intros y Hy Hna. by apply mode_most_frequent.
  - exists (write (impute_log c) m0).
    rewrite impute_view. simpl. rewrite log_column_changes.
    rewrite lookup_alter_eq, Hm0. simpl.
    split; [done|].
    unfold impute_log, imputed_with. rewrite Hz, Hnum. subst val.
    destruct (is_datetime64_any_dtype c), (mode (values c)); simpl;
      (split; [by rewrite lookup_insert_ne, lookup_insert_eq
              |by rewrite lookup_insert_eq]).
Qed.

Global Instance double_le_refl : Reflexive double_le.
Proof.
  intros [p|[]]; unfold double_le; simpl; [|done..].
  by apply bool_decide_eq_true.
Qed.

Global Instance double_le_trans : Transitive double_le.
Proof.
  intros [p|[]] [q|[]] [r|[]]; unfold double_le; simpl; try done.
  rewrite !bool_decide_eq_true. apply Qcle_trans.
Qed.

Global Instance double_le_total : Total double_le.
Proof.
  intros [p|[]] [q|[]]; unfold double_le; simpl; auto.
  rewrite !bool_decide_eq_true. apply Qc_le_total.
Qed.






(** ** Columns the first three stages pass over *)

Lemma impute_col_fills (c : column) :
  exists val,
    impute_col c
    = set_values c (map (fun x => if isna x then val else x) (values c)).
Proof.
  unfold impute_col, impute, fillna.
  destruct (count isna (values c) =? 0) eqn:Hz.
  - exists NA. simpl. rewrite (map_fixed _ (values c)).
    + by rewrite set_values_same.
    + intros x _. by destruct x.
  - destruct (is_numeric_dtype c); [by eexists|].
    destruct (is_datetime64_any_dtype c); by eexists.
Qed.

(** A column that is not of dtype object and whose name has no date hint
    passes through clean_dataframe with its name and dtype, its cells only
    filtered by the row mask of the deduplicator, which is the same for all
    such columns, and then its nulls filled with one value; the audit holds
    nothing for it but the two keys of the imputer. *)
Theorem plain_columns_pass_through (df : dataframe) :
  NoDup (map name df) ->
  exists keep : list bool,
    forall (i : nat) (c : column),
      df !! i = Some c ->
      col_dtype c <> object ->
      name_hints_datetime (name c) = false ->
      exists (val : cell) (m : gmap string value),
        (clean_dataframe df).1 !! i
        = Some {| name := name c; col_dtype := col_dtype c;
                  values := map (fun x => if isna x then val else x)
                              (select keep (values c)) |} /\
        column_changes (clean_dataframe df).2 !! name c = Some m /\
        forall k, is_Some (m !! k) ->
          k = "imputed_missing" \/ k = "imputation_strategy".
Proof.
  intros Hnd. exists (map negb (duplicated (normalized (stage3 df)))).
  intros i c Hi Hobj Hhint.
  destruct (clean_dataframe_column df i c Hnd Hi) as [Hcol Hchg].
  cbv zeta in Hcol, Hchg.
  assert (Ho : is_object c = false) by (by apply bool_decide_eq_false).
  assert (H1 : trim_col c = c) by (unfold trim_col; by rewrite Ho).
  assert (L1 : trim_log c = []) by (unfold trim_log; by rewrite Ho).
  rewrite H1 in Hcol, Hchg. rewrite L1 in Hchg.
  assert (H2 : parse_col c = c) by (unfold parse_col, parses; by rewrite Hhint).
  assert (L2 : parse_log c = []) by (unfold parse_log, parses; by rewrite Hhint).
  rewrite H2 in Hcol, Hchg. rewrite L2 in Hchg.
  assert (H3 : email_col c = c) by (unfold email_col, is_email; by rewrite Ho).
  assert (L3 : email_log c = []) by (unfold email_log, is_email; by rewrite Ho).
  rewrite H3 in Hcol, Hchg. rewrite L3 in Hchg.
  destruct (impute_col_fills (after_dedup df c)) as [val Hval].
  exists val, (write (impute_log (after_dedup df c)) ∅).
  split; [|split].
  - rewrite Hcol, Hval. reflexivity.
  - exact Hchg.
  - intros k Hk. apply impute_log_keys with (c := after_dedup df c).
    destruct (decide (k ∈ map fst (impute_log (after_dedup df c))))
      as [Hin|Hin]; [done|].
    rewrite (write_other _ _ _ Hin), lookup_empty in Hk.
    by destruct Hk.
Qed.

(** ** The consistency metric of the story *)

Lemma sum_over_nonpos {A} (f : A -> option Z) xs :
  (forall x, x ∈ xs -> exists n, f x = Some n /\ n <= 0) ->
  exists s, Story.sum_over f xs = Some s /\ s <= 0 /\
    ((exists x n, x ∈ xs /\ f x = Some n /\ n < 0) -> s < 0).
Proof.
  induction xs as [|y xs IH]; intros Hf.
  - exists 0. split; [done|]. split; [done|].
    by intros (x & n & ?%elem_of_nil & _).
  - destruct IH as (s & Hs & Hneg & Hsome).
    { intros x Hx. by apply Hf, list_elem_of_further. }
    destruct (Hf y (list_elem_of_here y xs)) as (n & Hn & Hn0).
    exists (n + s). simpl. rewrite Hn, Hs. simpl.
    split; [done|]. split; [lia|].
    intros (x & k & [->|Hx]%elem_of_cons & Hk & Hk0).
    + rewrite Hn in Hk. injection Hk as ->. lia.
    + assert (s < 0) by (apply Hsome; eauto). lia.
Qed.

Lemma percentage_above (a b : Z) :
  a <= 0 -> 0 < b ->
  let p := Story.py_max (Story.of_int 0)
             (Story.of_int 100 - Story.of_int a / Story.of_int b * Story.of_int 100)%Qc in
  (Story.of_int 100 <= p)%Qc /\
  (a = 0 -> p = Story.of_int 100) /\
  (a < 0 -> (Story.of_int 100 < p)%Qc).
Proof.
  intros Ha Hb.
  set (x := (Story.of_int (- a) / Story.of_int b)%Qc).
  set (X := (x * Story.of_int 100)%Qc).
  set (y := (Story.of_int 100 - Story.of_int a / Story.of_int b
                                * Story.of_int 100)%Qc).
  assert (H0 : Story.of_int 0 = 0%Qc) by apply Z2Qc_inj_0.
  assert (H100 : (0 < Story.of_int 100)%Qc) by (by apply of_int_pos).
  assert (Hx : (0 <= x)%Qc) by (apply div_nonneg; lia).
  assert (HX : (0 <= X)%Qc).
  { apply Qcmult_nonneg_nonneg; [done|by apply Qclt_le_weak]. }
  assert (Hopp : Story.of_int (- a) = (- Story.of_int a)%Qc)
    by apply Z2Qc_inj_opp.
  assert (HyX : y = (Story.of_int 100 + X)%Qc).
  { unfold y, X, x. rewrite Hopp. unfold Qcdiv, Qcminus. ring. }
  assert (Hy : (Story.of_int 100 <= y)%Qc).
  { rewrite HyX. by apply Qc_le_plus_nonneg. }
  assert (Hypos : (0 < y)%Qc) by (eapply Qclt_le_trans; eassumption).
  simpl. unfold Story.py_max. rewrite H0. fold y.
  rewrite bool_decide_true by done.
  split; [done|]. split.
  - intros ->. rewrite HyX. unfold X, x. change (- 0) with 0.
    rewrite H0. unfold Qcdiv. ring.
  - intros Hneg.
    assert (HXpos : (0 < X)%Qc).
    { apply Qcmult_pos_pos; [|done]. unfold x, Qcdiv.
      apply Qcmult_pos_pos; [apply of_int_pos; lia|].
      apply Qcinv_pos. by apply of_int_pos. }
    rewrite HyX. rewrite <- (Qcplus_0_r (Story.of_int 100)) at 1.
    by apply Qcplus_lt_mono_l.
Qed.

(** The consistency of the summary of a cleaned frame with at least one row
    is 100 when no column has an entry of the text stage or of the date
    stage.  It is above 100 when the only such entries are negative null
    deltas of the text stage, as a column in which a null became the text
    nan records one: the metric is bounded below by 0 only. *)
Theorem consistency_of_cleaned (df : dataframe) :
  let summary := build_audit_summary (clean_dataframe df).2 in
  let c := Story._calculate_consistency summary in
  0 < rows_before summary ->
  (forall col m, column_changes summary !! col = Some m ->
     m !! "parsed_to_datetime" = None) ->
  (forall col m z, column_changes summary !! col = Some m ->
     m !! "new_nulls_from_empty_strings" = Some (VInt z) -> z < 0) ->
  (Story.of_int 100 <= c)%Qc /\
  ((forall col m, column_changes summary !! col = Some m ->
      m !! "new_nulls_from_empty_strings" = None) -> c = Story.of_int 100) /\
  ((exists col m, column_changes summary !! col = Some m /\
      is_Some (m !! "new_nulls_from_empty_strings")) ->
   (Story.of_int 100 < c)%Qc).
Proof.
  cbv zeta. rewrite build_audit_summary_id. intros Hrb Hparsed Hneg.
  set (f := fun changes : gmap string value =>
              a ← Story.get_count "new_nulls_from_empty_strings" changes;
              b ← Story.get_count "parsed_to_datetime" changes;
              Some (a + b)).
  assert (Hf : forall col m,
             column_changes (clean_dataframe df).2 !! col = Some m ->
             exists n, f m = Some n /\ n <= 0 /\
               (m !! "new_nulls_from_empty_strings" = None -> n = 0) /\
               (is_Some (m !! "new_nulls_from_empty_strings") -> n < 0)).
  { intros col m Hm. unfold f, Story.get_count.
    rewrite (Hparsed col m Hm).
    destruct (m !! "new_nulls_from_empty_strings") as [v|] eqn:Hv.
    - pose proof (clean_values_kind df col _ m v Hm Hv) as Hkind.
      destruct v as [z|s]; [|by destruct Hkind].
      pose proof (Hneg col m z Hm Hv).
      exists (z + 0). simpl. split; [done|]. split; [lia|].
      split; [done|]. intros _. lia.
    - exists 0. simpl. split; [done|]. split; [done|]. split; [done|].
      by intros [? ?]. }
  destruct (sum_over_nonpos f
              (Story.dict_values (column_changes (clean_dataframe df).2)))
    as (total & Ht & Ht0 & Hlt).
  { intros m [col Hm]%elem_of_dict_values.
    destruct (Hf col m Hm) as (n & Hn & Hn0 & _). eauto. }
  unfold Story._calculate_consistency. fold f. rewrite Ht. simpl.
  rewrite true_div_Some by lia. simpl.
  destruct (percentage_above total (rows_before (clean_dataframe df).2) Ht0 Hrb)
    as (H1 & H2 & H3).
  split; [done|]. split.
  - intros Hnone. apply H2.
    destruct (sum_over_nonneg f
                (Story.dict_values (column_changes (clean_dataframe df).2)))
      as (total' & Ht' & _ & Hzero & _).
    { intros m [col Hm]%elem_of_dict_values.
      destruct (Hf col m Hm) as (n & Hn & _ & Hz & _).
      rewrite (Hz (Hnone col m Hm)) in Hn. exists 0. by split. }
    rewrite Ht in Ht'. injection Ht' as <-. apply Hzero.
    intros m [col Hm]%elem_of_dict_values.
    destruct (Hf col m Hm) as (n & Hn & _ & Hz & _).
    by rewrite (Hz (Hnone col m Hm)) in Hn.
  - intros (col & m & Hm & Hsome). apply H3, Hlt.
    destruct (Hf col m Hm) as (n & Hn & _ & _ & Hn0).
    exists m, n. split; [apply elem_of_dict_values; eauto|].
    split; [done|]. by apply Hn0.
Qed.

End Properties.

(** * Concrete runs *)

Lemma C7_temporal_parser_witness :
  NoDup (map name events) /\
  (for_columns (parse_dates (pd := Sample.pandas)) events (new_audit events)).1
  = [ Column "created_at" datetime64
        [Ts 1672531200000000000; NA; Ts 1675209600000000000];
      Column "note" object [Str "2023-01-01"; Str "a"; Str "b"] ] /\
  column_changes
    (for_columns (parse_dates (pd := Sample.pandas)) events (new_audit events)).2
    !! "created_at"
  = Some {[ "parsed_to_datetime" := VInt 2 ]}.
Proof.
  assert (Hnd : NoDup (map name events)) by by_compute.
  split; [exact Hnd|].
  pose proof (C7_temporal_parser (pd := Sample.pandas) events (new_audit events)
                0 _ Hnd eq_refl) as [_ [H0 Ha]].
  pose proof (C7_temporal_parser (pd := Sample.pandas) events (new_audit events)
                1 _ Hnd eq_refl) as [_ [H1 _]].
  split.
  - apply list_eq. intros [|[|i]]; [exact H0|exact H1|reflexivity].
  - exact Ha.
Defined.





(** C4, as stated, fails: the entry of the email column is not empty. *)
Lemma C4_counterexample :
  ~ (forall c, c ∈ header_only ->
               column_changes (Sample.clean header_only).2 !! name c = Some ∅).
Proof.
  intros H.
  specialize (H (Column "Email" object [])
                ltac:(apply list_elem_of_further, list_elem_of_here)).
  assert (Hm : column_changes (Sample.clean header_only).2 !! "Email" <> Some ∅)
    by by_compute.
  exact (Hm H).
Qed.

Lemma C4_zero_rows_witness :
  NoDup (map name header_only) /\
  (forall c, c ∈ header_only -> values c = []) /\
  rows_before (Sample.clean header_only).2 = 0 /\
  rows_after (Sample.clean header_only).2 = Some 0 /\
  duplicates_removed (Sample.clean header_only).2 = 0 /\
  column_changes (Sample.clean header_only).2 !! "id" = Some ∅ /\
  column_changes (Sample.clean header_only).2 !! "Email"
  = Some (<["emails_valid_after" := VInt 0]>
            (<["emails_valid_before" := VInt 0]> ∅)).
Proof.
  assert (Hnd : NoDup (map name header_only)) by by_compute.
  assert (Hempty : forall c, c ∈ header_only -> values c = []).
  { intros c [->|[->|[]%elem_of_nil]%elem_of_cons]%elem_of_cons; reflexivity. }
  split; [exact Hnd|]. split; [exact Hempty|].
  destruct (C4_zero_rows (pd := Sample.pandas) header_only Hnd Hempty)
    as (Hrb & Hra & Hdr & Hcc).
  split; [exact Hrb|]. split; [exact Hra|]. split; [exact Hdr|]. split.
  - exact (Hcc (Column "id" object []) ltac:(apply list_elem_of_here)).
  - exact (Hcc (Column "Email" object [])
             ltac:(apply list_elem_of_further, list_elem_of_here)).
Defined.

Lemma C6_deduplicator_witness :
  Forall (fun c => length (values c) = len people) people /\
  first_occurrences (rows (normalized people)) = [0; 2]%nat /\
  (remove_duplicates people (new_audit people)).1
  = [ Column "name" object [Str "John"; Str "Ann"];
      Column "email" object [Str "a@x.com"; Str "b@y.org"] ].
Proof.
  assert (Hwf : Forall (fun c => length (values c) = len people) people).
  { repeat constructor. }
  split; [exact Hwf|].
  destruct (C6_deduplicator people (new_audit people) Hwf)
    as (Hdf & _).
  split; [reflexivity|].
  rewrite Hdf. reflexivity.
Defined.

Lemma C8_email_normalizer_witness :
  NoDup (map name contacts) /\
  exists c' m,
    (for_columns (normalize_emails (pd := Sample.pandas)) contacts
       (new_audit contacts)).1 !! 0%nat = Some c' /\
    values c' !! 0%nat = Some (Str "a@b.com") /\
    values c' !! 1%nat = Some (Str "bad") /\
    values c' !! 2%nat = Some NA /\
    column_changes
      (for_columns (normalize_emails (pd := Sample.pandas)) contacts
         (new_audit contacts)).2 !! "email" = Some m /\
    m !! "emails_valid_before" = Some (VInt 1) /\
    m !! "emails_valid_after" = Some (VInt 1).
Proof.
  assert (Hnd : NoDup (map name contacts)) by by_compute.
  split; [exact Hnd|].
  destruct (C8_email_normalizer (pd := Sample.pandas) contacts (new_audit contacts)
              0 (Column "email" object [Str "A@B.COM"; Str "bad"; NA])
              Hnd eq_refl eq_refl eq_refl (ex_intro _ ∅ eq_refl))
    as (c' & m & Hc' & _ & _ & Hstr & Hna & Hm & Hb & Ha).
  exists c', m.
  split; [exact Hc'|].
  split; [exact (Hstr 0%nat "A@B.COM" eq_refl)|].
  split; [exact (Hstr 1%nat "bad" eq_refl)|].
  split; [exact (Hna 2%nat eq_refl)|].
  split; [exact Hm|].
  split; [exact Hb|].
  rewrite Ha. do 2 f_equal.
  injection Hc' as <-. reflexivity.
Defined.

Lemma C10_emails_valid_monotone_witness :
  NoDup (map name mixed_case) /\
  exists m,
    column_changes (Sample.clean mixed_case).2 !! "Email" = Some m /\
    m !! "emails_valid_before" = Some (VInt 2) /\
    m !! "emails_valid_after" = Some (VInt 2) /\
    2 <= 2.
Proof.
  assert (Hnd : NoDup (map name mixed_case)) by by_compute.
  split; [exact Hnd|].
  destruct (column_changes (Sample.clean mixed_case).2 !! "Email")
    as [m|] eqn:Hm; [|vm_compute in Hm; discriminate].
  assert (Hb : m !! "emails_valid_before" = Some (VInt 2)).
  { assert (H : column_changes (Sample.clean mixed_case).2 !! "Email"
                ≫= (fun m => m !! "emails_valid_before") = Some (VInt 2))
      by (vm_compute; reflexivity).
    rewrite Hm in H. exact H. }
  assert (Ha : m !! "emails_valid_after" = Some (VInt 2)).
  { assert (H : column_changes (Sample.clean mixed_case).2 !! "Email"
                ≫= (fun m => m !! "emails_valid_after") = Some (VInt 2))
      by (vm_compute; reflexivity).
    rewrite Hm in H. exact H. }
  exists m. split; [reflexivity|]. split; [exact Hb|]. split; [exact Ha|].
  exact (C10_emails_valid_monotone (pd := Sample.pandas) mixed_case "Email" m
           2 2 Hnd Hm Hb Ha).
Defined.

(** C5, as stated, fails: the first run fills the missing price with the
    median 1.0, which makes the two rows equal, and the second run removes
    one of them. *)
Lemma C5_counterexample :
  well_formed refilled /\
  (Sample.clean refilled).1
  = [ Column "item" object [Str "x"; Str "x"];
      Column "price" float64 [Z2f 1; Z2f 1] ] /\
  ~ (duplicates_removed (Sample.clean (Sample.clean refilled).1).2 = 0 /\
     rows_after (Sample.clean (Sample.clean refilled).1).2
     = Some (rows_before (Sample.clean (Sample.clean refilled).1).2)).
Proof.
  split; [split; [by_compute|split; repeat constructor]|].
  split; [by_compute|].
  intros [Hdup _]. vm_compute in Hdup. discriminate.
Qed.

Lemma C5_second_run_witness :
  well_formed restocked /\
  (Sample.clean restocked).1
  = [ Column "item" object [Str "x"; Str "y"];
      Column "price" float64 [Z2f 1; Z2f 1] ] /\
  change (Sample.clean restocked).2 "price" "imputed_missing" = Some (VInt 1) /\
  (Sample.clean (Sample.clean restocked).1).1 = (Sample.clean restocked).1 /\
  duplicates_removed (Sample.clean (Sample.clean restocked).1).2 = 0 /\
  rows_after (Sample.clean (Sample.clean restocked).1).2
  = Some (rows_before (Sample.clean (Sample.clean restocked).1).2).
Proof.
  assert (Hwf : well_formed restocked).
  { split; [by_compute|split; repeat constructor]. }
  assert (Hout : (Sample.clean restocked).1
                 = [ Column "item" object [Str "x"; Str "y"];
                     Column "price" float64 [Z2f 1; Z2f 1] ]) by by_compute.
  assert (Hkeys : NoDup (rows (normalized (Sample.clean restocked).1)))
    by by_compute.
  assert (Hin : forall c, c ∈ (Sample.clean restocked).1 ->
                  name_hints_datetime (name c) = false /\
                  PyStr.contains "email" (PyStr.lower (name c)) = false).
  { intros c Hc. rewrite Hout in Hc.
    apply elem_of_cons in Hc as [->|Hc]; [by split|].
    apply list_elem_of_singleton in Hc as ->. by split. }
  assert (Hhint : forall c, c ∈ (Sample.clean restocked).1 ->
                    name_hints_datetime (name c) = true ->
                    col_dtype c = datetime64 \/
                    count notna (to_datetime (pd := Sample.pandas) (values c)) = 0).
  { intros c Hc Hh. destruct (Hin c Hc) as [Hf _]. congruence. }
  split; [exact Hwf|]. split; [exact Hout|].
  split; [vm_compute; reflexivity|].
  destruct (C5_second_run (pd := Sample.pandas) restocked Hwf Hkeys Hhint)
    as (_ & Hsame & Hdup & Hrows & _).
  split; [|split; [exact Hdup|exact Hrows]].
  apply Hsame. intros c Hc _ He. destruct (Hin c Hc) as [_ Hf]. congruence.
Defined.

(** The second run is not always the identity on the frame: the text
    Unknown that the imputer wrote into an email column is lower-cased. *)
Lemma second_run_lowers_unknown :
  (Sample.clean blank_emails).1 = [ Column "email" object [Str "Unknown"] ] /\
  (Sample.clean (Sample.clean blank_emails).1).1
  = [ Column "email" object [Str "unknown"] ] /\
  duplicates_removed (Sample.clean (Sample.clean blank_emails).1).2 = 0.
Proof. split; [by_compute|]. split; [by_compute|]. vm_compute. reflexivity. Qed.

Lemma orders_equal_lengths :
  Forall (fun c => length (values c) = len orders) orders.
Proof. repeat constructor. Qed.

Lemma change_entry (a : audit) (col k : string) (v : value) :
  change a col k = Some v ->
  exists m, column_changes a !! col = Some m /\ m !! k = Some v.
Proof.
  unfold change. destruct (column_changes a !! col) as [m|]; simpl; [|done].
  intros Hk. by exists m.
Defined.

Lemma audit_entry_schema_witness :
  exists m,
    column_changes (Sample.clean orders).2 !! "amount" = Some m /\
    m !! "imputation_strategy" = Some (VStr "median=15.0") /\
    entry_schema "imputation_strategy" (VStr "median=15.0").
Proof.
  destruct (change_entry (Sample.clean orders).2 "amount" "imputation_strategy"
              (VStr "median=15.0") ltac:(vm_compute; reflexivity))
    as (m & Hm & Hk).
  exists m. split; [exact Hm|]. split; [exact Hk|].
  exact (audit_entry_schema (pd := Sample.pandas) orders _ _ _ _ Hm Hk).
Defined.

Lemma audit_entry_bounds_witness :
  Forall (fun c => length (values c) = len orders) orders /\
  rows_before (Sample.clean orders).2 = 4 /\
  rows_after (Sample.clean orders).2 = Some 3 /\
  exists m,
    column_changes (Sample.clean orders).2 !! "email" = Some m /\
    m !! "new_nulls_from_empty_strings" = Some (VInt (-1)) /\
    entry_bounds 4 3 "new_nulls_from_empty_strings" (VInt (-1)).
Proof.
  split; [exact orders_equal_lengths|].
  assert (Hrb : rows_before (Sample.clean orders).2 = 4) by (vm_compute; reflexivity).
  assert (Hra : rows_after (Sample.clean orders).2 = Some 3) by (vm_compute; reflexivity).
  split; [exact Hrb|]. split; [exact Hra|].
  destruct (change_entry (Sample.clean orders).2 "email"
              "new_nulls_from_empty_strings" (VInt (-1))
              ltac:(vm_compute; reflexivity))
    as (m & Hm & Hk).
  exists m. split; [exact Hm|]. split; [exact Hk|].
  rewrite <- Hrb.
  exact (audit_entry_bounds (pd := Sample.pandas) orders _ _ _ _ 3
           orders_equal_lengths Hra Hm Hk).
Defined.

Lemma audit_entry_paired_witness :
  exists m,
    column_changes (Sample.clean orders).2 !! "name" = Some m /\
    m !! "imputed_missing" = Some (VInt 1) /\
    entry_paired m.
Proof.
  destruct (change_entry (Sample.clean orders).2 "name" "imputed_missing"
              (VInt 1) ltac:(vm_compute; reflexivity))
    as (m & Hm & Hk).
  exists m. split; [exact Hm|]. split; [exact Hk|].
  exact (audit_entry_paired (pd := Sample.pandas) orders _ _ Hm).
Defined.

Lemma cleaned_frame_shape_witness :
  Forall (fun c => length (values c) = len orders) orders /\
  rows_after (Sample.clean orders).2 = Some 3 /\
  map name (Sample.clean orders).1 = ["name"; "email"; "amount"; "created_at"] /\
  Forall (fun c => Z.of_nat (length (values c)) = 3) (Sample.clean orders).1.
Proof.
  assert (Hra : rows_after (Sample.clean orders).2 = Some 3) by (vm_compute; reflexivity).
  split; [exact orders_equal_lengths|]. split; [exact Hra|].
  exact (cleaned_frame_shape (pd := Sample.pandas) orders 3
           orders_equal_lengths Hra).
Defined.

Lemma remove_duplicates_idempotent_witness :
  Forall (fun c => length (values c) = len people) people /\
  remove_duplicates (remove_duplicates people (new_audit people)).1
    (new_audit people)
  = ([ Column "name" object [Str "John"; Str "Ann"];
       Column "email" object [Str "a@x.com"; Str "b@y.org"] ],
     new_audit people).
Proof.
  assert (Hwf : Forall (fun c => length (values c) = len people) people).
  { repeat constructor. }
  split; [exact Hwf|].
  destruct (remove_duplicates_idempotent people (new_audit people)
              (new_audit people) Hwf) as [_ Hfix].
  exact Hfix.
Defined.

Lemma cleaned_text_is_stripped_witness :
  Column "name" object [Str "John"; Str "nan"; Str "John"]
    ∈ (Sample.clean orders).1 /\
  exists s, Str "nan" = Str s /\ PyStr.strip s = s /\ s <> EmptyString.
Proof.
  assert (Hc : Column "name" object [Str "John"; Str "nan"; Str "John"]
               ∈ (Sample.clean orders).1).
  { vm_compute. apply list_elem_of_here. }
  split; [exact Hc|].
  exact (cleaned_text_is_stripped (pd := Sample.pandas) orders _ (Str "nan")
           Hc eq_refl ltac:(apply list_elem_of_further, list_elem_of_here)).
Defined.

Lemma EMAIL_RE_accepts_trailing_newline_witness :
  EMAIL_RE_match "a@b.co" = true /\
  EMAIL_RE_match ("a@b.co" +:+ String "010"%char EmptyString) = true.
Proof.
  split; [reflexivity|].
  exact (EMAIL_RE_accepts_trailing_newline "a@b.co" eq_refl eq_refl).
Defined.

Lemma completeness_of_cleaned_witness :
  0 < rows_before (build_audit_summary (Sample.clean orders).2) /\
  (Story.of_int 0
   <= Story._calculate_completeness (build_audit_summary (Sample.clean orders).2))%Qc /\
  (Story._calculate_completeness (build_audit_summary (Sample.clean orders).2)
   < Story.of_int 100)%Qc.
Proof.
  assert (Hrb : 0 < rows_before (build_audit_summary (Sample.clean orders).2))
    by (vm_compute; reflexivity).
  split; [exact Hrb|].
  destruct (completeness_of_cleaned (pd := Sample.pandas) orders Hrb)
    as (H0 & _ & _ & Hlt).
  split; [exact H0|].
  apply Hlt. rewrite build_audit_summary_id.
  destruct (change_entry (Sample.clean orders).2 "amount" "imputed_missing"
              (VInt 1) ltac:(vm_compute; reflexivity))
    as (m & Hm & Hk).
  exists "amount", m. split; [exact Hm|]. rewrite Hk. by eexists.
Defined.

Lemma accuracy_of_cleaned_witness :
  0 < rows_before (build_audit_summary (Sample.clean orders).2) /\
  (Story.of_int 0
   < Story._calculate_accuracy (build_audit_summary (Sample.clean orders).2))%Qc /\
  (Story._calculate_accuracy (build_audit_summary (Sample.clean orders).2)
   <= Story.of_int 100)%Qc.
Proof.
  assert (Hrb : 0 < rows_before (build_audit_summary (Sample.clean orders).2))
    by (vm_compute; reflexivity).
  split; [exact Hrb|].
  destruct (accuracy_of_cleaned (pd := Sample.pandas) orders Hrb)
    as (H0 & H100 & _).
  split; [exact H0|exact H100].
Defined.

Lemma metrics_of_empty_frame_witness :
  rows_before (build_audit_summary (Sample.clean header_only).2) = 0 /\
  Story._calculate_completeness (build_audit_summary (Sample.clean header_only).2)
  = Story.of_int 85 /\
  Story._calculate_consistency (build_audit_summary (Sample.clean header_only).2)
  = Story.of_int 90 /\
  Story._calculate_accuracy (build_audit_summary (Sample.clean header_only).2)
  = Story.of_int 95.
Proof.
  assert (Hrb : rows_before (build_audit_summary (Sample.clean header_only).2) = 0)
    by (vm_compute; reflexivity).
  split; [exact Hrb|].
  exact (metrics_of_empty_frame (pd := Sample.pandas) header_only Hrb).
Defined.

Lemma mode_imputation_witness :
  is_numeric_dtype cities = false /\
  0 < count isna (values cities) /\
  values (impute (pd := Sample.pandas) cities (new_audit [cities])).1
  = [Str "Rome"; Str "Paris"; Str "Paris"; Str "Paris"] /\
  exists m,
    column_changes (impute (pd := Sample.pandas) cities (new_audit [cities])).2
      !! "city" = Some m /\
    m !! "imputed_missing" = Some (VInt 1) /\
    m !! "imputation_strategy" = Some (VStr "mode='Paris'").
Proof.
  assert (Hnum : is_numeric_dtype cities = false) by reflexivity.
  assert (Hmiss : 0 < count isna (values cities)) by (vm_compute; reflexivity).
  assert (Hsome : is_Some (column_changes (new_audit [cities]) !! name cities)).
  { exists ∅. reflexivity. }
  split; [exact Hnum|]. split; [exact Hmiss|].
  destruct (mode_imputation (pd := Sample.pandas) cities
              (new_audit [cities]) Hnum Hmiss Hsome)
    as (val & Hvals & _ & m & Hm & Hk1 & Hk2).
  assert (Hval : val = Str "Paris").
  { assert (H : values (impute (pd := Sample.pandas) cities (new_audit [cities])).1 !! 1%nat
                = Some (Str "Paris")) by (vm_compute; reflexivity).
    rewrite Hvals in H. simpl in H. congruence. }
  subst val. split.
  - rewrite Hvals. reflexivity.
  - exists m. split; [exact Hm|]. split; [exact Hk1|]. exact Hk2.
Defined.


Lemma plain_columns_pass_through_witness :
  NoDup (map name orders) /\
  exists keep : list bool,
    col_dtype (Column "amount" float64 [Z2f 10; Z2f 10; Z2f 20; NA]) <> object /\
    name_hints_datetime "amount" = false /\
    exists (val : cell) (m : gmap string value),
      (Sample.clean orders).1 !! 2%nat
      = Some (Column "amount" float64
                (map (fun x => if isna x then val else x)
                   (select keep [Z2f 10; Z2f 10; Z2f 20; NA]))) /\
      column_changes (Sample.clean orders).2 !! "amount" = Some m /\
      forall k, is_Some (m !! k) ->
        k = "imputed_missing" \/ k = "imputation_strategy".
Proof.
  assert (Hnd : NoDup (map name orders)) by by_compute.
  split; [exact Hnd|].
  destruct (plain_columns_pass_through (pd := Sample.pandas) orders Hnd)
    as [keep Hkeep].
  exists keep.
  assert (Hd : col_dtype (Column "amount" float64 [Z2f 10; Z2f 10; Z2f 20; NA])
               <> object) by discriminate.
  assert (Hh : name_hints_datetime "amount" = false) by reflexivity.
  split; [exact Hd|]. split; [exact Hh|].
  exact (Hkeep 2%nat _ eq_refl Hd Hh).
Defined.

Lemma consistency_of_cleaned_witness :
  0 < rows_before (build_audit_summary (Sample.clean contacts).2) /\
  change (build_audit_summary (Sample.clean contacts).2)
    "email" "new_nulls_from_empty_strings" = Some (VInt (-1)) /\
  (Story.of_int 100
   < Story._calculate_consistency (build_audit_summary (Sample.clean contacts).2))%Qc.
Proof.
  set (summary := build_audit_summary (Sample.clean contacts).2).
  assert (Hrb : 0 < rows_before summary) by (vm_compute; reflexivity).
  assert (Hnn : change summary "email" "new_nulls_from_empty_strings"
                = Some (VInt (-1))) by (vm_compute; reflexivity).
  assert (Hparsed : forall col m, column_changes summary !! col = Some m ->
                                  m !! "parsed_to_datetime" = None).
  { intros col m Hm.
    assert (Hall : map_Forall
                     (fun (_ : string) (m : gmap string value) =>
                        m !! "parsed_to_datetime" = None)
                     (column_changes summary)) by by_compute.
    exact (map_Forall_lookup_1 _ _ _ _ Hall Hm). }
  assert (Hneg : forall col m z, column_changes summary !! col = Some m ->
                   m !! "new_nulls_from_empty_strings" = Some (VInt z) -> z < 0).
  { intros col m z Hm Hz.
    assert (Hall : map_Forall
                     (fun (_ : string) (m : gmap string value) =>
                        m !! "new_nulls_from_empty_strings" = None \/
                        m !! "new_nulls_from_empty_strings" = Some (VInt (-1)))
                     (column_changes summary)) by by_compute.
    destruct (map_Forall_lookup_1 _ _ _ _ Hall Hm) as [Hn|Hn];
      rewrite Hn in Hz; [discriminate|].
    injection Hz as <-. reflexivity. }
  split; [exact Hrb|]. split; [exact Hnn|].
  destruct (consistency_of_cleaned (pd := Sample.pandas) contacts
              Hrb Hparsed Hneg) as (_ & _ & Hlt).
  apply Hlt.
  destruct (change_entry summary "email" "new_nulls_from_empty_strings"
              (VInt (-1)) Hnn) as (m & Hm & Hk).
  exists "email", m. split; [exact Hm|]. rewrite Hk. by eexists.
Defined.
